(** * export_tableau_tables: the aggregation pipeline, embedded and verified

    A shallow embedding of [scripts/export_tableau_tables.py].  The script
    loads one table of job postings and derives twelve aggregate tables from
    it.  The embedding follows the script step by step:

    - a posting is a record, the loaded frame is its column labels together
      with its rows; the [skill_] columns are discovered from the labels.
      The table is the cleaned data set: every cell holds a value (no cell
      of [country_name], [experience_group] or [is_remote] is missing), the
      skill flags are booleans, and the timestamps have been parsed.  The
      library treats a missing cell in its own way ([value_counts] and
      [groupby] leave the posting out, [unique] keeps the missing value as a
      group); a statement that would not survive such a cell says that it
      is about tables without one;
    - counts are integers ([Z]); shares are floats, modelled as exact
      rationals with an explicit NaN ([float := option Q], [None] is NaN), so
      that the mean of an empty selection is NaN as in the library; the one
      division of scalars in the script, in the row function of step 6,
      has the infinities as well ([float64]);
    - the library's sort is kept abstract ([sort_kind]): the script always
      sorts with the default algorithm (quicksort), whose contract is "a
      permutation that puts the keys in order" and nothing about ties.  The
      default algorithm itself, NumPy's introsort, is embedded too
      ([aquicksort]) and is one instance of the contract;
    - a failing column lookup raises [KeyError], and the row-wise [apply]
      on a table without rows ends in a [ValueError]; [to_csv] appends to
      the list of files written so far, so that a run that raises half-way
      leaves the earlier files behind.

    Labels of pivoted columns (countries, experience groups) live in their
    own name space, apart from the helper columns ([skill_name], [count],
    ...) that the script adds next to them; the one place where the script
    assigns to a column by a name that a group may bear, [gap] and [skill]
    in step 8, is modelled as the replacement it is.

    The file has four parts: the script, the vocabulary of the statements
    with some worked inputs, the lemmas and theorems about the tables, and
    further properties of the run and of each step. *)

From Stdlib Require Import String Ascii List Bool Arith ZArith QArith Qabs.
From Stdlib Require Import Lia Lqa Permutation Sorted.
Import ListNotations.

Close Scope Q_scope.
Open Scope string_scope.
Open Scope list_scope.

(* ========================================================================= *)
(** * Part I: the script *)
(* ========================================================================= *)

(* ------------------------------------------------------------------------- *)
(** ** Floats with NaN *)
(* ------------------------------------------------------------------------- *)

Definition float := option Q.

Definition NaN : float := None.

Definition fmul (x y : float) : float :=
  match x, y with
  | Some a, Some b => Some (a * b)%Q
  | _, _ => NaN
  end.

Definition fsub (x y : float) : float :=
  match x, y with
  | Some a, Some b => Some (a - b)%Q
  | _, _ => NaN
  end.

Definition fabs (x : float) : float := option_map Qabs x.

Definition of_int (z : Z) : float := Some (inject_Z z).

Definition isna (x : float) : bool :=
  match x with
  | None => true
  | Some _ => false
  end.

(** The value of an arithmetic expression on NumPy scalars.  Dividing by a
    zero scalar is no exception there: it gives an infinity, or NaN for 0/0
    (and a warning). *)
Inductive float64 : Type :=
| Finite (q : Q)
| Infinity (negative : bool)
| NotANumber.

(** [a / b] for two integer scalars. *)
Definition truediv (a b : Z) : float64 :=
  if (b =? 0)%Z
  then (if (a =? 0)%Z then NotANumber else Infinity (a <? 0)%Z)
  else Finite (inject_Z a / inject_Z b).

(** [x * 100] *)
Definition times_100 (x : float64) : float64 :=
  match x with
  | Finite q => Finite (q * 100)
  | Infinity negative => Infinity negative
  | NotANumber => NotANumber
  end.

(* ------------------------------------------------------------------------- *)
(** ** Sorting: [argsort], [nargsort], [take], [sort_values] *)
(* ------------------------------------------------------------------------- *)

(** What an [argsort] of the array library promises, whatever the algorithm:
    the result lists every position once, and reading the keys in that order
    gives a non-decreasing sequence.  The default algorithm of [sort_values]
    is quicksort, which promises nothing about equal keys. *)
Record sort_kind : Type := SortKind {
  argsort : list Q -> list nat;
  argsort_perm : forall ks, Permutation (argsort ks) (seq 0 (length ks));
  argsort_sorted :
    forall ks, Sorted (fun i j => (nth i ks 0 <= nth j ks 0)%Q) (argsort ks)
}.

(** The values that are not NaN, in order. *)
Definition non_nans (items : list float) : list Q :=
  flat_map (fun x => match x with Some q => [q] | None => [] end) items.

Definition mask (items : list float) (i : nat) : bool := isna (nth i items NaN).

(** Fancy indexing [a[idx]] of an array of positions. *)
Definition index_with (a : list nat) (idx : list nat) : list nat :=
  map (fun j => nth j a 0) idx.

(** [nargsort] of the table library: NaN keys are set aside and placed last;
    for a descending sort the keys are reversed, sorted ascending, and the
    result is reversed again. *)
Definition nargsort (kind : sort_kind) (items : list float) (ascending : bool)
  : list nat :=
  let idx := seq 0 (length items) in
  let non_nan_idx := filter (fun i => negb (mask items i)) idx in
  let nan_idx := filter (mask items) idx in
  let indexer :=
    if ascending
    then index_with non_nan_idx (argsort kind (non_nans items))
    else rev (index_with (rev non_nan_idx) (argsort kind (rev (non_nans items))))
  in
  indexer ++ nan_idx.

(** Rows at the given positions (positions out of range do not occur: they
    always come from [nargsort]). *)
Definition take {A : Type} (idx : list nat) (l : list A) : list A :=
  flat_map (fun i => match nth_error l i with Some x => [x] | None => [] end) idx.

(** [sort_values(by, ascending=...)] with the default algorithm.  A [key=]
    function is applied to the column before sorting; here it is part of
    [by]. *)
Definition sort_values {A : Type} (kind : sort_kind) (by_ : A -> float)
  (ascending : bool) (l : list A) : list A :=
  take (nargsort kind (map by_ l) ascending) l.

(* ------------------------------------------------------------------------- *)
(** ** The default algorithm: NumPy's quicksort *)
(* ------------------------------------------------------------------------- *)

(** [kind="quicksort"] runs NumPy's [aquicksort]: an introsort on the array
    [tosort] of positions that compares the keys [v] behind them.  A range
    of more than 17 positions is partitioned around the median of its first,
    middle and last key, the larger part is pushed on a stack and the
    smaller one is treated next; a shorter range is finished by an insertion
    sort; a range reached with the depth budget used up is finished by a
    heapsort.  Positions are offsets into [tosort]; the loops of the
    algorithm carry a bound on their number of rounds.  This is the generic
    implementation; a build that hands the array to a vectorised sort orders
    equal keys in yet another way, and no variant is stable. *)

(** [less(a, b)] on keys; there is no NaN among them, [nargsort] has set
    those aside. *)
Definition Qlt_bool (a b : Q) : bool := negb (Qle_bool b a).

(** [v[i]] *)
Definition key (v : list Q) (i : nat) : Q := nth i v 0%Q.

(** Reading and writing the cell at offset [p] of [tosort]. *)
Definition aget (a : list nat) (p : nat) : nat := nth p a 0.

Fixpoint aset (a : list nat) (p x : nat) : list nat :=
  match a, p with
  | [], _ => []
  | _ :: rest, O => x :: rest
  | y :: rest, S p' => y :: aset rest p' x
  end.

(** [INTP_SWAP] of the cells [p] and [q]. *)
Definition swap (a : list nat) (p q : nat) : list nat :=
  aset (aset a p (aget a q)) q (aget a p).

(** Swap the cells [p] and [q] if the key behind [p] is the smaller one. *)
Definition swap_if_less (v : list Q) (a : list nat) (p q : nat) : list nat :=
  if Qlt_bool (key v (aget a p)) (key v (aget a q)) then swap a p q else a.

(** [do ++pi while] the key behind [pi] is less than the pivot [vp]. *)
Fixpoint scan_up (rounds : nat) (v : list Q) (vp : Q) (a : list nat) (pi : nat)
  : nat :=
  match rounds with
  | O => pi
  | S rounds' =>
      if Qlt_bool (key v (aget a (S pi))) vp
      then scan_up rounds' v vp a (S pi)
      else S pi
  end.

(** [do --pj while] the pivot [vp] is less than the key behind [pj]. *)
Fixpoint scan_down (rounds : nat) (v : list Q) (vp : Q) (a : list nat) (pj : nat)
  : nat :=
  match rounds with
  | O => pj
  | S rounds' =>
      if Qlt_bool vp (key v (aget a (pj - 1)))
      then scan_down rounds' v vp a (pj - 1)
      else pj - 1
  end.

(** The loop that moves the two scans towards each other and swaps what
    they stop at. *)
Fixpoint partition_loop (rounds : nat) (v : list Q) (vp : Q) (a : list nat)
  (pi pj : nat) : list nat * nat :=
  match rounds with
  | O => (a, pi)
  | S rounds' =>
      let pi' := scan_up (length a) v vp a pi in
      let pj' := scan_down (length a) v vp a pj in
      if (pj' <=? pi')%nat then (a, pi')
      else partition_loop rounds' v vp (swap a pi' pj') pi' pj'
  end.

(** One partition of the range [pl .. pr]; returns the array and the final
    place of the pivot. *)
Definition partition (v : list Q) (a : list nat) (pl pr : nat) : list nat * nat :=
  let pm := pl + (pr - pl) / 2 in
  let a := swap_if_less v a pm pl in
  let a := swap_if_less v a pr pm in
  let a := swap_if_less v a pm pl in
  let vp := key v (aget a pm) in
  let a := swap a pm (pr - 1) in
  let (a, pi) := partition_loop (length a) v vp a pl (pr - 1) in
  (swap a pi (pr - 1), pi).

(** [while pj > pl] and [vp] is less than the key in front of [pj], move
    that cell one place up. *)
Fixpoint shift (rounds : nat) (v : list Q) (vp : Q) (a : list nat) (pl pj : nat)
  : list nat * nat :=
  match rounds with
  | O => (a, pj)
  | S rounds' =>
      if (pl <? pj)%nat && Qlt_bool vp (key v (aget a (pj - 1)))
      then shift rounds' v vp (aset a pj (aget a (pj - 1))) pl (pj - 1)
      else (a, pj)
  end.

(** The insertion sort of the range [pl .. pr]. *)
Definition insert_at (v : list Q) (pl : nat) (a : list nat) (pi : nat) : list nat :=
  let vi := aget a pi in
  let (a', pj) := shift (length a) v (key v vi) a pl pi in
  aset a' pj vi.

Definition insertion_range (v : list Q) (a : list nat) (pl pr : nat) : list nat :=
  fold_left (insert_at v pl) (seq (S pl) (pr - pl)) a.

(** [aheapsort] of the [n] positions from [pl] on; the heap is indexed from
    one, cell [k] is the position [pl + k - 1]. *)
Fixpoint sift (rounds : nat) (v : list Q) (pl tmp : nat) (a : list nat)
  (n i j : nat) : list nat :=
  match rounds with
  | O => aset a (pl + i - 1) tmp
  | S rounds' =>
      if (j <=? n)%nat then
        let j :=
          if (j <? n)%nat &&
             Qlt_bool (key v (aget a (pl + j - 1))) (key v (aget a (pl + j)))
          then j + 1 else j in
        if Qlt_bool (key v tmp) (key v (aget a (pl + j - 1)))
        then sift rounds' v pl tmp (aset a (pl + i - 1) (aget a (pl + j - 1)))
                  n j (j + j)
        else aset a (pl + i - 1) tmp
      else aset a (pl + i - 1) tmp
  end.

Definition aheapsort (v : list Q) (a : list nat) (pl n : nat) : list nat :=
  let heap :=
    fold_left (fun a l => sift (length a) v pl (aget a (pl + l - 1)) a n l (l + l))
              (rev (seq 1 (n / 2))) a in
  fold_left (fun a m =>
               let tmp := aget a (pl + m - 1) in
               let a := aset a (pl + m - 1) (aget a pl) in
               sift (length a) v pl tmp a (m - 1) 1 2)
            (rev (seq 2 (n - 1))) heap.

(** The inner loop: partition while the range has more than 17 positions. *)
Fixpoint partition_phase (rounds : nat) (v : list Q) (a : list nat) (pl pr : nat)
  (stack : list (nat * nat * Z)) (cdepth : Z)
  : list nat * nat * nat * list (nat * nat * Z) :=
  match rounds with
  | O => (a, pl, pr, stack)
  | S rounds' =>
      if (16 <? pr - pl)%nat then
        let (a', pi) := partition v a pl pr in
        let cdepth' := (cdepth - 1)%Z in
        if (pi - pl <? pr - pi)%nat
        then partition_phase rounds' v a' pl (pi - 1)
                             ((pi + 1, pr, cdepth') :: stack) cdepth'
        else partition_phase rounds' v a' (pi + 1) pr
                             ((pl, pi - 1, cdepth') :: stack) cdepth'
      else (a, pl, pr, stack)
  end.

(** The outer loop: finish the current range, then take the next one from
    the stack. *)
Fixpoint aquicksort_loop (rounds : nat) (v : list Q) (a : list nat) (pl pr : nat)
  (stack : list (nat * nat * Z)) (cdepth : Z) : list nat :=
  match rounds with
  | O => a
  | S rounds' =>
      let '(a, stack) :=
        if (cdepth <? 0)%Z
        then (aheapsort v a pl (pr - pl + 1), stack)
        else
          let '(a, pl, pr, stack) :=
            partition_phase (length a) v a pl pr stack cdepth in
          (insertion_range v a pl pr, stack) in
      match stack with
      | [] => a
      | (pl', pr', cdepth') :: rest =>
          aquicksort_loop rounds' v a pl' pr' rest cdepth'
      end
  end.

(** [v.argsort(kind="quicksort")]: the positions start in order; the depth
    budget is twice the position of the highest bit of the length. *)
Definition aquicksort (v : list Q) : list nat :=
  let num := length v in
  aquicksort_loop (S num) v (seq 0 num) 0 (num - 1) []
                  (2 * Z.log2 (Z.of_nat num))%Z.

(* ------------------------------------------------------------------------- *)
(** ** Python values: errors, integers, strings *)
(* ------------------------------------------------------------------------- *)

Inductive pyerr : Type :=
| KeyError (key : string)
| ValueError (message : string).

Inductive result (A : Type) : Type :=
| Ok (a : A)
| Raise (e : pyerr).

Arguments Ok {A} a.
Arguments Raise {A} e.

Definition bind_result {A B : Type} (r : result A) (k : A -> result B) : result B :=
  match r with
  | Ok a => k a
  | Raise e => Raise e
  end.

(** [apply(..., axis=1)]: the function is run on the rows in order and
    the first exception ends the loop. *)
Fixpoint apply_rows {A B : Type} (f : A -> result B) (l : list A) : result (list B) :=
  match l with
  | [] => Ok []
  | x :: rest =>
      bind_result (f x) (fun y =>
      bind_result (apply_rows f rest) (fun ys => Ok (y :: ys)))
  end.

Definition b2z (b : bool) : Z := if b then 1%Z else 0%Z.

Definition sum (xs : list Z) : Z := fold_right Z.add 0%Z xs.

Definition len {A : Type} (l : list A) : Z := Z.of_nat (List.length l).

(** [Series.mean()]: NaN on an empty series. *)
Definition mean (xs : list Z) : float :=
  match xs with
  | [] => NaN
  | _ :: _ => Some (inject_Z (sum xs) / inject_Z (len xs))%Q
  end.

(** [max(axis=1)] over the selected columns of one row (the selection is
    never empty where the script calls it). *)
Definition row_max (xs : list Z) : Z :=
  match xs with
  | [] => 0%Z
  | x :: rest => fold_left Z.max rest x
  end.

(** [str.replace(old, new, regex=False)]: every occurrence of [old], scanning
    from the left; [skip] counts the characters of a match still to drop. *)
Fixpoint replace_from (old new : string) (skip : nat) (s : string) : string :=
  match s with
  | EmptyString => EmptyString
  | String c rest =>
      match skip with
      | S k => replace_from old new k rest
      | O =>
          if String.prefix old s
          then new ++ replace_from old new (String.length old - 1) rest
          else String c (replace_from old new 0 rest)
      end
  end.

Definition str_replace (old new s : string) : string := replace_from old new 0 s.

(** Group keys come out sorted; they are distinct, so the order does not
    depend on the algorithm. *)
Fixpoint insert_label (x : string) (l : list string) : list string :=
  match l with
  | [] => [x]
  | y :: rest => if String.leb x y then x :: y :: rest else y :: insert_label x rest
  end.

Definition sort_labels (l : list string) : list string :=
  fold_right insert_label [] l.

(** Distinct values in order of first appearance ([Series.unique()]). *)
Fixpoint unique {A : Type} (eqb : A -> A -> bool) (l : list A) : list A :=
  match l with
  | [] => []
  | x :: rest => x :: filter (fun y => negb (eqb x y)) (unique eqb rest)
  end.

Definition count_of {A : Type} (eqb : A -> A -> bool) (x : A) (l : list A) : Z :=
  len (filter (eqb x) l).

(** [Series.value_counts()]: one entry per distinct value with the number of
    its occurrences, sorted by that number, largest first. *)
Definition value_counts {A : Type} (kind : sort_kind) (eqb : A -> A -> bool)
  (l : list A) : list (A * Z) :=
  sort_values kind (fun kv => of_int (snd kv)) false
    (map (fun x => (x, count_of eqb x l)) (unique eqb l)).

(** [sort_index()] of a series of counts indexed by integers. *)
Definition sort_index (kind : sort_kind) (s : list (Z * Z)) : list (Z * Z) :=
  sort_values kind (fun kv => of_int (fst kv)) true s.

(** A dictionary in insertion order. *)
Fixpoint dict_get {V : Type} (d : list (string * V)) (k : string) : option V :=
  match d with
  | [] => None
  | (k', v) :: rest => if (k' =? k)%string then Some v else dict_get rest k
  end.

(** [series[key]] on a series indexed by labels. *)
Definition getitem {V : Type} (s : list (string * V)) (k : string) : result V :=
  match dict_get s k with
  | Some v => Ok v
  | None => Raise (KeyError k)
  end.

(* ------------------------------------------------------------------------- *)
(** ** The loaded table *)
(* ------------------------------------------------------------------------- *)

Record Posting : Type := {
  id : string;
  title : string;
  country_name : string;
  country_code : string;
  experience_group : string;
  is_remote : bool;
  is_full_time : bool;
  is_part_time : bool;
  is_contractor : bool;
  is_internship : bool;
  posted_at_datetime_utc : Z;
  (** the flag held by each [skill_] column *)
  skill_flag : string -> bool
}.

Record DataFrame : Type := {
  columns : list string;
  rows : list Posting
}.

Definition has_label (labels : list string) (c : string) : bool :=
  existsb (String.eqb c) labels.

(** [df[c]] raises when the table has no column [c]. *)
Definition require (df : DataFrame) (c : string) : result unit :=
  if has_label (columns df) c then Ok tt else Raise (KeyError c).

Definition skill_cols (df : DataFrame) : list string :=
  filter (String.prefix "skill_") (columns df).

Definition flags (c : string) (rs : list Posting) : list Z :=
  map (fun r => b2z (skill_flag r c)) rs.

(** [df[skill_cols].sum(axis=1)] for one row. *)
Definition skills_count (df : DataFrame) (r : Posting) : Z :=
  sum (map (fun c => b2z (skill_flag r c)) (skill_cols df)).

Definition n_total (df : DataFrame) : Z := len (rows df).

(** The labels once [skills_count] has been assigned. *)
Definition df_columns (df : DataFrame) : list string :=
  if has_label (columns df) "skills_count"
  then columns df
  else columns df ++ ["skills_count"].

Definition SKILL_CATEGORIES : list (string * list string) :=
  [ ("Programming", ["sql"; "python"; "r"]);
    ("Spreadsheets", ["excel"; "google_sheets"]);
    ("Databases",
      ["postgresql"; "mysql"; "oracle"; "sql_server"; "bigquery";
       "snowflake"; "redshift"; "vertica"; "clickhouse"; "databricks"; "synapse"]);
    ("Visualisation & BI Tools",
      ["dashboards"; "data_visualization"; "power_bi"; "tableau"; "looker";
       "qlik"; "datalens"; "superset"]);
    ("Data Engineering",
      ["airflow"; "hadoop"; "spark"; "kafka"; "dbt";
       "talend"; "informatica"; "etl"; "data_pipeline"]);
    ("AI/ML Tools", ["chatgpt"; "claude"; "cursor"; "copilot"; "gemini"]);
    ("Statistics",
      ["statistics"; "a_b_testing"; "experimentation";
       "hypothesis_testing"; "data_cleaning"]) ].

(* ------------------------------------------------------------------------- *)
(** ** 1. fact_job_postings *)
(* ------------------------------------------------------------------------- *)

Inductive cell : Type :=
| Str (s : string)
| Flag (b : bool)
| Int (z : Z)
| Timestamp (t : Z).

Record FactTable : Type := {
  fact_columns : list string;
  fact_rows : list (list cell)
}.

Definition fact_cols : list string :=
  [ "id"; "title"; "country_name"; "country_code"; "experience_group";
    "is_remote"; "is_full_time"; "is_part_time"; "is_contractor"; "is_internship";
    "skills_count"; "posted_at_datetime_utc" ].

(** The cell of a posting under one of the labels of [fact_cols]. *)
Definition fact_cell (df : DataFrame) (r : Posting) (c : string) : cell :=
  if c =? "id" then Str (id r)
  else if c =? "title" then Str (title r)
  else if c =? "country_name" then Str (country_name r)
  else if c =? "country_code" then Str (country_code r)
  else if c =? "experience_group" then Str (experience_group r)
  else if c =? "is_remote" then Flag (is_remote r)
  else if c =? "is_full_time" then Flag (is_full_time r)
  else if c =? "is_part_time" then Flag (is_part_time r)
  else if c =? "is_contractor" then Flag (is_contractor r)
  else if c =? "is_internship" then Flag (is_internship r)
  else if c =? "skills_count" then Int (skills_count df r)
  else Timestamp (posted_at_datetime_utc r).

Definition fact_job_postings (df : DataFrame) : FactTable :=
  let cols := filter (has_label (df_columns df)) fact_cols in
  {| fact_columns := cols;
     fact_rows := map (fun r => map (fact_cell df r) cols) (rows df) |}.

(* ------------------------------------------------------------------------- *)
(** ** 2-4, 11. Distributions: country, experience, remote, skills count *)
(* ------------------------------------------------------------------------- *)

Record dist_row (K : Type) : Type := {
  dist_key : K;
  dist_count : Z;
  dist_share : Q
}.

Arguments dist_key {K} d.
Arguments dist_count {K} d.
Arguments dist_share {K} d.

(** [t["share"] = t["count"] / total * 100] *)
Definition with_share {K : Type} (counts : list (K * Z)) (total : Z)
  : list (dist_row K) :=
  map (fun kv => {| dist_key := fst kv;
                    dist_count := snd kv;
                    dist_share := (inject_Z (snd kv) / inject_Z total * 100)%Q |})
      counts.

Definition agg_country (kind : sort_kind) (df : DataFrame) : list (dist_row string) :=
  let counts := value_counts kind String.eqb (map country_name (rows df)) in
  with_share counts (sum (map snd counts)).

Definition agg_experience (kind : sort_kind) (df : DataFrame) : list (dist_row string) :=
  let counts := value_counts kind String.eqb (map experience_group (rows df)) in
  with_share counts (sum (map snd counts)).

Definition agg_remote (kind : sort_kind) (df : DataFrame) : list (dist_row bool) :=
  let counts := value_counts kind Bool.eqb (map is_remote (rows df)) in
  with_share counts (sum (map snd counts)).

Definition agg_skills_count_dist (kind : sort_kind) (df : DataFrame)
  : list (dist_row Z) :=
  let counts :=
    sort_index kind (value_counts kind Z.eqb (map (skills_count df) (rows df))) in
  with_share counts (n_total df).

(* ------------------------------------------------------------------------- *)
(** ** 5. agg_top_skills *)
(* ------------------------------------------------------------------------- *)

Record top_skill_row : Type := {
  top_skill_name : string;
  top_count : Z;
  top_share : float;
  top_skill : string
}.

Definition top_skills_unsorted (df : DataFrame) : list top_skill_row :=
  map (fun c => {| top_skill_name := c;
                   top_count := sum (flags c (rows df));
                   top_share := fmul (mean (flags c (rows df))) (of_int 100);
                   top_skill := str_replace "skill_" "" c |})
      (skill_cols df).

Definition agg_top_skills (kind : sort_kind) (df : DataFrame) : list top_skill_row :=
  sort_values kind (fun r => of_int (top_count r)) false (top_skills_unsorted df).

(* ------------------------------------------------------------------------- *)
(** ** Cross tables: [groupby], [T], [melt] *)
(* ------------------------------------------------------------------------- *)

(** A table with row labels, column labels and one value per pair. *)
Record crosstab (V : Type) : Type := {
  ct_index : list string;
  ct_columns : list string;
  ct_value : string -> string -> V
}.

Arguments ct_index {V} c.
Arguments ct_columns {V} c.
Arguments ct_value {V} c _ _.

Definition group_keys (by_ : Posting -> string) (df : DataFrame) : list string :=
  sort_labels (unique String.eqb (map by_ (rows df))).

Definition group_rows (by_ : Posting -> string) (df : DataFrame) (g : string)
  : list Posting :=
  filter (fun r => by_ r =? g) (rows df).

(** [df.groupby(by)[skill_cols].agg()]: one row per group, one column per
    skill. *)
Definition groupby_skills {V : Type} (by_ : Posting -> string)
  (agg : list Z -> V) (df : DataFrame) : crosstab V :=
  {| ct_index := group_keys by_ df;
     ct_columns := skill_cols df;
     ct_value := fun g c => agg (flags c (group_rows by_ df g)) |}.

Definition transpose {V : Type} (t : crosstab V) : crosstab V :=
  {| ct_index := ct_columns t;
     ct_columns := ct_index t;
     ct_value := fun i c => ct_value t c i |}.

Record long_row (V : Type) : Type := {
  long_skill_name : string;
  long_var : string;
  long_value : V
}.

Arguments long_skill_name {V} l.
Arguments long_var {V} l.
Arguments long_value {V} l.

(** [melt(id_vars="skill_name")]: the value columns one below the other. *)
Definition melt {V : Type} (t : crosstab V) : list (long_row V) :=
  flat_map (fun g =>
              map (fun s => {| long_skill_name := s;
                               long_var := g;
                               long_value := ct_value t s g |})
                  (ct_index t))
           (ct_columns t).

(** [t[col]] on a cross table. *)
Definition ct_getitem {V : Type} (t : crosstab V) (col : string)
  : result (string -> V) :=
  if has_label (ct_columns t) col
  then Ok (fun i => ct_value t i col)
  else Raise (KeyError col).

(* ------------------------------------------------------------------------- *)
(** ** 6. agg_skills_by_country *)
(* ------------------------------------------------------------------------- *)

Record skill_country_row : Type := {
  sc_skill_name : string;
  sc_country_name : string;
  sc_count : Z;
  sc_share : float64;
  sc_skill : string
}.

Definition skills_by_country (df : DataFrame) : crosstab Z :=
  transpose (groupby_skills country_name sum df).

Definition skills_by_country_long (df : DataFrame) : list (long_row Z) :=
  melt (skills_by_country df).

(** [df.groupby("country_name").size()] *)
Definition country_totals (df : DataFrame) : list (string * Z) :=
  map (fun g => (g, len (group_rows country_name df g))) (group_keys country_name df).

(** The function applied to each row of the long table: the count of the row
    and the total looked up for its country are scalars. *)
Definition country_share (totals : list (string * Z)) (r : long_row Z)
  : result float64 :=
  bind_result (getitem totals (long_var r)) (fun total =>
  if (total >? 0)%Z
  then Ok (times_100 (truediv (long_value r) total))
  else Ok (Finite 0)).

(** [t["share"] = t.apply(..., axis=1)].  On a table without rows [apply]
    hands back the table itself instead of a column, and assigning a table
    of several columns to the single column [share] raises. *)
Definition agg_skills_by_country (df : DataFrame) : result (list skill_country_row) :=
  match skills_by_country_long df with
  | [] =>
      Raise (ValueError
        "Cannot set a DataFrame with multiple columns to the single column share")
  | long =>
      apply_rows
        (fun r =>
           bind_result (country_share (country_totals df) r) (fun share =>
           Ok {| sc_skill_name := long_skill_name r;
                 sc_country_name := long_var r;
                 sc_count := long_value r;
                 sc_share := share;
                 sc_skill := str_replace "skill_" "" (long_skill_name r) |}))
        long
  end.

(* ------------------------------------------------------------------------- *)
(** ** 7. agg_skills_by_experience *)
(* ------------------------------------------------------------------------- *)

Record skill_exp_row : Type := {
  se_skill_name : string;
  se_experience_group : string;
  se_share : float;
  se_skill : string
}.

Definition skills_by_exp (df : DataFrame) : crosstab float :=
  transpose (groupby_skills experience_group
               (fun xs => fmul (mean xs) (of_int 100)) df).

Definition agg_skills_by_experience (df : DataFrame) : list skill_exp_row :=
  map (fun r => {| se_skill_name := long_skill_name r;
                   se_experience_group := long_var r;
                   se_share := long_value r;
                   se_skill := str_replace "skill_" "" (long_skill_name r) |})
      (melt (skills_by_exp df)).

(* ------------------------------------------------------------------------- *)
(** ** 8. agg_skills_gap *)
(* ------------------------------------------------------------------------- *)

Record gap_row : Type := {
  gap_skill_name : string;
  junior_share : float;
  mid_plus_share : float;
  (** the columns of any further experience group, left as they are; the
      assignments to [gap] and [skill] replace a group column of that name *)
  gap_other_groups : list (string * float);
  gap : float;
  gap_skill : string
}.

Definition gap_unsorted (t : crosstab float) (mid_plus junior : string -> float)
  : list gap_row :=
  map (fun s =>
         {| gap_skill_name := s;
            junior_share := junior s;
            mid_plus_share := mid_plus s;
            gap_other_groups :=
              map (fun g => (g, ct_value t s g))
                  (filter (fun g => negb ((g =? "junior") || (g =? "mid_plus") ||
                                          (g =? "gap") || (g =? "skill")))
                          (ct_columns t));
            gap := fsub (mid_plus s) (junior s);
            gap_skill := str_replace "skill_" "" s |})
      (ct_index t).

Definition agg_skills_gap (kind : sort_kind) (df : DataFrame) : result (list gap_row) :=
  let gap_df := skills_by_exp df in
  bind_result (ct_getitem gap_df "mid_plus") (fun mid_plus =>
  bind_result (ct_getitem gap_df "junior") (fun junior =>
  Ok (sort_values kind (fun r => fabs (gap r)) false
        (gap_unsorted gap_df mid_plus junior)))).

(* ------------------------------------------------------------------------- *)
(** ** 9. agg_skill_categories *)
(* ------------------------------------------------------------------------- *)

Record category_row : Type := {
  skill_category : string;
  category_row_share : float;
  (** [map(category_count)]: a category missing from the dictionary would
      give no count *)
  category_row_count : option Z
}.

(** [[f"skill_{s}" for s in skills if f"skill_{s}" in df.columns]] *)
Definition category_cols (df : DataFrame) (skills : list string) : list string :=
  filter (has_label (df_columns df)) (map (fun s => ("skill_" ++ s)%string) skills).

(** [rs[cols].max(axis=1)] *)
Definition mentioned (cols : list string) (rs : list Posting) : list Z :=
  map (fun r => row_max (map (fun c => b2z (skill_flag r c)) cols)) rs.

(** The loop over the categories fills two dictionaries; a category with no
    column in the table is skipped. *)
Definition category_share (df : DataFrame) : list (string * float) :=
  flat_map (fun cs : string * list string =>
              match category_cols df (snd cs) with
              | [] => []
              | cols => [(fst cs, fmul (mean (mentioned cols (rows df))) (of_int 100))]
              end)
           SKILL_CATEGORIES.

Definition category_count (df : DataFrame) : list (string * Z) :=
  flat_map (fun cs : string * list string =>
              match category_cols df (snd cs) with
              | [] => []
              | cols => [(fst cs, sum (mentioned cols (rows df)))]
              end)
           SKILL_CATEGORIES.

Definition agg_skill_categories (kind : sort_kind) (df : DataFrame)
  : list category_row :=
  map (fun kv => {| skill_category := fst kv;
                    category_row_share := snd kv;
                    category_row_count := dict_get (category_count df) (fst kv) |})
      (sort_values kind snd false (category_share df)).

(* ------------------------------------------------------------------------- *)
(** ** 10. agg_skill_categories_by_experience *)
(* ------------------------------------------------------------------------- *)

Record category_exp_row : Type := {
  ce_experience_group : string;
  ce_skill_category : string;
  ce_share : float
}.

Definition agg_skill_categories_by_experience (df : DataFrame)
  : list category_exp_row :=
  flat_map (fun group =>
    let subset := group_rows experience_group df group in
    flat_map (fun cs : string * list string =>
                match category_cols df (snd cs) with
                | [] => []
                | cols => [{| ce_experience_group := group;
                              ce_skill_category := fst cs;
                              ce_share := fmul (mean (mentioned cols subset))
                                               (of_int 100) |}]
                end)
             SKILL_CATEGORIES)
    (unique String.eqb (map experience_group (rows df))).

(* ------------------------------------------------------------------------- *)
(** ** 12. agg_skills_count_by_experience *)
(* ------------------------------------------------------------------------- *)

Record count_exp_row : Type := {
  cx_experience_group : string;
  cx_count : Z;
  cx_mean : float;
  cx_median : float;
  cx_min : option Z;
  cx_max : option Z
}.

Fixpoint insert_int (x : Z) (l : list Z) : list Z :=
  match l with
  | [] => [x]
  | y :: rest => if (x <=? y)%Z then x :: y :: rest else y :: insert_int x rest
  end.

Definition sort_ints (l : list Z) : list Z := fold_right insert_int [] l.

(** The middle value of the sorted sample, or the mean of the two middle
    values. *)
Definition median (xs : list Z) : float :=
  let s := sort_ints xs in
  let n := List.length s in
  match n with
  | O => NaN
  | S _ =>
      if Nat.even n
      then Some ((inject_Z (nth (n / 2 - 1) s 0%Z) + inject_Z (nth (n / 2) s 0%Z)) / 2)%Q
      else Some (inject_Z (nth (n / 2) s 0%Z))
  end.

Definition minimum (xs : list Z) : option Z :=
  match xs with
  | [] => None
  | x :: rest => Some (fold_left Z.min rest x)
  end.

Definition maximum (xs : list Z) : option Z :=
  match xs with
  | [] => None
  | x :: rest => Some (fold_left Z.max rest x)
  end.

Definition agg_skills_count_by_experience (df : DataFrame) : list count_exp_row :=
  map (fun g =>
         let xs := map (skills_count df) (group_rows experience_group df g) in
         {| cx_experience_group := g;
            cx_count := len xs;
            cx_mean := mean xs;
            cx_median := median xs;
            cx_min := minimum xs;
            cx_max := maximum xs |})
      (group_keys experience_group df).

(* ------------------------------------------------------------------------- *)
(** ** main: the run and the files it writes *)
(* ------------------------------------------------------------------------- *)

Inductive csv : Type :=
| fact_job_postings_csv (t : FactTable)
| agg_country_csv (t : list (dist_row string))
| agg_experience_csv (t : list (dist_row string))
| agg_remote_csv (t : list (dist_row bool))
| agg_top_skills_csv (t : list top_skill_row)
| agg_skills_by_country_csv (t : list skill_country_row)
| agg_skills_by_experience_csv (t : list skill_exp_row)
| agg_skills_gap_csv (t : list gap_row)
| agg_skill_categories_csv (t : list category_row)
| agg_skill_categories_by_experience_csv (t : list category_exp_row)
| agg_skills_count_dist_csv (t : list (dist_row Z))
| agg_skills_count_by_experience_csv (t : list count_exp_row).

(** A step of the run: it sees the files written so far, may add to them,
    and returns a value or raises. *)
Definition run (A : Type) : Type := list csv -> list csv * result A.

Definition ret {A : Type} (a : A) : run A := fun out => (out, Ok a).

Definition bind {A B : Type} (m : run A) (k : A -> run B) : run B :=
  fun out =>
    match m out with
    | (out', Ok a) => k a out'
    | (out', Raise e) => (out', Raise e)
    end.

Definition lift {A : Type} (r : result A) : run A := fun out => (out, r).

Definition to_csv (file : csv) : run unit := fun out => (out ++ [file], Ok tt).

Notation "x <- m ;; k" := (bind m (fun x => k))
  (at level 61, m at next level, right associativity).
Notation "m ;; k" := (bind m (fun _ => k))
  (at level 61, right associativity).

(** The steps in the order of the script.  The first one reads the
    timestamp column to convert it; the conversion itself is not modelled
    (the timestamps of a [Posting] are parsed already), only the lookup of
    the column, which fails when the column is missing. *)
Definition main_steps (kind : sort_kind) (df : DataFrame) : run unit :=
  lift (require df "posted_at_datetime_utc") ;;
  to_csv (fact_job_postings_csv (fact_job_postings df)) ;;
  lift (require df "country_name") ;;
  to_csv (agg_country_csv (agg_country kind df)) ;;
  lift (require df "experience_group") ;;
  to_csv (agg_experience_csv (agg_experience kind df)) ;;
  lift (require df "is_remote") ;;
  to_csv (agg_remote_csv (agg_remote kind df)) ;;
  to_csv (agg_top_skills_csv (agg_top_skills kind df)) ;;
  by_country <- lift (agg_skills_by_country df) ;;
  to_csv (agg_skills_by_country_csv by_country) ;;
  to_csv (agg_skills_by_experience_csv (agg_skills_by_experience df)) ;;
  gap_df <- lift (agg_skills_gap kind df) ;;
  to_csv (agg_skills_gap_csv gap_df) ;;
  to_csv (agg_skill_categories_csv (agg_skill_categories kind df)) ;;
  to_csv (agg_skill_categories_by_experience_csv
            (agg_skill_categories_by_experience df)) ;;
  to_csv (agg_skills_count_dist_csv (agg_skills_count_dist kind df)) ;;
  to_csv (agg_skills_count_by_experience_csv
            (agg_skills_count_by_experience df)).

(** The run starts with nothing written. *)
Definition main (kind : sort_kind) (df : DataFrame) : list csv * result unit :=
  main_steps kind df [].

(* ========================================================================= *)
(** * Part II: vocabulary and worked inputs *)
(* ========================================================================= *)

(* ------------------------------------------------------------------------- *)
(** ** Vocabulary of the statements *)
(* ------------------------------------------------------------------------- *)


(** The sum of a column of rationals. *)
Definition sumQ (xs : list Q) : Q := fold_right Qplus 0%Q xs.

(** The row that the script computes from a row of the long table, once the
    lookup of the country total has succeeded. *)
Definition country_row (df : DataFrame) (r : long_row Z) : skill_country_row :=
  let total := len (group_rows country_name df (long_var r)) in
  {| sc_skill_name := long_skill_name r;
     sc_country_name := long_var r;
     sc_count := long_value r;
     sc_share := if (total >? 0)%Z
                 then Finite (inject_Z (long_value r) / inject_Z total * 100)
                 else Finite 0;
     sc_skill := str_replace "skill_" "" (long_skill_name r) |}.

(** Order on floats that are numbers. *)
Definition float_le (x y : float) : Prop :=
  match x, y with
  | Some a, Some b => (a <= b)%Q
  | _, _ => False
  end.

(** The share of a skill column within an experience group. *)
Definition group_share (df : DataFrame) (g c : string) : float :=
  fmul (mean (flags c (group_rows experience_group df g))) (of_int 100).

(** The number behind the sort key of a row. *)
Definition abs_gap (r : gap_row) : Q :=
  match gap r with
  | Some g => Qabs g
  | None => 0%Q
  end.

(** The entries that the loop over a list of categories adds to a
    dictionary whose values are computed from the columns found. *)
Definition category_entries {V : Type} (df : DataFrame) (f : list string -> V)
  (cats : list (string * list string)) : list (string * V) :=
  flat_map (fun cs : string * list string =>
              match category_cols df (snd cs) with
              | [] => []
              | cols => [(fst cs, f cols)]
              end)
           cats.


(** An insertion sort on positions, as a stable sort to compare with:
    [insertion_argsort leb] inserts the positions from the last to the
    first, each in front of the first key that is not smaller, so equal keys
    stay in their order. *)
Fixpoint insert_pos (leb : Q -> Q -> bool) (ks : list Q) (i : nat)
  (sorted : list nat) : list nat :=
  match sorted with
  | [] => [i]
  | j :: rest =>
      if leb (nth i ks 0%Q) (nth j ks 0%Q)
      then i :: j :: rest
      else j :: insert_pos leb ks i rest
  end.

Definition insertion_argsort (leb : Q -> Q -> bool) (ks : list Q) : list nat :=
  fold_right (insert_pos leb ks) [] (seq 0 (length ks)).

(** [idx] holds the keys of [ks] in non-decreasing order. *)
Fixpoint keys_in_order (ks : list Q) (idx : list nat) : bool :=
  match idx with
  | [] => true
  | i :: rest =>
      match rest with
      | [] => true
      | j :: _ => Qle_bool (nth i ks 0%Q) (nth j ks 0%Q) && keys_in_order ks rest
      end
  end.

(** [idx] lists every position of [ks] once, keys in non-decreasing order:
    what an [argsort] has to return. *)
Definition is_argsort (ks : list Q) (idx : list nat) : bool :=
  (List.length idx =? List.length ks)%nat &&
  forallb (fun i => existsb (Nat.eqb i) idx) (seq 0 (List.length ks)) &&
  keys_in_order ks idx.

(** The quicksort with its result checked, so that it can stand for the
    default algorithm without a proof that the loops above sort every
    array: a result that failed the check would be replaced by the
    insertion sort's. *)
Definition quicksort_argsort (ks : list Q) : list nat :=
  if is_argsort ks (aquicksort ks) then aquicksort ks
  else insertion_argsort Qle_bool ks.

(* ------------------------------------------------------------------------- *)
(** ** Worked inputs *)
(* ------------------------------------------------------------------------- *)

(** A posting of a table with the two skill columns [skill_sql] and
    [skill_python]. *)
Definition posting (i c e : string) (sql python : bool) : Posting :=
  {| id := i; title := "Data Analyst";
     country_name := c; country_code := c;
     experience_group := e;
     is_remote := false; is_full_time := true; is_part_time := false;
     is_contractor := false; is_internship := false;
     posted_at_datetime_utc := 0%Z;
     skill_flag := fun s =>
       if s =? "skill_sql" then sql
       else if s =? "skill_python" then python
       else false |}.

Definition example_columns : list string :=
  [ "id"; "title"; "country_name"; "country_code"; "experience_group";
    "is_remote"; "is_full_time"; "posted_at_datetime_utc";
    "skill_sql"; "skill_python" ].

(** Three postings: two in the US, one in Germany. *)
Definition example_df : DataFrame :=
  {| columns := example_columns;
     rows := [ posting "1" "US" "junior" true false;
               posting "2" "US" "mid_plus" true true;
               posting "3" "DE" "junior" false false ] |}.

(** Ten junior and twenty mid-level postings.  [skill_python]: 1 of 10
    juniors (10%) and 8 of 20 mid-levels (40%); [skill_sql]: 5 of 10 (50%)
    and 11 of 20 (55%). *)
Definition gap_example_df : DataFrame :=
  {| columns := example_columns;
     rows :=
       map (fun i => posting "j" "US" "junior" (i <? 5)%nat (i <? 1)%nat) (seq 0 10) ++
       map (fun i => posting "m" "US" "mid_plus" (i <? 11)%nat (i <? 8)%nat) (seq 0 20) |}.

(** Ten junior and twenty mid-level postings with a falling and a rising
    skill.  [skill_sql]: 5 of 10 juniors (50%) and 2 of 20 mid-levels (10%);
    [skill_python]: 1 of 10 (10%) and 8 of 20 (40%). *)
Definition gap_mixed_df : DataFrame :=
  {| columns := example_columns;
     rows :=
       map (fun i => posting "j" "US" "junior" (i <? 5)%nat (i <? 1)%nat) (seq 0 10) ++
       map (fun i => posting "m" "US" "mid_plus" (i <? 2)%nat (i <? 8)%nat) (seq 0 20) |}.

(** The same columns and no posting. *)
Definition empty_df : DataFrame :=
  {| columns := example_columns; rows := [] |}.

(** A table with an unexpected experience label and no [mid_plus]. *)
Definition senior_df : DataFrame :=
  {| columns := example_columns;
     rows := [ posting "1" "US" "junior" true false;
               posting "2" "US" "senior" true true ] |}.

(** One posting that asks for each of eighteen skills: eighteen skill
    columns with the same count. *)
Definition wide_columns : list string :=
  [ "id"; "title"; "country_name"; "country_code"; "experience_group";
    "is_remote"; "is_full_time"; "posted_at_datetime_utc";
    "skill_sql"; "skill_python"; "skill_r"; "skill_excel";
    "skill_google_sheets"; "skill_postgresql"; "skill_mysql"; "skill_oracle";
    "skill_sql_server"; "skill_bigquery"; "skill_snowflake"; "skill_redshift";
    "skill_vertica"; "skill_clickhouse"; "skill_databricks"; "skill_synapse";
    "skill_dashboards"; "skill_data_visualization" ].

Definition wide_df : DataFrame :=
  {| columns := wide_columns;
     rows := [ {| id := "1"; title := "Data Analyst";
                  country_name := "US"; country_code := "US";
                  experience_group := "mid_plus";
                  is_remote := false; is_full_time := true;
                  is_part_time := false; is_contractor := false;
                  is_internship := false;
                  posted_at_datetime_utc := 0%Z;
                  skill_flag := fun _ => true |} ] |}.

(** Two skill columns with the same count. *)
Definition ties_df : DataFrame :=
  {| columns := example_columns;
     rows := [ posting "1" "US" "junior" true true;
               posting "2" "US" "mid_plus" false false ] |}.

(** The postings of the example in a table without any skill column. *)
Definition no_skill_df : DataFrame :=
  {| columns := [ "id"; "title"; "country_name"; "country_code";
                  "experience_group"; "is_remote"; "is_full_time";
                  "posted_at_datetime_utc" ];
     rows := rows example_df |}.

(* ------------------------------------------------------------------------- *)
(** ** Vocabulary of the further properties *)
(* ------------------------------------------------------------------------- *)

(** The name under which a table is written. *)
Definition csv_name (file : csv) : string :=
  match file with
  | fact_job_postings_csv _ => "fact_job_postings.csv"
  | agg_country_csv _ => "agg_country.csv"
  | agg_experience_csv _ => "agg_experience.csv"
  | agg_remote_csv _ => "agg_remote.csv"
  | agg_top_skills_csv _ => "agg_top_skills.csv"
  | agg_skills_by_country_csv _ => "agg_skills_by_country.csv"
  | agg_skills_by_experience_csv _ => "agg_skills_by_experience.csv"
  | agg_skills_gap_csv _ => "agg_skills_gap.csv"
  | agg_skill_categories_csv _ => "agg_skill_categories.csv"
  | agg_skill_categories_by_experience_csv _ =>
      "agg_skill_categories_by_experience.csv"
  | agg_skills_count_dist_csv _ => "agg_skills_count_dist.csv"
  | agg_skills_count_by_experience_csv _ => "agg_skills_count_by_experience.csv"
  end.

(** The twelve files in the order of the script. *)
Definition output_files : list string :=
  [ "fact_job_postings.csv"; "agg_country.csv"; "agg_experience.csv";
    "agg_remote.csv"; "agg_top_skills.csv"; "agg_skills_by_country.csv";
    "agg_skills_by_experience.csv"; "agg_skills_gap.csv";
    "agg_skill_categories.csv"; "agg_skill_categories_by_experience.csv";
    "agg_skills_count_dist.csv"; "agg_skills_count_by_experience.csv" ].

(** The columns that the script reads by name, in the order it reads them. *)
Definition required_columns : list string :=
  [ "posted_at_datetime_utc"; "country_name"; "experience_group"; "is_remote" ].

(** [old] occurs nowhere in [s]. *)
Fixpoint no_occurrence (old s : string) : bool :=
  negb (String.prefix old s) &&
  match s with
  | EmptyString => true
  | String _ rest => no_occurrence old rest
  end.

(** [t] is the distribution of [values]: one row per distinct value, with
    the number of its occurrences (at least one) and the share of that
    number in the whole, a percentage above 0 and at most 100. *)
Definition distribution_of {K : Type} (eqb : K -> K -> bool) (values : list K)
  (t : list (dist_row K)) : Prop :=
  NoDup (map dist_key t) /\
  (forall v, In v values -> exists row, In row t /\ dist_key row = v) /\
  (forall row, In row t ->
     In (dist_key row) values /\
     dist_count row = len (filter (eqb (dist_key row)) values) /\
     (1 <= dist_count row <= len values)%Z /\
     (dist_share row ==
      inject_Z (dist_count row) / inject_Z (len values) * 100)%Q /\
     (0 < dist_share row <= 100)%Q).

(** [t] counts the [values]: one row per distinct value, with the number of
    its occurrences (at least one) and, as share, that number over the total
    of the counts of [t], a percentage above 0 and at most 100. *)
Definition distribution_by_count {K : Type} (eqb : K -> K -> bool)
  (values : list K) (t : list (dist_row K)) : Prop :=
  NoDup (map dist_key t) /\
  (forall v, In v values -> exists row, In row t /\ dist_key row = v) /\
  (forall row, In row t ->
     In (dist_key row) values /\
     dist_count row = len (filter (eqb (dist_key row)) values) /\
     (1 <= dist_count row)%Z /\
     (dist_share row ==
      inject_Z (dist_count row) / inject_Z (sum (map dist_count t)) * 100)%Q /\
     (0 < dist_share row <= 100)%Q).

(** The categories for which the loop of the script finds a column, in the
    order of the taxonomy. *)
Definition present_categories (df : DataFrame) : list (string * list string) :=
  filter (fun cs : string * list string =>
            match category_cols df (snd cs) with
            | [] => false
            | _ :: _ => true
            end)
         SKILL_CATEGORIES.

(** The table has the column of the skill [s]. *)
Definition in_table (df : DataFrame) (s : string) : bool :=
  existsb (String.eqb ("skill_" ++ s)) (columns df).

(** The categories of the taxonomy of which the table has a column, read off
    the labels of the table. *)
Definition categories_in_table (df : DataFrame) : list (string * list string) :=
  filter (fun cs : string * list string => existsb (in_table df) (snd cs))
         SKILL_CATEGORIES.

(** The posting asks for one of the [skills], in a column of the table. *)
Definition mentions (df : DataFrame) (skills : list string) (p : Posting) : bool :=
  existsb (fun s => in_table df s && skill_flag p ("skill_" ++ s)) skills.

(** The example table without its [is_remote] column. *)
Definition no_remote_df : DataFrame :=
  {| columns := [ "id"; "title"; "country_name"; "experience_group";
                  "posted_at_datetime_utc"; "skill_sql"; "skill_python" ];
     rows := rows example_df |}.

(** The example table with a third experience group. *)
Definition three_groups_df : DataFrame :=
  {| columns := example_columns;
     rows := rows example_df ++ [ posting "4" "DE" "senior" true true ] |}.

(* ========================================================================= *)
(** * Part III: lemmas and theorems *)
(* ========================================================================= *)

(* ------------------------------------------------------------------------- *)
(** ** Two sorting algorithms that meet the contract *)
(* ------------------------------------------------------------------------- *)

Section InsertionContract.
Variable leb : Q -> Q -> bool.
Hypothesis leb_true : forall a b, leb a b = true -> (a <= b)%Q.
Hypothesis leb_false : forall a b, leb a b = false -> (b <= a)%Q.

Lemma insert_pos_perm ks i s : Permutation (insert_pos leb ks i s) (i :: s).
Proof.
  induction s as [|j s IH]; simpl; [reflexivity|].
  destruct (leb _ _); [reflexivity|].
  rewrite IH. apply perm_swap.
Qed.

Lemma insert_pos_hd ks i s j :
  HdRel (fun a b => (nth a ks 0 <= nth b ks 0)%Q) j s ->
  (nth j ks 0 <= nth i ks 0)%Q ->
  HdRel (fun a b => (nth a ks 0 <= nth b ks 0)%Q) j (insert_pos leb ks i s).
Proof.
  intros Hs Hji. destruct s as [|k s]; simpl.
  - now constructor.
  - destruct (leb _ _); constructor; auto.
    now inversion Hs.
Qed.

Lemma insert_pos_sorted ks i s :
  Sorted (fun a b => (nth a ks 0 <= nth b ks 0)%Q) s ->
  Sorted (fun a b => (nth a ks 0 <= nth b ks 0)%Q) (insert_pos leb ks i s).
Proof.
  induction 1 as [|j s Hs IH Hhd]; simpl.
  - repeat constructor.
  - destruct (leb (nth i ks 0%Q) (nth j ks 0%Q)) eqn:E.
    + constructor; [now constructor|]. constructor. now apply leb_true.
    + constructor; [exact IH|]. apply insert_pos_hd; auto.
Qed.

Lemma insertion_argsort_perm ks :
  Permutation (insertion_argsort leb ks) (seq 0 (length ks)).
Proof.
  unfold insertion_argsort. induction (seq 0 (length ks)) as [|i l IH]; simpl.
  - reflexivity.
  - rewrite insert_pos_perm. now constructor.
Qed.

Lemma insertion_argsort_sorted ks :
  Sorted (fun a b => (nth a ks 0 <= nth b ks 0)%Q) (insertion_argsort leb ks).
Proof.
  unfold insertion_argsort. induction (seq 0 (length ks)) as [|i l IH]; simpl.
  - constructor.
  - now apply insert_pos_sorted.
Qed.
End InsertionContract.

Lemma Qle_bool_true a b : Qle_bool a b = true -> (a <= b)%Q.
Proof. apply Qle_bool_imp_le. Qed.

Lemma Qle_bool_false a b : Qle_bool a b = false -> (b <= a)%Q.
Proof.
intros H. destruct (Qlt_le_dec a b) as [Hlt|Hle]; [|exact Hle].
apply Qlt_le_weak in Hlt. apply Qle_bool_iff in Hlt. congruence.
Qed.

(** The stable insertion sort. *)
Definition insertion_sort : sort_kind :=
SortKind (insertion_argsort Qle_bool)
         (insertion_argsort_perm Qle_bool)
         (insertion_argsort_sorted Qle_bool Qle_bool_true Qle_bool_false).

Lemma keys_in_order_sorted (ks : list Q) (idx : list nat) :
  keys_in_order ks idx = true ->
  Sorted (fun i j => (nth i ks 0 <= nth j ks 0)%Q) idx.
Proof.
  induction idx as [|i rest IH]; [constructor|].
  destruct rest as [|j rest]; [repeat constructor|].
  cbn [keys_in_order]. intros H. apply andb_true_iff in H as [Hij Hrest].
  constructor; [now apply IH|]. constructor. now apply Qle_bool_true.
Qed.

Lemma is_argsort_perm (ks : list Q) (idx : list nat) :
  is_argsort ks idx = true -> Permutation idx (seq 0 (List.length ks)).
Proof.
  unfold is_argsort. intros H.
  apply andb_true_iff in H as [H _]. apply andb_true_iff in H as [Hlen Hall].
  apply Nat.eqb_eq in Hlen. apply Permutation_sym, NoDup_Permutation_bis.
  - apply seq_NoDup.
  - rewrite length_seq. lia.
  - intros i Hi. rewrite forallb_forall in Hall. specialize (Hall i Hi).
    apply existsb_exists in Hall as [j [Hj E]]. apply Nat.eqb_eq in E. now subst.
Qed.

Lemma quicksort_argsort_perm (ks : list Q) :
  Permutation (quicksort_argsort ks) (seq 0 (List.length ks)).
Proof.
  unfold quicksort_argsort. destruct (is_argsort ks (aquicksort ks)) eqn:E.
  - now apply is_argsort_perm.
  - apply insertion_argsort_perm.
Qed.

Lemma quicksort_argsort_sorted (ks : list Q) :
  Sorted (fun i j => (nth i ks 0 <= nth j ks 0)%Q) (quicksort_argsort ks).
Proof.
  unfold quicksort_argsort. destruct (is_argsort ks (aquicksort ks)) eqn:E.
  - apply keys_in_order_sorted. unfold is_argsort in E.
    now apply andb_true_iff in E as [_ E].
  - apply insertion_argsort_sorted;
      [exact Qle_bool_true|exact Qle_bool_false].
Qed.

(** The default algorithm. *)
Definition numpy_quicksort : sort_kind :=
SortKind quicksort_argsort quicksort_argsort_perm quicksort_argsort_sorted.

(* ------------------------------------------------------------------------- *)
(** ** Lists: positions, filters, sortedness *)
(* ------------------------------------------------------------------------- *)

Lemma map_nth_seq {A : Type} (l : list A) (d : A) :
  map (fun j => nth j l d) (seq 0 (List.length l)) = l.
Proof.
  induction l as [|x l IH]; simpl; [reflexivity|].
  f_equal. rewrite <- seq_shift, map_map. exact IH.
Qed.

Lemma filter_map_swap {A B : Type} (p : B -> bool) (f : A -> B) (l : list A) :
  filter p (map f l) = map f (filter (fun x => p (f x)) l).
Proof.
  induction l as [|x l IH]; simpl; [reflexivity|].
  destruct (p (f x)); simpl; now rewrite IH.
Qed.

Lemma filter_all {A : Type} (p : A -> bool) (l : list A) :
  (forall x, In x l -> p x = true) -> filter p l = l.
Proof.
  induction l as [|x l IH]; simpl; intros H; [reflexivity|].
  rewrite (H x) by now left. f_equal. apply IH. intros; apply H; now right.
Qed.

Lemma filter_none {A : Type} (p : A -> bool) (l : list A) :
  (forall x, In x l -> p x = false) -> filter p l = [].
Proof.
  induction l as [|x l IH]; simpl; intros H; [reflexivity|].
  rewrite (H x) by now left. apply IH. intros; apply H; now right.
Qed.

Lemma filter_split_perm {A : Type} (p : A -> bool) (l : list A) :
  Permutation (filter (fun x => negb (p x)) l ++ filter p l) l.
Proof.
  induction l as [|x l IH]; simpl; [reflexivity|].
  destruct (p x); simpl.
  - apply Permutation_sym, Permutation_cons_app, Permutation_sym, IH.
  - now constructor.
Qed.

Lemma StronglySorted_snoc {A : Type} (R : A -> A -> Prop) (l : list A) (a : A) :
  StronglySorted R l -> Forall (fun x => R x a) l -> StronglySorted R (l ++ [a]).
Proof.
  induction 1 as [|x l Hl IH Hx]; simpl; intros Ha.
  - repeat constructor.
  - inversion Ha; subst. constructor; [now apply IH|].
    apply Forall_app; split; [exact Hx|]. now repeat constructor.
Qed.

Lemma StronglySorted_rev {A : Type} (R : A -> A -> Prop) (l : list A) :
  StronglySorted R l -> StronglySorted (fun a b => R b a) (rev l).
Proof.
  induction 1 as [|x l Hl IH Hx]; simpl; [constructor|].
  apply StronglySorted_snoc; [exact IH|].
  apply Forall_rev. exact Hx.
Qed.

Lemma StronglySorted_map_in {A B : Type} (R : A -> A -> Prop) (R' : B -> B -> Prop)
  (f : A -> B) (l : list A) :
  (forall x y, In x l -> In y l -> R x y -> R' (f x) (f y)) ->
  StronglySorted R l -> StronglySorted R' (map f l).
Proof.
  intros Hf Hs. induction Hs as [|x l Hl IH Hx]; simpl; [constructor|].
  constructor.
  - apply IH. intros a b Ha Hb. apply Hf; now right.
  - apply Forall_forall. intros y Hy. apply in_map_iff in Hy as [z [<- Hz]].
    apply Hf; [now left|now right|]. rewrite Forall_forall in Hx. now apply Hx.
Qed.

Lemma StronglySorted_weaken {A : Type} (R R' : A -> A -> Prop) (l : list A) :
  (forall x y, In x l -> In y l -> R x y -> R' x y) ->
  StronglySorted R l -> StronglySorted R' l.
Proof.
  intros H Hs. rewrite <- (map_id l).
  apply (StronglySorted_map_in R R' (fun x => x)); assumption.
Qed.

(** In a strongly sorted list the element at an earlier position is related
    to the one at a later position. *)
Lemma StronglySorted_nth_error {A : Type} (R : A -> A -> Prop) (l : list A) :
  StronglySorted R l ->
  forall i j a b, i < j -> nth_error l i = Some a -> nth_error l j = Some b -> R a b.
Proof.
  induction 1 as [|x l Hl IH Hx]; intros i j a b Hij Hi Hj.
  - destruct i; discriminate.
  - destruct j as [|j]; [lia|]. simpl in Hj. destruct i as [|i]; simpl in Hi.
    + injection Hi as <-. rewrite Forall_forall in Hx. apply Hx.
      eapply nth_error_In; eauto.
    + apply (IH i j); auto. lia.
Qed.

(* ------------------------------------------------------------------------- *)
(** ** The sort: a permutation, in order *)
(* ------------------------------------------------------------------------- *)

Lemma argsort_in_range kind ks i :
  In i (argsort kind ks) -> i < List.length ks.
Proof.
  intros H. apply (Permutation_in _ (argsort_perm kind ks)) in H.
  apply in_seq in H. lia.
Qed.

Lemma argsort_strongly_sorted kind ks :
  StronglySorted (fun i j => (nth i ks 0 <= nth j ks 0)%Q) (argsort kind ks).
Proof.
  apply Sorted_StronglySorted; [|apply argsort_sorted].
  intros a b c Hab Hbc. eapply Qle_trans; eauto.
Qed.

Lemma take_cons {A : Type} (i : nat) (idx : list nat) (l : list A) :
  take (i :: idx) l =
  match nth_error l i with Some x => [x] | None => [] end ++ take idx l.
Proof. reflexivity. Qed.

Lemma take_in {A : Type} (idx : list nat) (l : list A) (y : A) :
  In y (take idx l) <-> exists j, In j idx /\ nth_error l j = Some y.
Proof.
  unfold take. rewrite in_flat_map. split; intros [j [Hj H]]; exists j; split; auto.
  - destruct (nth_error l j); [|contradiction]. destruct H as [->|[]]. reflexivity.
  - rewrite H. now left.
Qed.

Lemma take_seq_from {A : Type} (l p : list A) :
  take (seq (List.length p) (List.length l)) (p ++ l) = l.
Proof.
  revert p. induction l as [|x l IH]; intros p; [reflexivity|].
  cbn [List.length seq].
  rewrite take_cons, nth_error_app2, Nat.sub_diag by lia. simpl. f_equal.
  specialize (IH (p ++ [x])). rewrite length_app, <- app_assoc in IH. simpl in IH.
  rewrite Nat.add_1_r in IH. exact IH.
Qed.

Lemma take_seq {A : Type} (l : list A) : take (seq 0 (List.length l)) l = l.
Proof. exact (take_seq_from l []). Qed.

Lemma take_perm {A : Type} (idx : list nat) (l : list A) :
  Permutation idx (seq 0 (List.length l)) -> Permutation (take idx l) l.
Proof.
  intros H. rewrite <- (take_seq l) at 2. unfold take.
  now apply Permutation_flat_map.
Qed.

Lemma non_nans_length (items : list float) :
  List.length (non_nans items) =
  List.length (filter (fun i => negb (mask items i)) (seq 0 (List.length items))).
Proof.
  induction items as [|x items IH]; [reflexivity|].
  cbn [List.length seq]. rewrite <- seq_shift.
  cbn [filter]. rewrite filter_map_swap.
  change (fun i => negb (mask (x :: items) (S i)))
    with (fun i => negb (mask items i)).
  destruct x as [q|]; cbn [mask nth isna negb non_nans flat_map app List.length];
    fold (non_nans items); rewrite length_map, IH; reflexivity.
Qed.

Lemma index_with_perm (a idx : list nat) :
  Permutation idx (seq 0 (List.length a)) -> Permutation (index_with a idx) a.
Proof.
  intros H. unfold index_with.
  apply Permutation_trans with (map (fun j => nth j a 0) (seq 0 (List.length a))).
  - now apply Permutation_map.
  - now rewrite map_nth_seq.
Qed.

Lemma nargsort_perm kind items ascending :
  Permutation (nargsort kind items ascending) (seq 0 (List.length items)).
Proof.
  unfold nargsort.
  eapply Permutation_trans;
    [|apply (filter_split_perm (mask items) (seq 0 (List.length items)))].
  apply Permutation_app_tail.
  destruct ascending.
  - apply index_with_perm. rewrite <- non_nans_length. apply argsort_perm.
  - eapply Permutation_trans; [apply Permutation_sym, Permutation_rev|].
    eapply Permutation_trans; [|apply Permutation_sym, Permutation_rev].
    apply index_with_perm.
    rewrite length_rev, <- non_nans_length, <- (length_rev (non_nans items)).
    apply argsort_perm.
Qed.

Lemma sort_values_perm {A : Type} kind (by_ : A -> float) ascending (l : list A) :
  Permutation (sort_values kind by_ ascending l) l.
Proof.
  unfold sort_values. apply take_perm.
  rewrite <- (length_map by_ l). apply nargsort_perm.
Qed.

Lemma sort_values_in {A : Type} kind (by_ : A -> float) ascending (l : list A) x :
  In x (sort_values kind by_ ascending l) <-> In x l.
Proof.
  split; apply Permutation_in;
    [|apply Permutation_sym]; apply sort_values_perm.
Qed.

Lemma non_nans_some (ks : list Q) : non_nans (map Some ks) = ks.
Proof. induction ks as [|k ks IH]; simpl; [reflexivity|]. now rewrite IH. Qed.

Lemma mask_some (ks : list Q) (i : nat) :
  i < List.length ks -> mask (map Some ks) i = false.
Proof.
  intros H. unfold mask.
  rewrite (nth_indep _ NaN (Some 0%Q)) by now rewrite length_map.
  now rewrite map_nth.
Qed.

Lemma index_with_seq (n : nat) (idx : list nat) :
  (forall j, In j idx -> j < n) -> index_with (seq 0 n) idx = idx.
Proof.
  intros H. unfold index_with. rewrite <- (map_id idx) at 2.
  apply map_ext_in. intros j Hj. now rewrite seq_nth by auto.
Qed.

Lemma index_with_rev_seq (n : nat) (idx : list nat) :
  (forall j, In j idx -> j < n) ->
  index_with (rev (seq 0 n)) idx = map (fun j => n - S j) idx.
Proof.
  intros H. unfold index_with. apply map_ext_in. intros j Hj.
  rewrite rev_nth by (rewrite length_seq; auto).
  rewrite length_seq, seq_nth by (specialize (H j Hj); lia). reflexivity.
Qed.

(** Without NaN keys [nargsort] is the [argsort] itself, mirrored for a
    descending sort. *)
Lemma nargsort_no_nan kind (ks : list Q) (ascending : bool) :
  nargsort kind (map Some ks) ascending =
  if ascending
  then argsort kind ks
  else rev (map (fun j => List.length ks - S j) (argsort kind (rev ks))).
Proof.
  unfold nargsort. rewrite non_nans_some, length_map.
  rewrite (filter_all (fun i => negb (mask (map Some ks) i))),
          (filter_none (mask (map Some ks))), app_nil_r.
  - destruct ascending.
    + apply index_with_seq. intros j. apply argsort_in_range.
    + f_equal. apply index_with_rev_seq. intros j Hj.
      apply argsort_in_range in Hj. now rewrite length_rev in Hj.
  - intros i Hi. apply in_seq in Hi. apply mask_some. lia.
  - intros i Hi. apply in_seq in Hi. rewrite mask_some by lia. reflexivity.
Qed.

Lemma nth_map_some {A : Type} (k : A -> Q) (l : list A) (i : nat) (x : A) (d : Q) :
  nth_error l i = Some x -> nth i (map k l) d = k x.
Proof.
  revert i. induction l as [|y l IH]; intros [|i] H; try discriminate; simpl in *.
  - now injection H as ->.
  - now apply IH.
Qed.

Lemma take_sorted {A : Type} (R : Q -> Q -> Prop) (k : A -> Q) (idx : list nat)
  (l : list A) :
  StronglySorted (fun i j => R (nth i (map k l) 0%Q) (nth j (map k l) 0%Q)) idx ->
  StronglySorted (fun a b => R (k a) (k b)) (take idx l).
Proof.
  induction 1 as [|i idx Hs IH Hi]; [constructor|].
  rewrite take_cons. destruct (nth_error l i) as [x|] eqn:E; [|exact IH].
  simpl. constructor; [exact IH|].
  apply Forall_forall. intros y Hy. apply take_in in Hy as [j [Hj Ey]].
  rewrite Forall_forall in Hi. specialize (Hi j Hj).
  now rewrite (nth_map_some k l i x), (nth_map_some k l j y) in Hi.
Qed.

Lemma keys_no_nan {A : Type} (by_ : A -> float) (k : A -> Q) (l : list A) :
  (forall x, In x l -> by_ x = Some (k x)) -> map by_ l = map Some (map k l).
Proof. intros H. rewrite map_map. now apply map_ext_in. Qed.

Lemma sort_values_ascending {A : Type} kind (by_ : A -> float) (k : A -> Q)
  (l : list A) :
  (forall x, In x l -> by_ x = Some (k x)) ->
  StronglySorted (fun a b => (k a <= k b)%Q) (sort_values kind by_ true l).
Proof.
  intros H. unfold sort_values.
  rewrite (keys_no_nan by_ k l H), nargsort_no_nan.
  apply (take_sorted Qle). apply argsort_strongly_sorted.
Qed.

Lemma sort_values_descending {A : Type} kind (by_ : A -> float) (k : A -> Q)
  (l : list A) :
  (forall x, In x l -> by_ x = Some (k x)) ->
  StronglySorted (fun a b => (k b <= k a)%Q) (sort_values kind by_ false l).
Proof.
  intros H. unfold sort_values.
  rewrite (keys_no_nan by_ k l H), nargsort_no_nan.
  apply (take_sorted (fun a b => (b <= a)%Q)).
  apply (StronglySorted_rev
           (fun i j => (nth i (map k l) 0 <= nth j (map k l) 0)%Q)).
  eapply StronglySorted_map_in; [|apply argsort_strongly_sorted].
  intros x y Hx Hy Hxy. cbv beta in *.
  apply argsort_in_range in Hx, Hy.
  rewrite !rev_nth in Hxy by now rewrite <- length_rev.
  exact Hxy.
Qed.

(* ------------------------------------------------------------------------- *)
(** ** Distinct values and their counts *)
(* ------------------------------------------------------------------------- *)

Lemma len_nonneg {A : Type} (l : list A) : (0 <= len l)%Z.
Proof. unfold len. lia. Qed.

Lemma len_cons {A : Type} (x : A) (l : list A) : len (x :: l) = (1 + len l)%Z.
Proof. unfold len. simpl List.length. lia. Qed.

Lemma len_pos {A : Type} (l : list A) : l <> [] -> (0 < len l)%Z.
Proof. destruct l; [congruence|]. intros _. rewrite len_cons. pose proof (len_nonneg l). lia. Qed.

Lemma sum_perm (xs ys : list Z) : Permutation xs ys -> sum xs = sum ys.
Proof. induction 1; simpl; lia. Qed.

Section Unique.
Context {A : Type}.
Variable eqb : A -> A -> bool.
Hypothesis eqb_eq : forall x y, eqb x y = true <-> x = y.

Lemma unique_in (l : list A) (x : A) : In x (unique eqb l) <-> In x l.
Proof.
  induction l as [|a l IH]; simpl; [tauto|].
  rewrite filter_In, IH. split.
  - intros [H|[H _]]; auto.
  - intros [H|H]; auto.
    destruct (eqb a x) eqn:E; [left; now apply eqb_eq|right; split; auto].
Qed.

Lemma unique_NoDup (l : list A) : NoDup (unique eqb l).
Proof.
  induction l as [|a l IH]; simpl; constructor.
  - rewrite filter_In. intros [_ H].
    assert (E : eqb a a = true) by now apply eqb_eq. now rewrite E in H.
  - now apply NoDup_filter.
Qed.

(** Counting [x] in a list from which every [a] was removed. *)
Lemma count_of_without (a x : A) (m : list A) :
  count_of eqb x (filter (fun y => negb (eqb a y)) m) =
  if eqb a x then 0%Z else count_of eqb x m.
Proof.
  unfold count_of. induction m as [|y m IH]; simpl.
  - now destruct (eqb a x).
  - destruct (eqb a y) eqn:Ey; simpl.
    + destruct (eqb x y) eqn:Exy.
      * apply eqb_eq in Ey, Exy. subst.
        assert (E : eqb y y = true) by now apply eqb_eq.
        rewrite E in *. exact IH.
      * exact IH.
    + destruct (eqb x y) eqn:Exy; [|exact IH].
      destruct (eqb a x) eqn:Eax.
      * apply eqb_eq in Eax, Exy. subst.
        assert (E : eqb y y = true) by now apply eqb_eq. congruence.
      * now rewrite !len_cons, IH.
Qed.

Lemma sum_counts_without (a : A) (u m : list A) :
  sum (map (fun x => count_of eqb x m) (filter (fun y => negb (eqb a y)) u)) =
  sum (map (fun x => count_of eqb x (filter (fun y => negb (eqb a y)) m)) u).
Proof.
  induction u as [|x u IH]; simpl; [reflexivity|].
  rewrite count_of_without. destruct (eqb a x); simpl; rewrite IH; reflexivity.
Qed.

Lemma len_split (a : A) (p : A -> bool) (m : list A) :
  (len (filter (eqb a) m) + len (filter p (filter (fun y => negb (eqb a y)) m)))%Z =
  len (filter (fun y => eqb a y || p y) m).
Proof.
  induction m as [|y m IH]; [reflexivity|].
  cbn [filter]. destruct (eqb a y); cbn [negb orb filter].
  - rewrite !len_cons. lia.
  - destruct (p y); rewrite ?len_cons; lia.
Qed.

(** The counts of the distinct values of [l], taken in any list [m], add up
    to the number of elements of [m] that occur in [l]. *)
Lemma sum_counts_in (l m : list A) :
  sum (map (fun x => count_of eqb x m) (unique eqb l)) =
  len (filter (fun y => existsb (fun x => eqb x y) l) m).
Proof.
  revert m. induction l as [|a l IH]; intros m; simpl.
  - rewrite filter_none by reflexivity. reflexivity.
  - rewrite sum_counts_without, IH. apply len_split.
Qed.

Lemma sum_counts (l : list A) :
  sum (map (fun x => count_of eqb x l) (unique eqb l)) = len l.
Proof.
  rewrite sum_counts_in, filter_all; [reflexivity|].
  intros y Hy. apply existsb_exists. exists y. split; [exact Hy|now apply eqb_eq].
Qed.

Lemma value_counts_perm kind (l : list A) :
  Permutation (value_counts kind eqb l)
              (map (fun x => (x, count_of eqb x l)) (unique eqb l)).
Proof. apply sort_values_perm. Qed.

Lemma value_counts_sum kind (l : list A) :
  sum (map snd (value_counts kind eqb l)) = len l.
Proof.
  rewrite (sum_perm _ _ (Permutation_map snd (value_counts_perm kind l))).
  rewrite map_map. simpl. apply sum_counts.
Qed.

Lemma value_counts_keys kind (l : list A) :
  Permutation (map fst (value_counts kind eqb l)) (unique eqb l).
Proof.
  rewrite (Permutation_map fst (value_counts_perm kind l)).
  rewrite map_map. simpl. now rewrite map_id.
Qed.

End Unique.

Lemma string_eqb_eq (x y : string) : (x =? y) = true <-> x = y.
Proof. apply String.eqb_eq. Qed.

Lemma bool_eqb_eq (x y : bool) : Bool.eqb x y = true <-> x = y.
Proof. apply Bool.eqb_true_iff. Qed.

Lemma Z_eqb_eq (x y : Z) : (x =? y)%Z = true <-> x = y.
Proof. apply Z.eqb_eq. Qed.

(* ------------------------------------------------------------------------- *)
(** ** Sums of shares *)
(* ------------------------------------------------------------------------- *)

Lemma with_share_counts {K : Type} (counts : list (K * Z)) (total : Z) :
  map dist_count (with_share counts total) = map snd counts.
Proof. unfold with_share. rewrite map_map. reflexivity. Qed.

Lemma with_share_keys {K : Type} (counts : list (K * Z)) (total : Z) :
  map dist_key (with_share counts total) = map fst counts.
Proof. unfold with_share. rewrite map_map. reflexivity. Qed.

Lemma with_share_sum {K : Type} (counts : list (K * Z)) (total : Z) :
  (sumQ (map dist_share (with_share counts total)) ==
   inject_Z (sum (map snd counts)) / inject_Z total * 100)%Q.
Proof.
  unfold with_share. rewrite map_map. simpl.
  induction counts as [|kv counts IH]; simpl.
  - unfold Qdiv. ring.
  - rewrite IH, inject_Z_plus. unfold Qdiv. ring.
Qed.

Lemma with_share_total {K : Type} (counts : list (K * Z)) (total : Z) :
  (0 < total)%Z -> sum (map snd counts) = total ->
  (sumQ (map dist_share (with_share counts total)) == 100)%Q.
Proof.
  intros Hpos Hsum. rewrite with_share_sum, Hsum.
  assert (~ inject_Z total == 0)%Q.
  { intros E. change 0%Q with (inject_Z 0) in E.
    apply (proj1 (inject_Z_injective total 0)) in E. lia. }
  field. assumption.
Qed.

(* ------------------------------------------------------------------------- *)
(** ** Row-count conservation of the fact table *)
(* ------------------------------------------------------------------------- *)

(** C6: the fact table has exactly as many rows as the input; its i-th row
    is the projection of the i-th posting on the selected columns, and the
    selected columns are among the twelve fact columns. *)
Theorem fact_row_count (df : DataFrame) :
  List.length (fact_rows (fact_job_postings df)) = List.length (rows df) /\
  (forall i,
      nth_error (fact_rows (fact_job_postings df)) i =
      option_map (fun r => map (fact_cell df r) (fact_columns (fact_job_postings df)))
                 (nth_error (rows df) i)) /\
  incl (fact_columns (fact_job_postings df)) fact_cols.
Proof.
  unfold fact_job_postings. cbn [fact_rows fact_columns]. repeat split.
  - apply length_map.
  - intros i. apply nth_error_map.
  - apply incl_filter.
Qed.

(** The three postings of [example_df]: two for the US (66.67%), one for
    Germany (33.33%); skill counts 1, 2, 0; sql (2) ranked above python (1). *)
Example end_to_end :
  map (fun r => (dist_key r, dist_count r, Qred (dist_share r)))
      (agg_country insertion_sort example_df) =
    [("US", 2%Z, (200 # 3)%Q); ("DE", 1%Z, (100 # 3)%Q)] /\
  map (skills_count example_df) (rows example_df) = [1%Z; 2%Z; 0%Z] /\
  map (fun r => (top_skill r, top_count r))
      (agg_top_skills insertion_sort example_df) =
    [("sql", 2%Z); ("python", 1%Z)] /\
  List.length (fst (main insertion_sort example_df)) = 12 /\
  snd (main insertion_sort example_df) = Ok tt.
Proof. repeat split; vm_compute; reflexivity. Qed.

(* ------------------------------------------------------------------------- *)
(** ** Share normalization *)
(* ------------------------------------------------------------------------- *)

Lemma n_total_pos (df : DataFrame) : rows df <> [] -> (0 < n_total df)%Z.
Proof. apply len_pos. Qed.

Lemma len_map {A B : Type} (f : A -> B) (l : list A) : len (map f l) = len l.
Proof. unfold len. now rewrite length_map. Qed.

(** The counts of each distribution table add up to the number of
    postings. *)
Lemma distribution_counts_total kind (df : DataFrame) :
  sum (map dist_count (agg_country kind df)) = n_total df /\
  sum (map dist_count (agg_experience kind df)) = n_total df /\
  sum (map dist_count (agg_remote kind df)) = n_total df /\
  sum (map dist_count (agg_skills_count_dist kind df)) = n_total df.
Proof.
  unfold agg_country, agg_experience, agg_remote, agg_skills_count_dist, n_total.
  rewrite !with_share_counts.
  rewrite (value_counts_sum _ string_eqb_eq), (value_counts_sum _ string_eqb_eq),
          (value_counts_sum _ bool_eqb_eq), !len_map.
  repeat split.
  unfold sort_index.
  rewrite (sum_perm _ _ (Permutation_map snd (sort_values_perm kind _ true _))).
  now rewrite (value_counts_sum _ Z_eqb_eq), len_map.
Qed.

(** C1: for a non-empty input the shares of each distribution table
    (country, experience, remote, skills count) add up to 100. *)
Theorem share_normalization kind (df : DataFrame) :
  rows df <> [] ->
  (sumQ (map dist_share (agg_country kind df)) == 100)%Q /\
  (sumQ (map dist_share (agg_experience kind df)) == 100)%Q /\
  (sumQ (map dist_share (agg_remote kind df)) == 100)%Q /\
  (sumQ (map dist_share (agg_skills_count_dist kind df)) == 100)%Q.
Proof.
  intros Hne. pose proof (n_total_pos df Hne) as Hpos. unfold n_total in Hpos.
  unfold agg_country, agg_experience, agg_remote, agg_skills_count_dist.
  repeat split.
  - apply with_share_total; [|reflexivity].
    now rewrite (value_counts_sum _ string_eqb_eq), len_map.
  - apply with_share_total; [|reflexivity].
    now rewrite (value_counts_sum _ string_eqb_eq), len_map.
  - apply with_share_total; [|reflexivity].
    now rewrite (value_counts_sum _ bool_eqb_eq), len_map.
  - apply with_share_total; [exact Hpos|].
    unfold sort_index, n_total.
    rewrite (sum_perm _ _ (Permutation_map snd (sort_values_perm kind _ true _))).
    now rewrite (value_counts_sum _ Z_eqb_eq), len_map.
Qed.

Lemma share_normalization_example :
  (sumQ (map dist_share (agg_country insertion_sort example_df)) == 100)%Q /\
  (sumQ (map dist_share (agg_experience insertion_sort example_df)) == 100)%Q /\
  (sumQ (map dist_share (agg_remote insertion_sort example_df)) == 100)%Q /\
  (sumQ (map dist_share (agg_skills_count_dist insertion_sort example_df)) == 100)%Q.
Proof.
  apply (share_normalization insertion_sort example_df).
  simpl. discriminate.
Defined.

(* ------------------------------------------------------------------------- *)
(** ** Histogram ordering *)
(* ------------------------------------------------------------------------- *)

Lemma StronglySorted_strict {A : Type} (key : A -> Z) (l : list A) :
  StronglySorted (fun a b => (key a <= key b)%Z) l ->
  NoDup (map key l) ->
  StronglySorted (fun a b => (key a < key b)%Z) l.
Proof.
  induction 1 as [|x l Hl IH Hx]; simpl; intros Hnd; [constructor|].
  inversion Hnd as [|? ? Hnotin Hnd']; subst. constructor; [now apply IH|].
  rewrite Forall_forall in *. intros y Hy.
  assert (key x <> key y) by (intros E; apply Hnotin; rewrite E; now apply in_map).
  specialize (Hx y Hy). lia.
Qed.

(** C8: the rows of the skills-count histogram are in non-decreasing order
    of [skills_count]; the values are distinct, so the order is even
    strictly increasing. *)
Theorem histogram_ordering kind (df : DataFrame) :
  StronglySorted (fun a b => (dist_key a <= dist_key b)%Z)
                 (agg_skills_count_dist kind df) /\
  StronglySorted (fun a b => (dist_key a < dist_key b)%Z)
                 (agg_skills_count_dist kind df).
Proof.
  assert (Hle : StronglySorted (fun a b => (dist_key a <= dist_key b)%Z)
                               (agg_skills_count_dist kind df)).
  { unfold agg_skills_count_dist, with_share, sort_index.
    eapply StronglySorted_map_in;
      [|apply (sort_values_ascending kind _ (fun kv => inject_Z (fst kv)));
        reflexivity].
    intros x y _ _ H. cbn [dist_key]. rewrite Zle_Qle. exact H. }
  split; [exact Hle|].
  apply StronglySorted_strict; [exact Hle|].
  unfold agg_skills_count_dist. rewrite with_share_keys. unfold sort_index.
  eapply Permutation_NoDup.
  - apply Permutation_sym. eapply Permutation_trans.
    + apply Permutation_map. apply sort_values_perm.
    + apply value_counts_keys.
  - apply (unique_NoDup _ Z_eqb_eq).
Qed.

(* ------------------------------------------------------------------------- *)
(** ** Groups, cross tables and row-wise application *)
(* ------------------------------------------------------------------------- *)

Lemma insert_label_perm (x : string) (l : list string) :
  Permutation (insert_label x l) (x :: l).
Proof.
  induction l as [|y l IH]; simpl; [reflexivity|].
  destruct (String.leb x y); [reflexivity|].
  rewrite IH. apply perm_swap.
Qed.

Lemma sort_labels_perm (l : list string) : Permutation (sort_labels l) l.
Proof.
  induction l as [|x l IH]; simpl; [reflexivity|].
  rewrite insert_label_perm. now constructor.
Qed.

Lemma group_keys_perm (by_ : Posting -> string) (df : DataFrame) :
  Permutation (group_keys by_ df) (unique String.eqb (map by_ (rows df))).
Proof. apply sort_labels_perm. Qed.

Lemma group_keys_in (by_ : Posting -> string) (df : DataFrame) (g : string) :
  In g (group_keys by_ df) <-> In g (map by_ (rows df)).
Proof.
  rewrite <- (unique_in String.eqb string_eqb_eq (map by_ (rows df)) g).
  split; apply Permutation_in;
    [|apply Permutation_sym]; apply group_keys_perm.
Qed.

Lemma group_keys_NoDup (by_ : Posting -> string) (df : DataFrame) :
  NoDup (group_keys by_ df).
Proof.
  eapply Permutation_NoDup; [apply Permutation_sym, group_keys_perm|].
  apply (unique_NoDup _ string_eqb_eq).
Qed.

(** The number of groups is the number of distinct values. *)
Lemma group_keys_length (by_ : Posting -> string) (df : DataFrame) :
  List.length (group_keys by_ df) =
  List.length (nodup string_dec (map by_ (rows df))).
Proof.
  apply Permutation_length, NoDup_Permutation.
  - apply group_keys_NoDup.
  - apply NoDup_nodup.
  - intros g. now rewrite group_keys_in, nodup_In.
Qed.

(** A group that has a key has at least one row. *)
Lemma group_rows_nonempty (by_ : Posting -> string) (df : DataFrame) (g : string) :
  In g (group_keys by_ df) -> group_rows by_ df g <> [].
Proof.
  rewrite group_keys_in, in_map_iff. intros [r [<- Hr]] E.
  assert (H : In r (group_rows by_ df (by_ r))).
  { apply filter_In. split; [exact Hr|apply String.eqb_refl]. }
  now rewrite E in H.
Qed.

Lemma has_label_in (labels : list string) (c : string) :
  has_label labels c = true <-> In c labels.
Proof.
  unfold has_label. rewrite existsb_exists. split.
  - intros [x [Hx E]]. apply String.eqb_eq in E. now subst.
  - intros H. exists c. split; [exact H|apply String.eqb_refl].
Qed.

Lemma dict_get_map {V : Type} (f : string -> V) (keys : list string) (k : string) :
  In k keys -> dict_get (map (fun g => (g, f g)) keys) k = Some (f k).
Proof.
  induction keys as [|g keys IH]; simpl; [contradiction|].
  destruct (g =? k) eqn:E.
  - apply String.eqb_eq in E. now subst.
  - intros [->|H]; [now rewrite String.eqb_refl in E|now apply IH].
Qed.

Lemma apply_rows_ok {A B : Type} (f : A -> result B) (g : A -> B) (l : list A) :
  (forall x, In x l -> f x = Ok (g x)) -> apply_rows f l = Ok (map g l).
Proof.
  induction l as [|x l IH]; simpl; intros H; [reflexivity|].
  rewrite (H x) by now left. simpl. rewrite IH; [reflexivity|].
  intros y Hy. apply H. now right.
Qed.

Lemma melt_length {V : Type} (t : crosstab V) :
  List.length (melt t) = List.length (ct_index t) * List.length (ct_columns t).
Proof.
  unfold melt. induction (ct_columns t) as [|g gs IH]; simpl; [lia|].
  rewrite length_app, length_map, IH. lia.
Qed.

Lemma melt_in {V : Type} (t : crosstab V) (r : long_row V) :
  In r (melt t) <->
  exists s g, In s (ct_index t) /\ In g (ct_columns t) /\
              r = {| long_skill_name := s; long_var := g;
                     long_value := ct_value t s g |}.
Proof.
  unfold melt. rewrite in_flat_map. split.
  - intros [g [Hg Hr]]. apply in_map_iff in Hr as [s [<- Hs]].
    exists s, g. auto.
  - intros [s [g [Hs [Hg ->]]]]. exists g. split; [exact Hg|].
    apply in_map_iff. exists s. auto.
Qed.

(* ------------------------------------------------------------------------- *)
(** ** The skill x country table *)
(* ------------------------------------------------------------------------- *)

Lemma skills_by_country_long_in (df : DataFrame) (r : long_row Z) :
  In r (skills_by_country_long df) <->
  exists c g, In c (skill_cols df) /\ In g (map country_name (rows df)) /\
              r = {| long_skill_name := c; long_var := g;
                     long_value := sum (flags c (group_rows country_name df g)) |}.
Proof.
  unfold skills_by_country_long. rewrite melt_in. cbn.
  split; intros [c [g [Hc [Hg ->]]]]; exists c, g; repeat split; auto;
    now apply group_keys_in.
Qed.

Lemma country_totals_get (df : DataFrame) (g : string) :
  In g (map country_name (rows df)) ->
  getitem (country_totals df) g = Ok (len (group_rows country_name df g)).
Proof.
  intros H. unfold getitem, country_totals.
  rewrite (dict_get_map (fun g => len (group_rows country_name df g)));
    [reflexivity|now apply group_keys_in].
Qed.

(** The long table has a row as soon as there is a skill column and a
    posting. *)
Lemma skills_by_country_long_nonempty (df : DataFrame) :
  skill_cols df <> [] -> rows df <> [] -> skills_by_country_long df <> [].
Proof.
  intros Hc Hr E.
  destruct (skill_cols df) as [|c cs] eqn:Ec; [congruence|].
  destruct (rows df) as [|r rs] eqn:Er; [congruence|].
  assert (H : In {| long_skill_name := c; long_var := country_name r;
                    long_value := sum (flags c (group_rows country_name df
                                                  (country_name r))) |}
                 (skills_by_country_long df)).
  { apply skills_by_country_long_in. exists c, (country_name r).
    rewrite Ec, Er. repeat split; now left. }
  now rewrite E in H.
Qed.

(** With a positive divisor the quotient is a number. *)
Lemma truediv_pos (a b : Z) :
  (0 < b)%Z -> times_100 (truediv a b) = Finite (inject_Z a / inject_Z b * 100).
Proof.
  intros H. unfold truediv. destruct (Z.eqb_spec b 0); [lia|reflexivity].
Qed.

(** With a zero divisor it is not. *)
Lemma truediv_zero (a : Z) (q : Q) : times_100 (truediv a 0) <> Finite q.
Proof. unfold truediv. cbn. now destruct (a =? 0)%Z. Qed.

(** The row-wise function never raises on the long table: the only failure
    is the one of a table without rows. *)
Lemma agg_skills_by_country_cases (df : DataFrame) :
  (skills_by_country_long df = [] /\
   exists msg, agg_skills_by_country df = Raise (ValueError msg)) \/
  (skills_by_country_long df <> [] /\
   agg_skills_by_country df =
   Ok (map (country_row df) (skills_by_country_long df))).
Proof.
  unfold agg_skills_by_country.
  destruct (skills_by_country_long df) as [|r0 long] eqn:El.
  - left. eauto.
  - right. split; [discriminate|]. rewrite <- El. apply apply_rows_ok.
    intros r Hr. apply skills_by_country_long_in in Hr as [c [g [Hc [Hg ->]]]].
    unfold country_share, country_row. cbn [long_var long_value long_skill_name].
    rewrite (country_totals_get df g Hg). cbn [bind_result].
    destruct (len (group_rows country_name df g) >? 0)%Z eqn:E; [|reflexivity].
    apply Z.gtb_lt in E. now rewrite truediv_pos.
Qed.

Lemma agg_skills_by_country_ok (df : DataFrame) :
  skill_cols df <> [] -> rows df <> [] ->
  agg_skills_by_country df =
  Ok (map (country_row df) (skills_by_country_long df)).
Proof.
  intros Hc Hr. destruct (agg_skills_by_country_cases df) as [[E _]|[_ H]].
  - now apply skills_by_country_long_nonempty in E.
  - exact H.
Qed.

Lemma agg_skills_by_country_inv (df : DataFrame) (t : list skill_country_row) :
  agg_skills_by_country df = Ok t ->
  t = map (country_row df) (skills_by_country_long df).
Proof.
  intros H. destruct (agg_skills_by_country_cases df) as [[_ [msg E]]|[_ E]];
    congruence.
Qed.

(** Whenever the step returns a table, it has one row per pair of a skill
    column and a distinct country (number of skill columns times number of
    distinct countries), and every such pair has its row, whatever its
    count.  It returns one as soon as there is a skill column and a
    posting. *)
Lemma crosstab_completeness (df : DataFrame) :
  (skill_cols df <> [] -> rows df <> [] ->
   exists t, agg_skills_by_country df = Ok t) /\
  (forall t,
     agg_skills_by_country df = Ok t ->
     List.length t =
       List.length (skill_cols df) *
       List.length (nodup string_dec (map country_name (rows df))) /\
     forall c g,
       In c (skill_cols df) -> In g (map country_name (rows df)) ->
       exists r, In r t /\ sc_skill_name r = c /\ sc_country_name r = g /\
                 sc_count r = sum (flags c (group_rows country_name df g))).
Proof.
  split.
  - intros Hc Hr. eexists. now apply agg_skills_by_country_ok.
  - intros t Ht. apply agg_skills_by_country_inv in Ht. subst t. split.
    + rewrite length_map. unfold skills_by_country_long. rewrite melt_length.
      cbn. now rewrite group_keys_length.
    + intros c g Hc Hg.
      exists (country_row df
                {| long_skill_name := c; long_var := g;
                   long_value := sum (flags c (group_rows country_name df g)) |}).
      split; [|now cbn].
      apply in_map, skills_by_country_long_in. exists c, g. auto.
Qed.

Example crosstab_completeness_example :
  exists t,
    agg_skills_by_country example_df = Ok t /\
    List.length t = 4 /\
    exists r, In r t /\ sc_skill_name r = "skill_python" /\
              sc_country_name r = "DE" /\ sc_count r = 0%Z.
Proof.
  destruct (crosstab_completeness example_df) as [Hex Hall].
  destruct Hex as [t Ht]; [discriminate|discriminate|].
  destruct (Hall t Ht) as [Hlen Hpairs].
  exists t. split; [exact Ht|]. split; [exact Hlen|].
  apply (Hpairs "skill_python" "DE").
  - right. left. reflexivity.
  - right. right. left. reflexivity.
Qed.

(** C3: the claim does not hold for every input.  On a table with its two
    skill columns and no posting the product of skill columns and distinct
    countries is 0, but no table of 0 rows is written: the row-wise [apply]
    on the empty long table makes the assignment of [share] raise, the
    run stops after the five files before, and [agg_skills_by_country.csv]
    is missing.  The steps around it write their empty tables on the same
    input, also step 7, which pivots and melts in the same way.  A table
    with postings and no skill column fails likewise. *)
Theorem crosstab_raises_without_rows :
  skill_cols empty_df = ["skill_sql"; "skill_python"] /\
  nodup string_dec (map country_name (rows empty_df)) = [] /\
  agg_skills_by_country empty_df =
    Raise (ValueError
      "Cannot set a DataFrame with multiple columns to the single column share") /\
  map csv_name (fst (main insertion_sort empty_df)) =
    [ "fact_job_postings.csv"; "agg_country.csv"; "agg_experience.csv";
      "agg_remote.csv"; "agg_top_skills.csv" ] /\
  snd (main insertion_sort empty_df) =
    Raise (ValueError
      "Cannot set a DataFrame with multiple columns to the single column share") /\
  agg_country insertion_sort empty_df = [] /\
  agg_skills_by_experience empty_df = [] /\
  rows no_skill_df <> [] /\
  agg_skills_by_country no_skill_df =
    Raise (ValueError
      "Cannot set a DataFrame with multiple columns to the single column share").
Proof.
  repeat split; try reflexivity. discriminate.
Qed.

(** C7: the row function looks up the total of the row's country and returns
    the count over that total times 100 when the total is positive, and 0
    when it is zero, where the bare quotient would be an infinity or NaN; it
    raises no error.  On a table with a skill column and a posting the table
    is produced, and for every pair of a skill column and a country of the
    data it holds a row with the count of the pair and, as share, the count
    over the number of postings of the country, times 100.  The step fails
    only on an input without a skill column or without a posting, and then
    not with a division error. *)
Theorem zero_division_guard :
  (forall totals (r : long_row Z) total,
      dict_get totals (long_var r) = Some total ->
      country_share totals r =
      Ok (Finite (if (total >? 0)%Z
                  then inject_Z (long_value r) / inject_Z total * 100
                  else 0))) /\
  (forall totals (r : long_row Z) q,
      dict_get totals (long_var r) = Some 0%Z ->
      country_share totals r = Ok (Finite 0) /\
      times_100 (truediv (long_value r) 0) <> Finite q) /\
  (forall df,
      skill_cols df <> [] -> rows df <> [] ->
      exists t,
        agg_skills_by_country df = Ok t /\
        forall c g,
          In c (skill_cols df) -> In g (map country_name (rows df)) ->
          (0 < len (group_rows country_name df g))%Z /\
          exists row,
            In row t /\ sc_skill_name row = c /\ sc_country_name row = g /\
            sc_count row = sum (flags c (group_rows country_name df g)) /\
            sc_share row =
              Finite (inject_Z (sum (flags c (group_rows country_name df g))) /
                      inject_Z (len (group_rows country_name df g)) * 100)) /\
  (forall df e,
      agg_skills_by_country df = Raise e ->
      (skill_cols df = [] \/ rows df = []) /\ exists msg, e = ValueError msg).
Proof.
  split; [|split; [|split]].
  - intros totals r total H. unfold country_share, getitem. rewrite H. cbn.
    destruct (total >? 0)%Z eqn:E; [|reflexivity].
    apply Z.gtb_lt in E. now rewrite truediv_pos.
  - intros totals r q H. split; [|apply truediv_zero].
    unfold country_share, getitem. now rewrite H.
  - intros df Hc Hr. eexists. split; [now apply agg_skills_by_country_ok|].
    intros c g Hcol Hg.
    assert (Hpos : (0 < len (group_rows country_name df g))%Z).
    { apply len_pos, group_rows_nonempty. now apply group_keys_in. }
    split; [exact Hpos|].
    exists (country_row df
              {| long_skill_name := c; long_var := g;
                 long_value := sum (flags c (group_rows country_name df g)) |}).
    split; [apply in_map, skills_by_country_long_in; exists c, g; auto|].
    unfold country_row. cbn [sc_skill_name sc_country_name sc_count sc_share
                              long_skill_name long_var long_value].
    apply Z.gtb_lt in Hpos. rewrite Hpos. repeat split; reflexivity.
  - intros df e H.
    destruct (agg_skills_by_country_cases df) as [[El [msg E]]|[_ E]];
      [|congruence].
    split; [|exists msg; congruence].
    destruct (skill_cols df) as [|c cs] eqn:Ec; [now left|].
    destruct (rows df) as [|p ps] eqn:Ep; [now right|].
    exfalso.
    apply (skills_by_country_long_nonempty df);
      [rewrite Ec; discriminate|rewrite Ep; discriminate|exact El].
Qed.

(** A country listed with a total of zero: the share of a row with count 3
    is 0, where 3 / 0 is an infinity.  In the example table Python is asked
    for in one of the two US postings. *)
Lemma zero_division_guard_example :
  country_share [("Atlantis", 0%Z)]
    {| long_skill_name := "skill_sql"; long_var := "Atlantis"; long_value := 3%Z |}
  = Ok (Finite 0) /\
  truediv 3 0 = Infinity false /\
  exists t,
    agg_skills_by_country example_df = Ok t /\
    exists row,
      In row t /\ sc_skill_name row = "skill_python" /\
      sc_country_name row = "US" /\ sc_count row = 1%Z /\
      sc_share row = Finite (inject_Z 1 / inject_Z 2 * 100).
Proof.
  destruct zero_division_guard as [_ [Hzero [Htable _]]].
  split; [|split; [reflexivity|]].
  - exact (proj1 (Hzero [("Atlantis", 0%Z)]
                    {| long_skill_name := "skill_sql"; long_var := "Atlantis";
                       long_value := 3%Z |} 0%Q eq_refl)).
  - destruct (Htable example_df) as [t [Ht Hpairs]]; [discriminate|discriminate|].
    exists t. split; [exact Ht|].
    destruct (Hpairs "skill_python" "US") as [_ [row Hrow]].
    + right. left. reflexivity.
    + left. reflexivity.
    + exists row. exact Hrow.
Defined.

(* ------------------------------------------------------------------------- *)
(** ** The gap table *)
(* ------------------------------------------------------------------------- *)

Lemma mean_some (xs : list Z) :
  xs <> [] -> mean xs = Some (inject_Z (sum xs) / inject_Z (len xs))%Q.
Proof. destruct xs; [congruence|reflexivity]. Qed.

Lemma flags_nonempty (c : string) (rs : list Posting) : rs <> [] -> flags c rs <> [].
Proof. destruct rs; [congruence|discriminate]. Qed.

Lemma group_share_some (df : DataFrame) (g c : string) :
  In g (map experience_group (rows df)) -> exists q, group_share df g c = Some q.
Proof.
  intros H. unfold group_share.
  rewrite mean_some; [simpl; eauto|].
  apply flags_nonempty, group_rows_nonempty. now apply group_keys_in.
Qed.

Lemma skills_by_exp_getitem (df : DataFrame) (g : string) :
  ct_getitem (skills_by_exp df) g =
  if has_label (group_keys experience_group df) g
  then Ok (fun c => group_share df g c)
  else Raise (KeyError g).
Proof. reflexivity. Qed.

Lemma has_group (df : DataFrame) (g : string) :
  has_label (group_keys experience_group df) g = true <->
  In g (map experience_group (rows df)).
Proof. now rewrite has_label_in, group_keys_in. Qed.

Lemma has_no_group (df : DataFrame) (g : string) :
  has_label (group_keys experience_group df) g = false <->
  ~ In g (map experience_group (rows df)).
Proof. rewrite <- has_group. now destruct (has_label _ g). Qed.

(** With both groups in the data the gap table is the sorted list of the
    per-skill rows. *)
Lemma agg_skills_gap_ok kind (df : DataFrame) :
  In "junior" (map experience_group (rows df)) ->
  In "mid_plus" (map experience_group (rows df)) ->
  agg_skills_gap kind df =
  Ok (sort_values kind (fun r => fabs (gap r)) false
        (gap_unsorted (skills_by_exp df)
           (group_share df "mid_plus") (group_share df "junior"))).
Proof.
  intros Hj Hm. unfold agg_skills_gap.
  rewrite !skills_by_exp_getitem.
  apply has_group in Hj, Hm. now rewrite Hj, Hm.
Qed.

(** What a row of the gap table holds. *)
Lemma gap_unsorted_row (df : DataFrame) (r : gap_row) :
  In "junior" (map experience_group (rows df)) ->
  In "mid_plus" (map experience_group (rows df)) ->
  In r (gap_unsorted (skills_by_exp df)
          (group_share df "mid_plus") (group_share df "junior")) ->
  In (gap_skill_name r) (skill_cols df) /\
  junior_share r = group_share df "junior" (gap_skill_name r) /\
  mid_plus_share r = group_share df "mid_plus" (gap_skill_name r) /\
  exists j m, junior_share r = Some j /\ mid_plus_share r = Some m /\
              gap r = Some (m - j)%Q.
Proof.
  intros Hj Hm Hr. unfold gap_unsorted in Hr.
  apply in_map_iff in Hr as [c [<- Hc]]. cbn in *.
  repeat split; auto.
  destruct (group_share_some df "junior" c Hj) as [j Ej].
  destruct (group_share_some df "mid_plus" c Hm) as [m Em].
  exists j, m. now rewrite Ej, Em.
Qed.

(** C4: with both experience groups in the data the gap table is produced,
    has one row per skill column, every gap is [mid_plus_share - junior_share]
    of the shares computed within the two groups, and the rows are sorted by
    the absolute value of the gap, largest first, whatever its sign: a row
    whose gap is larger in absolute value stands above.  So a row with
    shares 10 and 40 has gap 30 and stands above a row with shares 50 and
    55. *)
Theorem gap_sign_and_order kind (df : DataFrame) :
  In "junior" (map experience_group (rows df)) ->
  In "mid_plus" (map experience_group (rows df)) ->
  exists t,
    agg_skills_gap kind df = Ok t /\
    Permutation (map gap_skill_name t) (skill_cols df) /\
    (forall r, In r t ->
       junior_share r = group_share df "junior" (gap_skill_name r) /\
       mid_plus_share r = group_share df "mid_plus" (gap_skill_name r) /\
       exists j m, junior_share r = Some j /\ mid_plus_share r = Some m /\
                   gap r = Some (m - j)%Q) /\
    StronglySorted
      (fun a b => exists ga gb,
         gap a = Some ga /\ gap b = Some gb /\ (Qabs gb <= Qabs ga)%Q) t /\
    (forall i1 i2 r1 r2 g1 g2,
       nth_error t i1 = Some r1 -> nth_error t i2 = Some r2 ->
       gap r1 = Some g1 -> gap r2 = Some g2 ->
       (Qabs g2 < Qabs g1)%Q -> i1 < i2) /\
    (forall i1 i2 r1 r2 j1 m1 j2 m2,
       nth_error t i1 = Some r1 -> nth_error t i2 = Some r2 ->
       junior_share r1 = Some j1 -> mid_plus_share r1 = Some m1 ->
       (j1 == 10)%Q -> (m1 == 40)%Q ->
       junior_share r2 = Some j2 -> mid_plus_share r2 = Some m2 ->
       (j2 == 50)%Q -> (m2 == 55)%Q ->
       (exists g, gap r1 = Some g /\ (g == 30)%Q) /\ i1 < i2).
Proof.
  intros Hj Hm.
  set (u := gap_unsorted (skills_by_exp df)
              (group_share df "mid_plus") (group_share df "junior")).
  set (t := sort_values kind (fun r => fabs (gap r)) false u).
  assert (Hrow : forall r, In r t ->
            junior_share r = group_share df "junior" (gap_skill_name r) /\
            mid_plus_share r = group_share df "mid_plus" (gap_skill_name r) /\
            exists j m, junior_share r = Some j /\ mid_plus_share r = Some m /\
                        gap r = Some (m - j)%Q).
  { intros r Hr. apply sort_values_in in Hr.
    now apply (gap_unsorted_row df r Hj Hm) in Hr. }
  assert (Hsorted : StronglySorted
                      (fun a b => exists ga gb,
                         gap a = Some ga /\ gap b = Some gb /\
                         (Qabs gb <= Qabs ga)%Q) t).
  { apply StronglySorted_weaken with (R := fun a b => (abs_gap b <= abs_gap a)%Q).
    - intros a b Ha Hb. unfold abs_gap.
      destruct (Hrow a Ha) as [_ [_ [ja [ma [_ [_ Ga]]]]]].
      destruct (Hrow b Hb) as [_ [_ [jb [mb [_ [_ Gb]]]]]].
      rewrite Ga, Gb. intros H. eauto.
    - apply sort_values_descending. intros r Hr. unfold abs_gap.
      destruct (gap_unsorted_row df r Hj Hm Hr) as [_ [_ [_ [j [m [_ [_ ->]]]]]]].
      reflexivity. }
  assert (Hstrict : forall i1 i2 r1 r2 g1 g2,
            nth_error t i1 = Some r1 -> nth_error t i2 = Some r2 ->
            gap r1 = Some g1 -> gap r2 = Some g2 ->
            (Qabs g2 < Qabs g1)%Q -> i1 < i2).
  { intros i1 i2 r1 r2 g1 g2 E1 E2 G1 G2 Hlt.
    destruct (Nat.lt_trichotomy i1 i2) as [H|[Heq|Hgt]]; [exact H| |]; exfalso.
    - subst i2. assert (r1 = r2) by congruence. subst r2.
      assert (g1 = g2) by congruence. subst g2. revert Hlt. apply Qlt_irrefl.
    - pose proof (StronglySorted_nth_error _ _ Hsorted i2 i1 r2 r1 Hgt E2 E1)
        as [ga [gb [Ga [Gb H]]]].
      assert (ga = g2) by congruence. assert (gb = g1) by congruence. subst.
      revert Hlt. now apply Qle_not_lt. }
  exists t. split; [now apply agg_skills_gap_ok|]. split; [|split; [exact Hrow|]].
  { eapply Permutation_trans; [apply Permutation_map, sort_values_perm|].
    unfold u, gap_unsorted. rewrite map_map. cbn. now rewrite map_id. }
  split; [exact Hsorted|]. split; [exact Hstrict|].
  intros i1 i2 r1 r2 j1 m1 j2 m2 E1 E2 Ej1 Em1 Qj1 Qm1 Ej2 Em2 Qj2 Qm2.
  destruct (Hrow r1 (nth_error_In _ _ E1)) as [_ [_ [a1 [b1 [Ea1 [Eb1 G1]]]]]].
  destruct (Hrow r2 (nth_error_In _ _ E2)) as [_ [_ [a2 [b2 [Ea2 [Eb2 G2]]]]]].
  assert (a1 = j1) by congruence. assert (b1 = m1) by congruence.
  assert (a2 = j2) by congruence. assert (b2 = m2) by congruence. subst.
  assert (Q1 : (m1 - j1 == 30)%Q) by lra.
  assert (Q2 : (m2 - j2 == 5)%Q) by lra.
  split; [exists (m1 - j1)%Q; now split|].
  apply (Hstrict i1 i2 r1 r2 _ _ E1 E2 G1 G2).
  rewrite Q1, Q2. reflexivity.
Qed.

(** In [gap_mixed_df] SQL falls from 50 to 10 (gap -40) and Python rises from
    10 to 40 (gap 30): the falling skill stands first, its gap being the
    larger one in absolute value. *)
Lemma gap_sign_and_order_example :
  In "junior" (map experience_group (rows gap_mixed_df)) /\
  In "mid_plus" (map experience_group (rows gap_mixed_df)) /\
  exists t,
    agg_skills_gap insertion_sort gap_mixed_df = Ok t /\
    Permutation (map gap_skill_name t) (skill_cols gap_mixed_df) /\
    (forall r, In r t -> gap_skill_name r = "skill_sql" ->
       exists g, gap r = Some g /\ (g == -40)%Q) /\
    (forall r, In r t -> gap_skill_name r = "skill_python" ->
       exists g, gap r = Some g /\ (g == 30)%Q) /\
    (forall i1 i2 r1 r2,
       nth_error t i1 = Some r1 -> nth_error t i2 = Some r2 ->
       gap_skill_name r1 = "skill_sql" -> gap_skill_name r2 = "skill_python" ->
       i1 < i2).
Proof.
  assert (Hj : In "junior" (map experience_group (rows gap_mixed_df))).
  { apply has_label_in. vm_compute. reflexivity. }
  assert (Hm : In "mid_plus" (map experience_group (rows gap_mixed_df))).
  { apply has_label_in. vm_compute. reflexivity. }
  split; [exact Hj|]. split; [exact Hm|].
  destruct (gap_sign_and_order insertion_sort gap_mixed_df Hj Hm)
    as [t [Ht [Hperm [Hrow [_ [Hstrict _]]]]]].
  assert (Hsql : forall r, In r t -> gap_skill_name r = "skill_sql" ->
            exists g, gap r = Some g /\ (g == -40)%Q).
  { intros r Hr N. destruct (Hrow r Hr) as [J [M [j [m [Ej [Em G]]]]]].
    rewrite N in J, M. rewrite J in Ej. rewrite M in Em.
    vm_compute in Ej. vm_compute in Em.
    injection Ej as <-. injection Em as <-.
    eexists. split; [exact G|]. vm_compute. reflexivity. }
  assert (Hpy : forall r, In r t -> gap_skill_name r = "skill_python" ->
            exists g, gap r = Some g /\ (g == 30)%Q).
  { intros r Hr N. destruct (Hrow r Hr) as [J [M [j [m [Ej [Em G]]]]]].
    rewrite N in J, M. rewrite J in Ej. rewrite M in Em.
    vm_compute in Ej. vm_compute in Em.
    injection Ej as <-. injection Em as <-.
    eexists. split; [exact G|]. vm_compute. reflexivity. }
  exists t. split; [exact Ht|]. split; [exact Hperm|].
  split; [exact Hsql|]. split; [exact Hpy|].
  intros i1 i2 r1 r2 E1 E2 N1 N2.
  destruct (Hsql r1 (nth_error_In _ _ E1) N1) as [g1 [G1 Q1]].
  destruct (Hpy r2 (nth_error_In _ _ E2) N2) as [g2 [G2 Q2]].
  apply (Hstrict i1 i2 r1 r2 g1 g2 E1 E2 G1 G2).
  rewrite Q1, Q2. reflexivity.
Defined.

(** The gap table of [gap_mixed_df], as computed. *)
Example gap_mixed_table :
  match agg_skills_gap insertion_sort gap_mixed_df with
  | Ok t =>
      map (fun r => (gap_skill_name r,
                     option_map Qred (junior_share r),
                     option_map Qred (mid_plus_share r),
                     option_map Qred (gap r))) t
  | Raise _ => []
  end =
  [ ("skill_sql", Some 50%Q, Some 10%Q, Some (-40)%Q);
    ("skill_python", Some 10%Q, Some 40%Q, Some 30%Q) ].
Proof. vm_compute. reflexivity. Qed.

(** The gap table of [gap_example_df]: python (10 -> 40, gap 30) stands
    above sql (50 -> 55, gap 5). *)
Example gap_example_table :
  match agg_skills_gap insertion_sort gap_example_df with
  | Ok t =>
      map (fun r => (gap_skill_name r,
                     option_map Qred (junior_share r),
                     option_map Qred (mid_plus_share r),
                     option_map Qred (gap r))) t
  | Raise _ => []
  end =
  [ ("skill_python", Some 10%Q, Some 40%Q, Some 30%Q);
    ("skill_sql", Some 50%Q, Some 55%Q, Some 5%Q) ].
Proof. vm_compute. reflexivity. Qed.

(* ------------------------------------------------------------------------- *)
(** ** The run: what is written before and after the gap step *)
(* ------------------------------------------------------------------------- *)

Lemma main_gap_failure kind (df : DataFrame) (e : pyerr) :
  agg_skills_gap kind df = Raise e ->
  (forall t, ~ In (agg_skills_gap_csv t) (fst (main kind df))) /\
  exists e', snd (main kind df) = Raise e'.
Proof.
  intros H. cbv [main main_steps bind lift to_csv]. rewrite H.
  destruct (agg_skills_by_country df) as [by_country|e0];
    repeat match goal with
           | |- context [require ?d ?c] => destruct (require d c)
           end;
    cbn [fst snd app In]; (split; [intros t Ht; intuition discriminate|eauto]).
Qed.

Lemma main_writes_categories kind (df : DataFrame) (t : list category_row) :
  In (agg_skill_categories_csv t) (fst (main kind df)) ->
  t = agg_skill_categories kind df /\ exists g, agg_skills_gap kind df = Ok g.
Proof.
  cbv [main main_steps bind lift to_csv].
  destruct (agg_skills_by_country df) as [by_country|e0],
           (agg_skills_gap kind df) as [g|e];
    repeat match goal with
           | |- context [require ?d ?c] => destruct (require d c)
           end;
    cbn [fst snd app In]; intros Ht;
    repeat match goal with
           | H : _ \/ _ |- _ => destruct H as [H|H]
           | H : False |- _ => destruct H
           | H : _ = agg_skill_categories_csv _ |- _ =>
               first [discriminate H|injection H as <-]
           end; eauto.
Qed.

(** A table with the four required columns, a skill column and both
    experience groups is processed to the end: twelve files, no error. *)
Lemma main_completes kind (df : DataFrame) :
  In "posted_at_datetime_utc" (columns df) -> In "country_name" (columns df) ->
  In "experience_group" (columns df) -> In "is_remote" (columns df) ->
  skill_cols df <> [] ->
  In "junior" (map experience_group (rows df)) ->
  In "mid_plus" (map experience_group (rows df)) ->
  snd (main kind df) = Ok tt /\ List.length (fst (main kind df)) = 12.
Proof.
  intros H1 H2 H3 H4 Hc Hj Hm. cbv [main main_steps bind lift to_csv require].
  apply has_label_in in H1, H2, H3, H4. rewrite H1, H2, H3, H4.
  rewrite agg_skills_by_country_ok, (agg_skills_gap_ok kind df Hj Hm).
  - split; reflexivity.
  - exact Hc.
  - intros E. now rewrite E in Hj.
Qed.

Lemma agg_skills_gap_missing kind (df : DataFrame) :
  (~ In "mid_plus" (map experience_group (rows df)) ->
   agg_skills_gap kind df = Raise (KeyError "mid_plus")) /\
  (In "mid_plus" (map experience_group (rows df)) ->
   ~ In "junior" (map experience_group (rows df)) ->
   agg_skills_gap kind df = Raise (KeyError "junior")).
Proof.
  unfold agg_skills_gap. rewrite !skills_by_exp_getitem. split.
  - intros H. apply has_no_group in H. now rewrite H.
  - intros Hm Hj. apply has_group in Hm. apply has_no_group in Hj.
    now rewrite Hm, Hj.
Qed.

(** C9: when the experience column lacks [junior] or [mid_plus], the gap
    computation raises a key error for a missing group column; the run ends
    with an error, and no gap table is written. *)
Theorem gap_requires_both_groups kind (df : DataFrame) :
  ~ (In "junior" (map experience_group (rows df)) /\
     In "mid_plus" (map experience_group (rows df))) ->
  exists col,
    (col = "mid_plus" \/ col = "junior") /\
    ~ In col (map experience_group (rows df)) /\
    agg_skills_gap kind df = Raise (KeyError col) /\
    (forall t, ~ In (agg_skills_gap_csv t) (fst (main kind df))) /\
    exists e, snd (main kind df) = Raise e.
Proof.
  intros H. destruct (agg_skills_gap_missing kind df) as [Hmid Hjun].
  destruct (in_dec string_dec "mid_plus" (map experience_group (rows df)))
    as [Hm|Hm].
  - assert (Hj : ~ In "junior" (map experience_group (rows df))) by tauto.
    exists "junior". pose proof (Hjun Hm Hj) as E.
    destruct (main_gap_failure kind df _ E). auto 6.
  - exists "mid_plus". pose proof (Hmid Hm) as E.
    destruct (main_gap_failure kind df _ E). auto 6.
Qed.

Lemma gap_requires_both_groups_example :
  exists col,
    (col = "mid_plus" \/ col = "junior") /\
    ~ In col (map experience_group (rows senior_df)) /\
    agg_skills_gap insertion_sort senior_df = Raise (KeyError col) /\
    (forall t, ~ In (agg_skills_gap_csv t) (fst (main insertion_sort senior_df))) /\
    exists e, snd (main insertion_sort senior_df) = Raise e.
Proof.
  apply (gap_requires_both_groups insertion_sort senior_df).
  simpl. intros [_ [H|[H|[]]]]; discriminate H.
Defined.

(* ------------------------------------------------------------------------- *)
(** ** Skill categories *)
(* ------------------------------------------------------------------------- *)

Lemma max_b2z (a b : bool) : Z.max (b2z a) (b2z b) = b2z (a || b).
Proof. now destruct a, b. Qed.

Lemma fold_max_b2z (bs : list bool) (acc : bool) :
  fold_left Z.max (map b2z bs) (b2z acc) = b2z (acc || existsb (fun b => b) bs).
Proof.
  revert acc. induction bs as [|b bs IH]; intros acc; simpl.
  - now rewrite orb_false_r.
  - now rewrite max_b2z, IH, orb_assoc.
Qed.

(** The row maximum of 0/1 flags is their disjunction. *)
Lemma row_max_or (r : Posting) (cols : list string) :
  row_max (map (fun c => b2z (skill_flag r c)) cols) =
  b2z (existsb (skill_flag r) cols).
Proof.
  destruct cols as [|c cols]; [reflexivity|]. cbn [map row_max existsb].
  rewrite <- (map_map (skill_flag r) b2z), fold_max_b2z.
  f_equal. f_equal. induction cols as [|d cols IH]; simpl; [reflexivity|].
  now rewrite IH.
Qed.

Lemma mentioned_or (cols : list string) (rs : list Posting) :
  mentioned cols rs = map (fun r => b2z (existsb (skill_flag r) cols)) rs.
Proof. unfold mentioned. apply map_ext. intros r. apply row_max_or. Qed.

Lemma sum_b2z_bounds {A : Type} (p : A -> bool) (l : list A) :
  (0 <= sum (map (fun x => b2z (p x)) l) <= len l)%Z.
Proof.
  induction l as [|x l IH]; [cbn; lia|].
  rewrite len_cons. cbn [map sum fold_right]. fold (sum (map (fun x => b2z (p x)) l)).
  destruct (p x); cbn [b2z]; lia.
Qed.

Lemma category_share_entries (df : DataFrame) :
  category_share df =
  category_entries df
    (fun cols => fmul (mean (mentioned cols (rows df))) (of_int 100))
    SKILL_CATEGORIES.
Proof. reflexivity. Qed.

Lemma category_count_entries (df : DataFrame) :
  category_count df =
  category_entries df (fun cols => sum (mentioned cols (rows df))) SKILL_CATEGORIES.
Proof. reflexivity. Qed.

Lemma category_entries_in {V : Type} (df : DataFrame) (f : list string -> V)
  (cats : list (string * list string)) (cat : string) (v : V) :
  In (cat, v) (category_entries df f cats) <->
  exists skills, In (cat, skills) cats /\ category_cols df skills <> [] /\
                 v = f (category_cols df skills).
Proof.
  unfold category_entries. rewrite in_flat_map. split.
  - intros [[c skills] [Hin H]]. cbn [fst snd] in H.
    destruct (category_cols df skills) as [|x cols] eqn:E; [contradiction|].
    destruct H as [H|[]]. injection H as <- <-.
    exists skills. rewrite E. repeat split; auto. discriminate.
  - intros [skills [Hin [Hne ->]]]. exists (cat, skills). split; [exact Hin|].
    cbn [fst snd]. destruct (category_cols df skills); [congruence|now left].
Qed.

Lemma category_entries_get {V : Type} (df : DataFrame) (f : list string -> V)
  (cats : list (string * list string)) (cat : string) (skills : list string) :
  NoDup (map fst cats) -> In (cat, skills) cats ->
  category_cols df skills <> [] ->
  dict_get (category_entries df f cats) cat = Some (f (category_cols df skills)).
Proof.
  induction cats as [|[c0 s0] cats IH]; [contradiction|].
  cbn [map fst]. intros Hnd Hin Hne. inversion Hnd as [|? ? Hnotin Hnd']; subst.
  unfold category_entries. cbn [flat_map fst snd].
  fold (category_entries df f cats).
  destruct Hin as [Heq|Hin].
  - injection Heq as -> ->.
    destruct (category_cols df skills) as [|x cols]; [congruence|].
    cbn. now rewrite String.eqb_refl.
  - assert (Hc : (c0 =? cat) = false).
    { apply String.eqb_neq. intros ->. apply Hnotin.
      change cat with (fst (cat, skills)). now apply in_map. }
    destruct (category_cols df s0) as [|x cols].
    + cbn [app]. now apply IH.
    + cbn. rewrite Hc. now apply IH.
Qed.

Lemma SKILL_CATEGORIES_NoDup : NoDup (map fst SKILL_CATEGORIES).
Proof.
  cbn. repeat constructor; cbn; intros H;
    repeat match goal with
           | H : _ \/ _ |- _ => destruct H as [H|H]
           | H : False |- _ => destruct H
           | H : _ = _ |- _ => discriminate H
           end.
Qed.

(** The rows of the category table: one per category with a column in the
    table, holding the number of postings that mention it. *)
Lemma agg_skill_categories_row kind (df : DataFrame) (row : category_row) :
  In row (agg_skill_categories kind df) <->
  exists skills,
    In (skill_category row, skills) SKILL_CATEGORIES /\
    category_cols df skills <> [] /\
    category_row_share row =
      fmul (mean (mentioned (category_cols df skills) (rows df))) (of_int 100) /\
    category_row_count row =
      Some (sum (mentioned (category_cols df skills) (rows df))).
Proof.
  unfold agg_skill_categories. rewrite in_map_iff. split.
  - intros [[cat share] [<- Hin]]. cbn [fst snd skill_category
      category_row_share category_row_count].
    apply sort_values_in in Hin. rewrite category_share_entries in Hin.
    apply category_entries_in in Hin as [skills [Hin [Hne ->]]].
    exists skills. repeat split; auto.
    rewrite category_count_entries.
    now apply (category_entries_get df
                 (fun cols => sum (mentioned cols (rows df))));
      [apply SKILL_CATEGORIES_NoDup| |].
  - intros [skills [Hin [Hne [Hshare Hcount]]]].
    exists (skill_category row, category_row_share row). split.
    + destruct row as [cat share count].
      cbn [fst snd skill_category category_row_share category_row_count] in *.
      f_equal. rewrite Hcount.
      rewrite category_count_entries.
      now apply (category_entries_get df
                 (fun cols => sum (mentioned cols (rows df))));
      [apply SKILL_CATEGORIES_NoDup| |].
    + apply sort_values_in. rewrite category_share_entries.
      apply category_entries_in. exists skills. auto.
Qed.

(** C2: for a category with at least one of its columns in the table, a
    posting adds 1 to the category's count when one of these flags is
    true and 0 otherwise, however many are true: the row maximum is the
    disjunction, the category has a row, and its count is the sum of these
    contributions over the postings. *)
Theorem category_or_semantics kind (df : DataFrame) (cat : string)
  (skills : list string) :
  In (cat, skills) SKILL_CATEGORIES ->
  category_cols df skills <> [] ->
  (forall r : Posting,
      row_max (map (fun c => b2z (skill_flag r c)) (category_cols df skills)) =
      if existsb (skill_flag r) (category_cols df skills) then 1%Z else 0%Z) /\
  (exists row, In row (agg_skill_categories kind df) /\ skill_category row = cat) /\
  (forall row,
      In row (agg_skill_categories kind df) -> skill_category row = cat ->
      category_row_count row =
      Some (sum (map (fun r => if existsb (skill_flag r) (category_cols df skills)
                               then 1%Z else 0%Z)
                     (rows df)))).
Proof.
  intros Hin Hne. split; [intros r; apply row_max_or|]. split.
  - exists {| skill_category := cat;
              category_row_share :=
                fmul (mean (mentioned (category_cols df skills) (rows df)))
                     (of_int 100);
              category_row_count :=
                Some (sum (mentioned (category_cols df skills) (rows df))) |}.
    split; [|reflexivity]. apply agg_skill_categories_row. exists skills. auto.
  - intros row Hrow <-. apply agg_skill_categories_row in Hrow
      as [skills' [Hin' [_ [_ ->]]]].
    assert (skills' = skills) as ->.
    { pose proof SKILL_CATEGORIES_NoDup as Hnd. revert Hin Hin' Hnd.
      generalize SKILL_CATEGORIES as cats.
      induction cats as [|[c s] cats IH]; [contradiction|].
      cbn [map fst]. intros H1 H2 Hnd.
      inversion Hnd as [|? ? Hnotin Hnd']; subst.
      destruct H1 as [H1|H1], H2 as [H2|H2].
      - congruence.
      - injection H1 as -> ->. exfalso. apply Hnotin.
        change (skill_category row) with (fst (skill_category row, skills')).
        now apply in_map.
      - injection H2 as -> ->. exfalso. apply Hnotin.
        change (skill_category row) with (fst (skill_category row, skills)).
        now apply in_map.
      - now apply IH. }
    now rewrite mentioned_or.
Qed.

Lemma category_or_semantics_example :
  In ("Programming", ["sql"; "python"; "r"]) SKILL_CATEGORIES /\
  category_cols example_df ["sql"; "python"; "r"] <> [] /\
  (exists row, In row (agg_skill_categories insertion_sort example_df) /\
               skill_category row = "Programming") /\
  (forall row,
      In row (agg_skill_categories insertion_sort example_df) ->
      skill_category row = "Programming" ->
      category_row_count row = Some 2%Z).
Proof.
  assert (Hin : In ("Programming", ["sql"; "python"; "r"]) SKILL_CATEGORIES)
    by (left; reflexivity).
  assert (Hne : category_cols example_df ["sql"; "python"; "r"] <> [])
    by (vm_compute; discriminate).
  split; [exact Hin|]. split; [exact Hne|].
  destruct (category_or_semantics insertion_sort example_df _ _ Hin Hne)
    as [_ [Hex Hcount]].
  split; [exact Hex|]. intros row Hrow Hcat. now rewrite (Hcount row Hrow Hcat).
Defined.

Lemma agg_skills_gap_nonempty kind (df : DataFrame) (g : list gap_row) :
  agg_skills_gap kind df = Ok g -> rows df <> [].
Proof.
  intros H E. destruct (agg_skills_gap_missing kind df) as [Hmid _].
  rewrite Hmid in H; [discriminate|]. now rewrite E.
Qed.

Lemma share_of_count_bounds (c n : Z) :
  (0 <= c <= n)%Z -> (0 < n)%Z ->
  (0 <= inject_Z c / inject_Z n * 100 <= 100)%Q.
Proof.
  intros [Hc Hcn] Hn.
  rewrite Zle_Qle in Hc, Hcn. rewrite Zlt_Qlt in Hn.
  change (inject_Z 0) with 0%Q in *.
  assert (H0 : (0 <= inject_Z c / inject_Z n)%Q).
  { apply Qle_shift_div_l; [exact Hn|]. lra. }
  assert (H1 : (inject_Z c / inject_Z n <= 1)%Q).
  { apply Qle_shift_div_r; [exact Hn|]. lra. }
  lra.
Qed.

(** On a non-empty table every row of the category table has a count
    between 0 and the number of postings and the share that goes with it. *)
Lemma agg_skill_categories_bounds kind (df : DataFrame) (row : category_row) :
  rows df <> [] ->
  In row (agg_skill_categories kind df) ->
  exists c s,
    category_row_count row = Some c /\
    (0 <= c <= n_total df)%Z /\
    category_row_share row = Some s /\
    (s == inject_Z c / inject_Z (n_total df) * 100)%Q /\
    (0 <= s <= 100)%Q.
Proof.
  intros Hne Hrow.
  apply agg_skill_categories_row in Hrow as [skills [_ [_ [Hshare Hcount]]]].
  rewrite mentioned_or in Hshare, Hcount.
  set (m := map (fun r => b2z (existsb (skill_flag r) (category_cols df skills)))
                (rows df)) in *.
  assert (Hb : (0 <= sum m <= n_total df)%Z) by apply sum_b2z_bounds.
  assert (Hn : (0 < n_total df)%Z) by now apply n_total_pos.
  assert (Hm : mean m = Some (inject_Z (sum m) / inject_Z (n_total df))%Q).
  { rewrite mean_some.
    - unfold m. now rewrite len_map.
    - unfold m. destruct (rows df); [congruence|discriminate]. }
  exists (sum m), (inject_Z (sum m) / inject_Z (n_total df) * inject_Z 100)%Q.
  split; [exact Hcount|]. split; [exact Hb|].
  split; [now rewrite Hshare, Hm|].
  change (inject_Z 100) with 100%Q.
  split; [reflexivity|]. now apply share_of_count_bounds.
Qed.

(** On an empty table the shares of the category table would be NaN, but
    the run raises long before it reaches the category table. *)
Example empty_table_categories :
  map category_row_share (agg_skill_categories insertion_sort empty_df) = [NaN] /\
  agg_skills_gap insertion_sort empty_df = Raise (KeyError "mid_plus") /\
  fst (main insertion_sort empty_df) =
    [ fact_job_postings_csv (fact_job_postings empty_df);
      agg_country_csv [];
      agg_experience_csv [];
      agg_remote_csv [];
      agg_top_skills_csv (agg_top_skills insertion_sort empty_df) ] /\
  exists msg, snd (main insertion_sort empty_df) = Raise (ValueError msg).
Proof.
  split; [vm_compute; reflexivity|]. split; [vm_compute; reflexivity|].
  split; [vm_compute; reflexivity|]. eexists. vm_compute. reflexivity.
Qed.

(** C10: in the category table that a run writes, every row has a count
    between 0 and the number of postings, and a share that is this count
    over the number of postings times 100, between 0 and 100.  (The category
    step is reached only after the gap step, hence on a non-empty table.) *)
Theorem category_bounds kind (df : DataFrame) (t : list category_row)
  (row : category_row) :
  In (agg_skill_categories_csv t) (fst (main kind df)) ->
  In row t ->
  exists c s,
    category_row_count row = Some c /\
    (0 <= c <= n_total df)%Z /\
    category_row_share row = Some s /\
    (s == inject_Z c / inject_Z (n_total df) * 100)%Q /\
    (0 <= s <= 100)%Q.
Proof.
  intros Ht Hrow. apply main_writes_categories in Ht as [-> [g Hg]].
  apply agg_skills_gap_nonempty in Hg.
  exact (agg_skill_categories_bounds kind df row Hg Hrow).
Qed.

Lemma category_bounds_example :
  In (agg_skill_categories_csv (agg_skill_categories insertion_sort example_df))
     (fst (main insertion_sort example_df)) /\
  In {| skill_category := "Programming";
        category_row_share := Some (200 # 3)%Q;
        category_row_count := Some 2%Z |}
     (agg_skill_categories insertion_sort example_df) /\
  exists c s,
    Some 2%Z = Some c /\
    (0 <= c <= n_total example_df)%Z /\
    Some (200 # 3)%Q = Some s /\
    (s == inject_Z c / inject_Z (n_total example_df) * 100)%Q /\
    (0 <= s <= 100)%Q.
Proof.
  assert (H1 : In (agg_skill_categories_csv
                     (agg_skill_categories insertion_sort example_df))
                  (fst (main insertion_sort example_df))).
  { vm_compute. do 8 right. left. reflexivity. }
  assert (H2 : In {| skill_category := "Programming";
                     category_row_share := Some (200 # 3)%Q;
                     category_row_count := Some 2%Z |}
                  (agg_skill_categories insertion_sort example_df)).
  { vm_compute. left. reflexivity. }
  split; [exact H1|]. split; [exact H2|].
  exact (category_bounds insertion_sort example_df _ _ H1 H2).
Defined.

(* ------------------------------------------------------------------------- *)
(** ** Ties under a stable sort *)
(* ------------------------------------------------------------------------- *)











(* ------------------------------------------------------------------------- *)
(** ** The ranking of skills *)
(* ------------------------------------------------------------------------- *)





(** On the two tied columns of [ties_df] the quicksort is an insertion sort
    and leaves them in column order. *)
Example quicksort_on_two_ties :
  map (fun r => (top_skill_name r, top_count r))
      (agg_top_skills numpy_quicksort ties_df) =
  [("skill_sql", 1%Z); ("skill_python", 1%Z)].
Proof. vm_compute. reflexivity. Qed.

(** On the eighteen tied columns of [wide_df] the quicksort returns its own
    result, and it is not the column order: the reversed keys are
    partitioned once, which swaps positions that the insertion sorts of the
    two parts do not move back. *)
Example quicksort_on_ties :
  let ks := map (fun c => inject_Z (sum (flags c (rows wide_df)))) (skill_cols wide_df) in
  List.length ks = 18 /\
  argsort numpy_quicksort (rev ks) = aquicksort (rev ks) /\
  aquicksort (rev ks) =
    [0; 15; 14; 13; 12; 11; 10; 9; 8; 7; 6; 5; 4; 3; 2; 1; 16; 17] /\
  nargsort numpy_quicksort (map Some ks) false =
    [0; 1; 16; 15; 14; 13; 12; 11; 10; 9; 8; 7; 6; 5; 4; 3; 2; 17].
Proof. vm_compute. repeat split. Qed.



(* ========================================================================= *)
(** * Part IV: further properties of the script *)
(* ========================================================================= *)

(* ------------------------------------------------------------------------- *)
(** ** The run as a whole *)
(* ------------------------------------------------------------------------- *)

Ltac split_run :=
  cbv [main main_steps bind lift to_csv];
  repeat match goal with
         | |- context [require ?d ?c] =>
             let E := fresh "Hreq" in destruct (require d c) eqn:E
         end.

Lemma require_ok (df : DataFrame) (c : string) (u : unit) :
  require df c = Ok u -> In c (columns df).
Proof.
  unfold require. destruct (has_label (columns df) c) eqn:E; [|discriminate].
  intros _. now apply has_label_in.
Qed.

Lemma require_raise (df : DataFrame) (c : string) (e : pyerr) :
  require df c = Raise e -> ~ In c (columns df) /\ e = KeyError c.
Proof.
  unfold require. destruct (has_label (columns df) c) eqn:E; [discriminate|].
  intros H. injection H as <-. split; [|reflexivity].
  intros Hin. apply has_label_in in Hin. congruence.
Qed.

Lemma require_in (df : DataFrame) (c : string) :
  In c (columns df) -> require df c = Ok tt.
Proof. intros H. unfold require. apply has_label_in in H. now rewrite H. Qed.

Lemma require_not_in (df : DataFrame) (c : string) :
  ~ In c (columns df) -> require df c = Raise (KeyError c).
Proof.
  intros H. unfold require. destruct (has_label (columns df) c) eqn:E;
    [|reflexivity]. apply has_label_in in E. contradiction.
Qed.

(** X1: whatever the input, the files written are the first files of the
    script's list, in its order, and the run returns without an error exactly
    when all twelve are written: nothing is written out of order or after
    an error. *)
Theorem run_writes_in_order kind (df : DataFrame) :
  exists n,
    n <= 12 /\
    map csv_name (fst (main kind df)) = firstn n output_files /\
    (snd (main kind df) = Ok tt <-> n = 12).
Proof.
  split_run;
    destruct (agg_skills_by_country df) as [by_country|e0];
    destruct (agg_skills_gap kind df) as [g|e1];
    cbn [fst snd app map csv_name];
    repeat match goal with u : unit |- _ => destruct u end;
    first [ exists 12; repeat split; (reflexivity || lia || discriminate)
          | exists 7; repeat split; (reflexivity || lia || discriminate)
          | exists 5; repeat split; (reflexivity || lia || discriminate)
          | exists 3; repeat split; (reflexivity || lia || discriminate)
          | exists 2; repeat split; (reflexivity || lia || discriminate)
          | exists 1; repeat split; (reflexivity || lia || discriminate)
          | exists 0; repeat split; (reflexivity || lia || discriminate) ].
Qed.

Lemma skills_by_country_long_no_skill (df : DataFrame) :
  skill_cols df = [] -> skills_by_country_long df = [].
Proof.
  intros E. unfold skills_by_country_long, melt. cbn. rewrite E.
  induction (group_keys country_name df) as [|g gs IH]; [reflexivity|exact IH].
Qed.

Lemma agg_skills_gap_both kind (df : DataFrame) (g : list gap_row) :
  agg_skills_gap kind df = Ok g ->
  In "junior" (map experience_group (rows df)) /\
  In "mid_plus" (map experience_group (rows df)).
Proof.
  intros H. destruct (agg_skills_gap_missing kind df) as [Hmid Hjun].
  destruct (in_dec string_dec "mid_plus" (map experience_group (rows df)))
    as [Hm|Hm]; [|rewrite (Hmid Hm) in H; discriminate].
  destruct (in_dec string_dec "junior" (map experience_group (rows df)))
    as [Hj|Hj]; [|rewrite (Hjun Hm Hj) in H; discriminate].
  now split.
Qed.

(** X2: a run that returns without an error has read a table with the four
    columns the script reads by name, at least one skill column, and
    postings of both experience groups, and it has written all twelve files.
    (The conditions are necessary, not sufficient: the timestamps are taken
    as parsed, and a run can still fail on a value that does not parse.) *)
Theorem run_completes_only_if kind (df : DataFrame) :
  snd (main kind df) = Ok tt ->
  Forall (fun c => In c (columns df)) required_columns /\
  skill_cols df <> [] /\
  In "junior" (map experience_group (rows df)) /\
  In "mid_plus" (map experience_group (rows df)) /\
  map csv_name (fst (main kind df)) = output_files.
Proof.
  split_run;
    destruct (agg_skills_by_country df) as [by_country|e0] eqn:Ec;
    destruct (agg_skills_gap kind df) as [g|e1] eqn:Eg;
    cbn [fst snd]; intros H; try discriminate H.
  apply require_ok in Hreq, Hreq0, Hreq1, Hreq2.
  split; [repeat constructor; assumption|]. split; [|split; [|split]].
  - intros E. apply skills_by_country_long_no_skill in E.
    destruct (agg_skills_by_country_cases df) as [[_ [msg E']]|[Hne _]];
      congruence.
  - now apply agg_skills_gap_both in Eg.
  - now apply agg_skills_gap_both in Eg.
  - reflexivity.
Qed.

Lemma run_completes_only_if_example :
  snd (main insertion_sort gap_example_df) = Ok tt /\
  skill_cols gap_example_df <> [] /\
  map csv_name (fst (main insertion_sort gap_example_df)) = output_files.
Proof.
  assert (H : snd (main insertion_sort gap_example_df) = Ok tt)
    by (vm_compute; reflexivity).
  split; [exact H|].
  destruct (run_completes_only_if insertion_sort gap_example_df H)
    as [_ [Hc [_ [_ Hf]]]].
  split; assumption.
Defined.

(** X3: a missing column that the script reads by name ends the run with
    a key error for the first such column, after the files written before
    that column is read: none, one, two or three. *)
Theorem missing_column_is_fatal kind (df : DataFrame) :
  (~ In "posted_at_datetime_utc" (columns df) ->
   main kind df = ([], Raise (KeyError "posted_at_datetime_utc"))) /\
  (In "posted_at_datetime_utc" (columns df) ->
   ~ In "country_name" (columns df) ->
   main kind df =
   ([fact_job_postings_csv (fact_job_postings df)],
    Raise (KeyError "country_name"))) /\
  (In "posted_at_datetime_utc" (columns df) ->
   In "country_name" (columns df) ->
   ~ In "experience_group" (columns df) ->
   main kind df =
   ([fact_job_postings_csv (fact_job_postings df);
     agg_country_csv (agg_country kind df)],
    Raise (KeyError "experience_group"))) /\
  (In "posted_at_datetime_utc" (columns df) ->
   In "country_name" (columns df) ->
   In "experience_group" (columns df) ->
   ~ In "is_remote" (columns df) ->
   main kind df =
   ([fact_job_postings_csv (fact_job_postings df);
     agg_country_csv (agg_country kind df);
     agg_experience_csv (agg_experience kind df)],
    Raise (KeyError "is_remote"))).
Proof.
  repeat split; intros; cbv [main main_steps bind lift to_csv];
    rewrite ?require_in by assumption;
    rewrite require_not_in by assumption; reflexivity.
Qed.

Lemma missing_column_is_fatal_example :
  main insertion_sort no_remote_df =
  ([fact_job_postings_csv (fact_job_postings no_remote_df);
    agg_country_csv (agg_country insertion_sort no_remote_df);
    agg_experience_csv (agg_experience insertion_sort no_remote_df)],
   Raise (KeyError "is_remote")).
Proof.
  apply (proj2 (proj2 (proj2 (missing_column_is_fatal insertion_sort no_remote_df)))).
  - apply has_label_in. reflexivity.
  - apply has_label_in. reflexivity.
  - apply has_label_in. reflexivity.
  - intros H. apply has_label_in in H. discriminate H.
Defined.

(* ------------------------------------------------------------------------- *)
(** ** Skill columns and the skills count *)
(* ------------------------------------------------------------------------- *)

Lemma sum_b2z_filter {A : Type} (p : A -> bool) (l : list A) :
  sum (map (fun x => b2z (p x)) l) = len (filter p l).
Proof.
  induction l as [|x l IH]; [reflexivity|].
  cbn [map sum fold_right filter]. fold (sum (map (fun x => b2z (p x)) l)).
  destruct (p x); rewrite ?len_cons, IH; cbn [b2z]; lia.
Qed.

Lemma skills_count_bounds (df : DataFrame) (r : Posting) :
  (0 <= skills_count df r <= len (skill_cols df))%Z.
Proof. unfold skills_count. apply sum_b2z_bounds. Qed.


(* ------------------------------------------------------------------------- *)
(** ** The rows of the distribution tables *)
(* ------------------------------------------------------------------------- *)

Lemma share_of_count_pos (c n : Z) :
  (1 <= c)%Z -> (0 < n)%Z -> (0 < inject_Z c / inject_Z n * 100)%Q.
Proof.
  intros Hc Hn. assert (Hc' : (0 < c)%Z) by lia.
  rewrite Zlt_Qlt in Hc', Hn. change (inject_Z 0) with 0%Q in *.
  apply Qmult_lt_0_compat; [|reflexivity].
  apply Qlt_shift_div_l; [exact Hn|]. lra.
Qed.

Lemma len_filter_le {A : Type} (p : A -> bool) (l : list A) :
  (len (filter p l) <= len l)%Z.
Proof. unfold len. pose proof (filter_length_le p l). lia. Qed.

Section DistributionRows.
Context {K : Type}.
Variable eqb : K -> K -> bool.
Hypothesis eqb_eq : forall x y, eqb x y = true <-> x = y.

Lemma count_of_positive (l : list K) (x : K) :
  In x l -> (1 <= count_of eqb x l)%Z.
Proof.
  intros H. unfold count_of.
  assert (Hx : In x (filter (eqb x) l))
    by (apply filter_In; split; [exact H|now apply eqb_eq]).
  destruct (filter (eqb x) l); [contradiction|].
  rewrite len_cons. pose proof (len_nonneg l0). lia.
Qed.

(** Any reordering of the counted distinct values, with shares taken over
    the number of values, is the distribution of the values. *)
Lemma with_share_distribution (values : list K) (counts : list (K * Z)) :
  Permutation counts
              (map (fun x => (x, count_of eqb x values)) (unique eqb values)) ->
  distribution_of eqb values (with_share counts (len values)).
Proof.
  intros Hp.
  assert (Hin : forall kv, In kv counts <->
                           In (fst kv) values /\ snd kv = count_of eqb (fst kv) values).
  { intros [k c]. cbn [fst snd]. split.
    - intros H. apply (Permutation_in _ Hp) in H.
      apply in_map_iff in H as [x [E Hx]]. injection E as <- <-.
      split; [exact (proj1 (unique_in eqb eqb_eq values x) Hx)|reflexivity].
    - intros [Hk ->]. apply (Permutation_in _ (Permutation_sym Hp)).
      apply in_map_iff. exists k. split; [reflexivity|].
      exact (proj2 (unique_in eqb eqb_eq values k) Hk). }
  unfold distribution_of. split; [|split].
  - rewrite with_share_keys. eapply Permutation_NoDup.
    + apply Permutation_sym. eapply Permutation_trans;
        [apply Permutation_map, Hp|]. rewrite map_map. cbn. rewrite map_id.
      apply Permutation_refl.
    + apply (unique_NoDup eqb eqb_eq).
  - intros v Hv.
    exists {| dist_key := v; dist_count := count_of eqb v values;
              dist_share := (inject_Z (count_of eqb v values) /
                             inject_Z (len values) * 100)%Q |}.
    split; [|reflexivity]. unfold with_share. apply in_map_iff.
    exists (v, count_of eqb v values). split; [reflexivity|].
    apply Hin. now split.
  - intros row Hrow. unfold with_share in Hrow.
    apply in_map_iff in Hrow as [kv [<- Hkv]]. apply Hin in Hkv as [Hk Hc].
    cbn [dist_key dist_count dist_share]. rewrite Hc.
    pose proof (count_of_positive values (fst kv) Hk) as Hpos.
    assert (Hle : (count_of eqb (fst kv) values <= len values)%Z)
      by apply len_filter_le.
    assert (Hn : (0 < len values)%Z) by lia.
    split; [exact Hk|]. split; [reflexivity|]. split; [lia|].
    split; [reflexivity|]. split.
    + now apply share_of_count_pos.
    + apply share_of_count_bounds; lia.
Qed.
(** What [value_counts] and the share column make of a column. *)
Lemma value_counts_distribution kind (values : list K) :
  distribution_by_count eqb values
    (with_share (value_counts kind eqb values)
                (sum (map snd (value_counts kind eqb values)))).
Proof.
  pose proof (with_share_distribution values (value_counts kind eqb values)
                (value_counts_perm eqb kind values)) as [H1 [H2 H3]].
  rewrite (value_counts_sum eqb eqb_eq).
  split; [exact H1|]. split; [exact H2|].
  intros row Hrow. destruct (H3 row Hrow) as [Ha [Hb [Hc [Hd He]]]].
  rewrite with_share_counts, (value_counts_sum eqb eqb_eq).
  repeat split; try tauto; lia.
Qed.
End DistributionRows.

(** X5: the country, experience and remote tables hold one row per distinct
    value of their column; the count of a row is the number of postings
    with that value, at least 1; its share is that count over the total of
    the counts of the table, times 100, above 0 and at most 100; and the
    rows are in descending order of count. *)
Theorem distribution_tables kind (df : DataFrame) :
  (distribution_by_count String.eqb (map country_name (rows df))
                         (agg_country kind df) /\
   StronglySorted (fun a b => (dist_count b <= dist_count a)%Z)
                  (agg_country kind df)) /\
  (distribution_by_count String.eqb (map experience_group (rows df))
                         (agg_experience kind df) /\
   StronglySorted (fun a b => (dist_count b <= dist_count a)%Z)
                  (agg_experience kind df)) /\
  (distribution_by_count Bool.eqb (map is_remote (rows df)) (agg_remote kind df) /\
   StronglySorted (fun a b => (dist_count b <= dist_count a)%Z)
                  (agg_remote kind df)).
Proof.
  assert (Hsorted : forall (K : Type) (eqb : K -> K -> bool) (l : list K),
             StronglySorted (fun a b => (dist_count b <= dist_count a)%Z)
               (with_share (value_counts kind eqb l)
                           (sum (map snd (value_counts kind eqb l))))).
  { intros K eqb l. unfold with_share, value_counts.
    eapply StronglySorted_map_in;
      [|apply (sort_values_descending kind _ (fun kv => inject_Z (snd kv)));
        reflexivity].
    intros x y _ _ H. cbn [dist_count]. rewrite Zle_Qle. exact H. }
  unfold agg_country, agg_experience, agg_remote.
  split; [|split]; (split; [|apply Hsorted]).
  - apply (value_counts_distribution _ string_eqb_eq).
  - apply (value_counts_distribution _ string_eqb_eq).
  - apply (value_counts_distribution _ bool_eqb_eq).
Qed.

(** X6: the histogram table is the distribution of the skills counts of the
    postings, and every value in it lies between 0 and the number of skill
    columns: a value that no posting has gets no row. *)
Theorem histogram_buckets kind (df : DataFrame) :
  distribution_of Z.eqb (map (skills_count df) (rows df))
                  (agg_skills_count_dist kind df) /\
  (forall row, In row (agg_skills_count_dist kind df) ->
               (0 <= dist_key row <= len (skill_cols df))%Z).
Proof.
  assert (H : distribution_of Z.eqb (map (skills_count df) (rows df))
                              (agg_skills_count_dist kind df)).
  { unfold agg_skills_count_dist, n_total. rewrite <- (len_map (skills_count df)).
    apply (with_share_distribution _ Z_eqb_eq). unfold sort_index.
    eapply Permutation_trans; [apply sort_values_perm|apply value_counts_perm]. }
  split; [exact H|]. intros row Hrow.
  destruct H as [_ [_ H]]. destruct (H row Hrow) as [Hin _].
  apply in_map_iff in Hin as [r [<- _]]. apply skills_count_bounds.
Qed.

(* ------------------------------------------------------------------------- *)
(** ** Percentages of postings *)
(* ------------------------------------------------------------------------- *)

(** The mean of a 0/1 column times 100 is the percentage of its ones. *)
Lemma percent_some {A : Type} (p : A -> bool) (l : list A) :
  l <> [] ->
  exists s,
    fmul (mean (map (fun x => b2z (p x)) l)) (of_int 100) = Some s /\
    (s == inject_Z (len (filter p l)) / inject_Z (len l) * 100)%Q /\
    (0 <= s <= 100)%Q.
Proof.
  intros Hne.
  exists (inject_Z (sum (map (fun x => b2z (p x)) l)) / inject_Z (len l) * 100)%Q.
  split; [|split].
  - rewrite mean_some by (destruct l; [congruence|discriminate]).
    now rewrite len_map.
  - now rewrite sum_b2z_filter.
  - apply share_of_count_bounds; [apply sum_b2z_bounds|now apply len_pos].
Qed.

Lemma percent_empty {A : Type} (p : A -> bool) :
  fmul (mean (map (fun x => b2z (p x)) (@nil A))) (of_int 100) = NaN.
Proof. reflexivity. Qed.

(* ------------------------------------------------------------------------- *)
(** ** The rows of the skill ranking *)
(* ------------------------------------------------------------------------- *)

(** X7: every row of the skill ranking belongs to a skill column; its count
    is the number of postings with the flag, between 0 and the number of
    postings, its display name is the label without [skill_], and its share
    is the count over the number of postings times 100.  On a table without
    postings every count is 0 and every share is NaN. *)
Theorem top_skills_rows kind (df : DataFrame) :
  (forall r, In r (agg_top_skills kind df) ->
     In (top_skill_name r) (skill_cols df) /\
     top_skill r = str_replace "skill_" "" (top_skill_name r) /\
     top_count r = len (filter (fun p => skill_flag p (top_skill_name r)) (rows df)) /\
     (0 <= top_count r <= n_total df)%Z) /\
  (rows df <> [] ->
   forall r, In r (agg_top_skills kind df) ->
     exists s, top_share r = Some s /\
               (s == inject_Z (top_count r) / inject_Z (n_total df) * 100)%Q /\
               (0 <= s <= 100)%Q) /\
  (rows df = [] ->
   forall r, In r (agg_top_skills kind df) ->
     top_count r = 0%Z /\ top_share r = NaN).
Proof.
  assert (Hrow : forall r, In r (agg_top_skills kind df) ->
            exists c, In c (skill_cols df) /\
              r = {| top_skill_name := c;
                     top_count := sum (flags c (rows df));
                     top_share := fmul (mean (flags c (rows df))) (of_int 100);
                     top_skill := str_replace "skill_" "" c |}).
  { intros r Hr. apply sort_values_in in Hr. unfold top_skills_unsorted in Hr.
    apply in_map_iff in Hr as [c [<- Hc]]. eauto. }
  split; [|split].
  - intros r Hr. destruct (Hrow r Hr) as [c [Hc ->]].
    cbn [top_skill_name top_count top_skill]. unfold flags.
    rewrite sum_b2z_filter. repeat split; auto.
    + apply len_nonneg.
    + apply len_filter_le.
  - intros Hne r Hr. destruct (Hrow r Hr) as [c [Hc ->]].
    cbn [top_share top_count]. unfold flags, n_total.
    destruct (percent_some (fun p => skill_flag p c) (rows df) Hne)
      as [s [Es [Eq Hb]]].
    exists s. rewrite sum_b2z_filter. auto.
  - intros E r Hr. destruct (Hrow r Hr) as [c [Hc ->]].
    cbn [top_share top_count]. rewrite E. split; reflexivity.
Qed.

(* ------------------------------------------------------------------------- *)
(** ** The skill x experience table *)
(* ------------------------------------------------------------------------- *)

Lemma group_share_percent (df : DataFrame) (g c : string) :
  In g (map experience_group (rows df)) ->
  exists s,
    group_share df g c = Some s /\
    (s == inject_Z (len (filter (fun p => skill_flag p c)
                                (group_rows experience_group df g))) /
          inject_Z (len (group_rows experience_group df g)) * 100)%Q /\
    (0 <= s <= 100)%Q.
Proof.
  intros Hg. unfold group_share, flags. apply percent_some.
  apply group_rows_nonempty. now apply group_keys_in.
Qed.

Lemma agg_skills_by_experience_in (df : DataFrame) (row : skill_exp_row) :
  In row (agg_skills_by_experience df) <->
  exists c g, In c (skill_cols df) /\ In g (map experience_group (rows df)) /\
              row = {| se_skill_name := c; se_experience_group := g;
                       se_share := group_share df g c;
                       se_skill := str_replace "skill_" "" c |}.
Proof.
  unfold agg_skills_by_experience. rewrite in_map_iff. split.
  - intros [r [<- Hr]]. apply melt_in in Hr as [c [g [Hc [Hg ->]]]].
    cbn in Hc, Hg. apply group_keys_in in Hg. exists c, g. auto.
  - intros [c [g [Hc [Hg ->]]]].
    exists {| long_skill_name := c; long_var := g;
              long_value := group_share df g c |}.
    split; [reflexivity|]. apply melt_in. exists c, g.
    repeat split; auto. cbn. now apply group_keys_in.
Qed.

(** X8: the skill x experience table is in long format: one row for every
    pair of a skill column and an experience group of the data (their numbers
    multiplied), and the share of a row is the percentage, between 0 and 100,
    of the postings of that group that have the skill. *)
Theorem skills_by_experience_table (df : DataFrame) :
  List.length (agg_skills_by_experience df) =
    List.length (skill_cols df) *
    List.length (nodup string_dec (map experience_group (rows df))) /\
  (forall c g,
      In c (skill_cols df) -> In g (map experience_group (rows df)) ->
      exists row, In row (agg_skills_by_experience df) /\
                  se_skill_name row = c /\ se_experience_group row = g) /\
  (forall row, In row (agg_skills_by_experience df) ->
     In (se_skill_name row) (skill_cols df) /\
     In (se_experience_group row) (map experience_group (rows df)) /\
     se_skill row = str_replace "skill_" "" (se_skill_name row) /\
     exists s,
       se_share row = Some s /\
       (s == inject_Z (len (filter (fun p => skill_flag p (se_skill_name row))
                              (group_rows experience_group df
                                          (se_experience_group row)))) /
             inject_Z (len (group_rows experience_group df
                                       (se_experience_group row))) * 100)%Q /\
       (0 <= s <= 100)%Q).
Proof.
  split; [|split].
  - unfold agg_skills_by_experience. rewrite length_map, melt_length. cbn.
    now rewrite group_keys_length.
  - intros c g Hc Hg.
    exists {| se_skill_name := c; se_experience_group := g;
              se_share := group_share df g c;
              se_skill := str_replace "skill_" "" c |}.
    split; [|split; reflexivity]. apply agg_skills_by_experience_in. eauto.
  - intros row Hrow. apply agg_skills_by_experience_in in Hrow
      as [c [g [Hc [Hg ->]]]]. cbn [se_skill_name se_experience_group se_share
                                    se_skill].
    repeat split; auto. now apply group_share_percent.
Qed.

(* ------------------------------------------------------------------------- *)
(** ** Further experience groups in the gap table *)
(* ------------------------------------------------------------------------- *)

Lemma agg_skills_gap_inv kind (df : DataFrame) (t : list gap_row) :
  agg_skills_gap kind df = Ok t ->
  In "junior" (map experience_group (rows df)) /\
  In "mid_plus" (map experience_group (rows df)) /\
  forall r, In r t <->
    In r (gap_unsorted (skills_by_exp df)
            (group_share df "mid_plus") (group_share df "junior")).
Proof.
  intros H. destruct (agg_skills_gap_both kind df t H) as [Hj Hm].
  rewrite (agg_skills_gap_ok kind df Hj Hm) in H. injection H as <-.
  repeat split; auto; apply sort_values_in.
Qed.

(** X9: in a gap table every share is a percentage between 0 and 100 and
    every gap lies between -100 and 100.  A further experience label of the
    data is not folded into the two shares: each row carries the share of
    that group as a column of its own, under the label of the group, unless
    the label is [gap] or [skill], whose column is replaced by the assigned
    column of that name.  (The labels [index] and [skill_name] collide with
    the helper columns of the pivot already; they are excluded.) *)
Theorem gap_table_rows kind (df : DataFrame) (t : list gap_row) (r : gap_row) :
  ~ In "index" (map experience_group (rows df)) ->
  ~ In "skill_name" (map experience_group (rows df)) ->
  agg_skills_gap kind df = Ok t ->
  In r t ->
  (exists j m g,
      junior_share r = Some j /\ mid_plus_share r = Some m /\ gap r = Some g /\
      (0 <= j <= 100)%Q /\ (0 <= m <= 100)%Q /\ (-100 <= g <= 100)%Q) /\
  (forall label share,
      In (label, share) (gap_other_groups r) <->
      In label (map experience_group (rows df)) /\
      ~ In label ["junior"; "mid_plus"; "gap"; "skill"] /\
      share = group_share df label (gap_skill_name r)).
Proof.
  intros _ _ Ht Hr. apply agg_skills_gap_inv in Ht as [Hj [Hm Hin]].
  apply Hin in Hr. unfold gap_unsorted in Hr.
  apply in_map_iff in Hr as [c [<- Hc]].
  cbn [junior_share mid_plus_share gap gap_other_groups gap_skill_name].
  split.
  - destruct (group_share_percent df "junior" c Hj) as [j [Ej [_ Bj]]].
    destruct (group_share_percent df "mid_plus" c Hm) as [m [Em [_ Bm]]].
    exists j, m, (m - j)%Q. rewrite Ej, Em. cbn [fsub].
    repeat split; try tauto; lra.
  - intros label share. rewrite in_map_iff. split.
    + intros [g [E Hg]]. injection E as <- <-.
      apply filter_In in Hg as [Hg Hneq]. cbn [ct_columns skills_by_exp transpose
        groupby_skills ct_index] in Hg.
      apply group_keys_in in Hg. apply negb_true_iff in Hneq.
      repeat (apply orb_false_iff in Hneq as [Hneq ?]).
      repeat match goal with
             | H : (_ =? _) = false |- _ => apply String.eqb_neq in H
             end.
      split; [exact Hg|]. split; [|reflexivity].
      cbn [In]. intuition congruence.
    + intros [Hg [Hnot ->]]. exists label. split; [reflexivity|].
      apply filter_In. split; [cbn; now apply group_keys_in|].
      apply negb_true_iff. cbn [In] in Hnot.
      repeat (apply orb_false_iff; split); apply String.eqb_neq;
        intros ->; apply Hnot; auto.
Qed.

(** The senior postings of [three_groups_df] get a column of their own. *)
Lemma gap_table_rows_example :
  exists t,
    agg_skills_gap insertion_sort three_groups_df = Ok t /\
    t <> [] /\
    forall r, In r t ->
      In ("senior", group_share three_groups_df "senior" (gap_skill_name r))
         (gap_other_groups r).
Proof.
  assert (Hj : In "junior" (map experience_group (rows three_groups_df)))
    by (apply has_label_in; reflexivity).
  assert (Hm : In "mid_plus" (map experience_group (rows three_groups_df)))
    by (apply has_label_in; reflexivity).
  assert (Hi : ~ In "index" (map experience_group (rows three_groups_df)))
    by (intros H; apply has_label_in in H; discriminate H).
  assert (Hs : ~ In "skill_name" (map experience_group (rows three_groups_df)))
    by (intros H; apply has_label_in in H; discriminate H).
  eexists. split; [exact (agg_skills_gap_ok insertion_sort _ Hj Hm)|]. split.
  - vm_compute. discriminate.
  - intros r Hr.
    apply (gap_table_rows insertion_sort three_groups_df _ r Hi Hs
             (agg_skills_gap_ok insertion_sort _ Hj Hm) Hr).
    split; [apply has_label_in; reflexivity|].
    split; [|reflexivity]. cbn [In]. intuition discriminate.
Defined.

(* ------------------------------------------------------------------------- *)
(** ** The category tables *)
(* ------------------------------------------------------------------------- *)

Lemma NoDup_fst_unique {A B : Type} (l : list (A * B)) (a : A) (b1 b2 : B) :
  NoDup (map fst l) -> In (a, b1) l -> In (a, b2) l -> b1 = b2.
Proof.
  induction l as [|[x y] l IH]; [contradiction|].
  cbn [map fst]. intros Hnd H1 H2. inversion Hnd as [|? ? Hnotin Hnd']; subst.
  destruct H1 as [H1|H1], H2 as [H2|H2].
  - congruence.
  - injection H1 as -> ->. exfalso. apply Hnotin.
    change a with (fst (a, b2)). now apply in_map.
  - injection H2 as -> ->. exfalso. apply Hnotin.
    change a with (fst (a, b1)). now apply in_map.
  - now apply IH.
Qed.

(** The loop over the taxonomy visits the present categories in order. *)
Lemma category_loop {B : Type} (df : DataFrame)
  (body : string * list string -> list string -> B)
  (cats : list (string * list string)) :
  flat_map (fun cs : string * list string =>
              match category_cols df (snd cs) with
              | [] => []
              | _ :: _ => [body cs (category_cols df (snd cs))]
              end)
           cats =
  map (fun cs => body cs (category_cols df (snd cs)))
      (filter (fun cs : string * list string =>
                 match category_cols df (snd cs) with
                 | [] => false
                 | _ :: _ => true
                 end)
              cats).
Proof.
  induction cats as [|cs cats IH]; [reflexivity|]. cbn [flat_map filter].
  destruct (category_cols df (snd cs)) eqn:E; cbn [app map];
    rewrite ?E, IH; reflexivity.
Qed.

Lemma category_share_present (df : DataFrame) :
  category_share df =
  map (fun cs => (fst cs,
                  fmul (mean (mentioned (category_cols df (snd cs)) (rows df)))
                       (of_int 100)))
      (present_categories df).
Proof.
  unfold category_share, present_categories.
  rewrite <- (category_loop df
                (fun cs cols => (fst cs,
                   fmul (mean (mentioned cols (rows df))) (of_int 100)))).
  apply flat_map_ext. intros cs.
  now destruct (category_cols df (snd cs)).
Qed.

Lemma mentioned_percent (cols : list string) (rs : list Posting) :
  rs <> [] ->
  exists s,
    fmul (mean (mentioned cols rs)) (of_int 100) = Some s /\
    (s == inject_Z (len (filter (fun p => existsb (skill_flag p) cols) rs)) /
          inject_Z (len rs) * 100)%Q /\
    (0 <= s <= 100)%Q.
Proof. intros H. rewrite mentioned_or. now apply percent_some. Qed.

Lemma df_columns_in (df : DataFrame) (c : string) :
  In c (df_columns df) <-> In c (columns df) \/ c = "skills_count".
Proof.
  unfold df_columns. destruct (has_label (columns df) "skills_count") eqn:E.
  - apply has_label_in in E. split; [auto|]. intros [H| ->]; assumption.
  - rewrite in_app_iff. cbn. intuition.
Qed.

(** No skill column is the column [skills_count] that the script adds. *)
Lemma has_label_skill (df : DataFrame) (s : string) :
  has_label (df_columns df) ("skill_" ++ s) = in_table df s.
Proof.
  unfold in_table. change (existsb (String.eqb ("skill_" ++ s)) (columns df))
    with (has_label (columns df) ("skill_" ++ s)).
  destruct (has_label (columns df) ("skill_" ++ s)) eqn:E.
  - apply has_label_in. apply df_columns_in. left. now apply has_label_in.
  - destruct (has_label (df_columns df) ("skill_" ++ s)) eqn:E'; [|reflexivity].
    apply has_label_in, df_columns_in in E'. destruct E' as [H|H].
    + apply has_label_in in H. congruence.
    + discriminate H.
Qed.

Lemma in_table_iff (df : DataFrame) (s : string) :
  in_table df s = true <-> In ("skill_" ++ s)%string (columns df).
Proof. apply has_label_in. Qed.

(** The columns found for a category are those of its skills that label a
    column of the table. *)
Lemma category_cols_present (df : DataFrame) (skills : list string) :
  match category_cols df skills with [] => false | _ :: _ => true end =
  existsb (in_table df) skills.
Proof.
  unfold category_cols. induction skills as [|s skills IH]; [reflexivity|].
  cbn [map filter existsb]. rewrite has_label_skill.
  destruct (in_table df s); [reflexivity|exact IH].
Qed.

Lemma present_categories_in_table (df : DataFrame) :
  present_categories df = categories_in_table df.
Proof.
  unfold present_categories, categories_in_table. apply filter_ext.
  intros cs. apply category_cols_present.
Qed.

Lemma mentions_cols (df : DataFrame) (skills : list string) (p : Posting) :
  existsb (skill_flag p) (category_cols df skills) = mentions df skills p.
Proof.
  unfold category_cols, mentions. induction skills as [|s skills IH]; [reflexivity|].
  cbn [map filter existsb]. rewrite has_label_skill.
  destruct (in_table df s); cbn [existsb andb orb]; now rewrite IH.
Qed.

Lemma categories_in_table_iff (df : DataFrame) (cat : string) :
  In cat (map fst (categories_in_table df)) <->
  exists skills,
    In (cat, skills) SKILL_CATEGORIES /\
    exists s, In s skills /\ In ("skill_" ++ s)%string (columns df).
Proof.
  unfold categories_in_table. rewrite in_map_iff. split.
  - intros [[c skills] [<- H]]. apply filter_In in H as [Hin Hex].
    cbn [fst snd] in *. exists skills. split; [exact Hin|].
    apply existsb_exists in Hex as [s [Hs Ht]]. exists s.
    split; [exact Hs|now apply in_table_iff].
  - intros [skills [Hin [s [Hs Hc]]]]. exists (cat, skills).
    split; [reflexivity|]. apply filter_In. split; [exact Hin|].
    cbn [snd]. apply existsb_exists. exists s.
    split; [exact Hs|now apply in_table_iff].
Qed.

(** X10: the category table has exactly one row for each category of the
    taxonomy of which the input has a column (a label [skill_] followed by
    one of the skills of the category); a category without any column in the
    input is left out instead of getting a row of zeros; on a table with a
    posting the rows are in descending order of share. *)
Theorem categories_table kind (df : DataFrame) :
  NoDup (map skill_category (agg_skill_categories kind df)) /\
  (forall cat,
      In cat (map skill_category (agg_skill_categories kind df)) <->
      exists skills,
        In (cat, skills) SKILL_CATEGORIES /\
        exists s, In s skills /\ In ("skill_" ++ s)%string (columns df)) /\
  (forall cat skills,
      In (cat, skills) SKILL_CATEGORIES ->
      (forall s, In s skills -> ~ In ("skill_" ++ s)%string (columns df)) ->
      forall row, In row (agg_skill_categories kind df) ->
                  skill_category row <> cat) /\
  (rows df <> [] ->
   StronglySorted
     (fun a b => float_le (category_row_share b) (category_row_share a))
     (agg_skill_categories kind df)).
Proof.
  assert (Hperm : Permutation (map skill_category (agg_skill_categories kind df))
                              (map fst (categories_in_table df))).
  { unfold agg_skill_categories. rewrite map_map. cbn [skill_category].
    eapply Permutation_trans; [apply Permutation_map, sort_values_perm|].
    rewrite category_share_present, map_map, present_categories_in_table.
    cbn [fst]. apply Permutation_refl. }
  assert (Hiff : forall cat,
            In cat (map skill_category (agg_skill_categories kind df)) <->
            exists skills,
              In (cat, skills) SKILL_CATEGORIES /\
              exists s, In s skills /\ In ("skill_" ++ s)%string (columns df)).
  { intros cat. rewrite <- categories_in_table_iff. split; intros H.
    - exact (Permutation_in _ Hperm H).
    - exact (Permutation_in _ (Permutation_sym Hperm) H). }
  split; [|split; [exact Hiff|split]].
  - eapply Permutation_NoDup; [apply Permutation_sym, Hperm|].
    unfold categories_in_table.
    assert (Hnd : forall l : list (string * list string),
              NoDup (map fst l) ->
              NoDup (map fst (filter (fun cs => existsb (in_table df) (snd cs)) l))).
    { induction l as [|x l IH]; cbn [map filter]; intros Hnd; [constructor|].
      inversion Hnd as [|? ? Hnotin Hnd']; subst.
      destruct (existsb (in_table df) (snd x)); [|now apply IH].
      cbn [map]. constructor; [|now apply IH].
      intros Hin. apply Hnotin. apply in_map_iff in Hin as [y [E Hy]].
      apply filter_In in Hy as [Hy _]. rewrite <- E. now apply in_map. }
    apply Hnd, SKILL_CATEGORIES_NoDup.
  - intros cat skills Hin Hnone row Hrow Hcat.
    assert (Hc : In cat (map skill_category (agg_skill_categories kind df)))
      by (rewrite <- Hcat; now apply in_map).
    apply Hiff in Hc as [skills' [Hin' [s [Hs Hcol]]]].
    rewrite (NoDup_fst_unique _ _ _ _ SKILL_CATEGORIES_NoDup Hin' Hin) in Hs.
    exact (Hnone s Hs Hcol).
  - intros Hne. unfold agg_skill_categories.
    assert (Hsome : forall kv, In kv (category_share df) ->
                      exists s, snd kv = Some s).
    { intros kv Hkv. rewrite category_share_present in Hkv.
      apply in_map_iff in Hkv as [cs [<- _]]. cbn [snd].
      destruct (mentioned_percent (category_cols df (snd cs)) (rows df) Hne)
        as [s [Es _]]. eauto. }
    eapply StronglySorted_map_in;
      [|apply (sort_values_descending kind _
                 (fun kv : string * float =>
                    match snd kv with Some q => q | None => 0%Q end))].
    + intros x y Hx Hy H. cbn [category_row_share].
      apply sort_values_in in Hx, Hy.
      destruct (Hsome x Hx) as [sx Ex], (Hsome y Hy) as [sy Ey].
      cbv beta in H. rewrite Ex, Ey in *. exact H.
    + intros kv Hkv. destruct (Hsome kv Hkv) as [s Es]. now rewrite Es.
Qed.

(** The example table has columns of the category Programming only. *)
Lemma categories_table_example :
  map skill_category (agg_skill_categories insertion_sort example_df) =
    ["Programming"] /\
  forall row, In row (agg_skill_categories insertion_sort example_df) ->
              skill_category row <> "Spreadsheets".
Proof.
  split; [vm_compute; reflexivity|].
  apply (proj1 (proj2 (proj2 (categories_table insertion_sort example_df)))
           "Spreadsheets" ["excel"; "google_sheets"]).
  - right. left. reflexivity.
  - intros s Hs Hcol. apply in_table_iff in Hcol.
    destruct Hs as [<-|[<-|[]]]; discriminate Hcol.
Defined.

(** X11: where no cell of [experience_group] is missing, as in the tables
    considered here, the category x experience table has one row for every
    pair of an experience group (in order of first appearance) and a category
    of which the input has a column (in the order of the taxonomy), and the
    share of a row is the percentage, between 0 and 100, of the postings of
    that group asking for at least one skill of the category. *)
Theorem categories_by_experience_table (df : DataFrame) :
  map (fun r => (ce_experience_group r, ce_skill_category r))
      (agg_skill_categories_by_experience df) =
  list_prod (unique String.eqb (map experience_group (rows df)))
            (map fst (categories_in_table df)) /\
  (forall row, In row (agg_skill_categories_by_experience df) ->
     exists skills s,
       In (ce_skill_category row, skills) SKILL_CATEGORIES /\
       (exists c, In c skills /\ In ("skill_" ++ c)%string (columns df)) /\
       ce_share row = Some s /\
       (s == inject_Z (len (filter (mentions df skills)
                                   (group_rows experience_group df
                                               (ce_experience_group row)))) /
             inject_Z (len (group_rows experience_group df
                                       (ce_experience_group row))) * 100)%Q /\
       (0 <= s <= 100)%Q).
Proof.
  set (body := fun (g : string) (cs : string * list string) (cols : list string) =>
                 {| ce_experience_group := g;
                    ce_skill_category := fst cs;
                    ce_share := fmul (mean (mentioned cols
                                  (group_rows experience_group df g)))
                                     (of_int 100) |}).
  assert (E : agg_skill_categories_by_experience df =
              flat_map (fun g => map (fun cs => body g cs (category_cols df (snd cs)))
                                     (categories_in_table df))
                       (unique String.eqb (map experience_group (rows df)))).
  { rewrite <- present_categories_in_table.
    unfold agg_skill_categories_by_experience, present_categories.
    apply flat_map_ext. intros g. rewrite <- (category_loop df (body g)).
    apply flat_map_ext. intros cs. now destruct (category_cols df (snd cs)). }
  split.
  - rewrite E. clear E.
    induction (unique String.eqb (map experience_group (rows df)))
      as [|g gs IH]; [reflexivity|].
    cbn [flat_map list_prod]. rewrite map_app, IH, !map_map. reflexivity.
  - intros row Hrow. rewrite E in Hrow.
    apply in_flat_map in Hrow as [g [Hg Hrow]].
    apply in_map_iff in Hrow as [[cat skills] [<- Hcs]].
    assert (Hcat : In cat (map fst (categories_in_table df)))
      by (change cat with (fst (cat, skills)); now apply in_map).
    apply filter_In in Hcs as [Hin Hpresent]. cbn [fst snd] in *.
    apply (proj1 (unique_in String.eqb string_eqb_eq _ g)) in Hg.
    assert (Hne : group_rows experience_group df g <> []).
    { apply group_rows_nonempty. exact (proj2 (group_keys_in _ _ _) Hg). }
    destruct (mentioned_percent (category_cols df skills) _ Hne)
      as [s [Es [Eq Hb]]].
    exists skills, s. split; [exact Hin|]. split.
    { apply existsb_exists in Hpresent as [c [Hc Ht]]. exists c.
      split; [exact Hc|now apply in_table_iff]. }
    split; [exact Es|]. split; [|exact Hb].
    rewrite Eq.
    rewrite (filter_ext _ _ (mentions_cols df skills)). reflexivity.
Qed.

(* ------------------------------------------------------------------------- *)
(** ** Sums over groups *)
(* ------------------------------------------------------------------------- *)

Lemma sum_cons (x : Z) (l : list Z) : sum (x :: l) = (x + sum l)%Z.
Proof. reflexivity. Qed.

Section GroupSums.
Variable by_ : Posting -> string.
Variable f : Posting -> Z.

Lemma group_sum_without (a g : string) (m : list Posting) :
  sum (map f (filter (fun r => by_ r =? g)
                     (filter (fun r => negb (a =? by_ r)) m))) =
  if a =? g then 0%Z else sum (map f (filter (fun r => by_ r =? g) m)).
Proof.
  induction m as [|r m IH]; [now destruct (a =? g)|].
  cbn [filter]. destruct (a =? by_ r) eqn:Ea; cbn [negb filter].
  - destruct (by_ r =? g) eqn:Eg.
    + apply String.eqb_eq in Ea, Eg. subst. rewrite String.eqb_refl in *.
      exact IH.
    + exact IH.
  - destruct (by_ r =? g) eqn:Eg; [|exact IH].
    destruct (a =? g) eqn:Eag.
    + apply String.eqb_eq in Eg, Eag. subst. rewrite String.eqb_refl in Ea.
      discriminate.
    + cbn [map]. rewrite !sum_cons. now rewrite IH.
Qed.

Lemma group_sums_without (a : string) (u : list string) (m : list Posting) :
  sum (map (fun g => sum (map f (filter (fun r => by_ r =? g) m)))
           (filter (fun g => negb (a =? g)) u)) =
  sum (map (fun g => sum (map f (filter (fun r => by_ r =? g)
                                   (filter (fun r => negb (a =? by_ r)) m))))
           u).
Proof.
  induction u as [|g u IH]; [reflexivity|]. cbn [filter map].
  rewrite sum_cons, group_sum_without.
  destruct (a =? g); cbn [negb map]; rewrite ?sum_cons, IH; reflexivity.
Qed.

Lemma sum_split (a : string) (p : Posting -> bool) (m : list Posting) :
  Z.add (sum (map f (filter (fun r => by_ r =? a) m)))
        (sum (map f (filter p (filter (fun r => negb (a =? by_ r)) m)))) =
  sum (map f (filter (fun r => (a =? by_ r) || p r) m)).
Proof.
  induction m as [|r m IH]; [reflexivity|]. cbn [filter].
  rewrite (String.eqb_sym (by_ r) a).
  destruct (a =? by_ r); cbn [negb orb filter map]; rewrite ?sum_cons.
  - lia.
  - destruct (p r); cbn [map]; rewrite ?sum_cons; lia.
Qed.

Lemma group_sums_in (l : list string) (m : list Posting) :
  sum (map (fun g => sum (map f (filter (fun r => by_ r =? g) m)))
           (unique String.eqb l)) =
  sum (map f (filter (fun r => existsb (fun x => x =? by_ r) l) m)).
Proof.
  revert m. induction l as [|a l IH]; intros m.
  - cbn. now rewrite filter_none.
  - cbn [unique map existsb]. rewrite sum_cons.
    rewrite group_sums_without, IH. apply sum_split.
Qed.

(** Summing within the groups and then over the groups gives the sum over
    all postings. *)
Lemma sum_over_groups (df : DataFrame) :
  sum (map (fun g => sum (map f (group_rows by_ df g))) (group_keys by_ df)) =
  sum (map f (rows df)).
Proof.
  rewrite (sum_perm _ _ (Permutation_map _ (group_keys_perm by_ df))).
  unfold group_rows. rewrite group_sums_in, filter_all; [reflexivity|].
  intros r Hr. apply existsb_exists. exists (by_ r).
  split; [now apply in_map|apply String.eqb_refl].
Qed.
End GroupSums.

Lemma sum_ones {A : Type} (l : list A) : sum (map (fun _ => 1%Z) l) = len l.
Proof.
  induction l as [|x l IH]; [reflexivity|].
  rewrite len_cons. cbn [map]. rewrite sum_cons. lia.
Qed.

(** The sizes of the groups add up to the number of postings. *)
Lemma group_sizes_total (by_ : Posting -> string) (df : DataFrame) :
  sum (map (fun g => len (group_rows by_ df g)) (group_keys by_ df)) = n_total df.
Proof.
  unfold n_total. rewrite <- (sum_ones (rows df)).
  rewrite <- (sum_over_groups by_ (fun _ => 1%Z) df).
  f_equal. apply map_ext. intros g. now rewrite sum_ones.
Qed.

(* ------------------------------------------------------------------------- *)
(** ** Summary statistics of a sample of integers *)
(* ------------------------------------------------------------------------- *)

Lemma fold_min_spec (l : list Z) (x : Z) :
  (fold_left Z.min l x <= x)%Z /\
  (forall y, In y l -> (fold_left Z.min l x <= y)%Z) /\
  In (fold_left Z.min l x) (x :: l).
Proof.
  revert x. induction l as [|y l IH]; intros x; cbn [fold_left].
  - repeat split; [lia|contradiction|now left].
  - destruct (IH (Z.min x y)) as [H1 [H2 H3]]. repeat split.
    + lia.
    + intros z [<-|Hz]; [lia|now apply H2].
    + destruct H3 as [H3|H3]; [|right; now right].
      destruct (Z.min_spec x y) as [[_ E]|[_ E]]; [left|right; left];
        rewrite <- H3; symmetry; exact E.
Qed.

Lemma fold_max_spec (l : list Z) (x : Z) :
  (x <= fold_left Z.max l x)%Z /\
  (forall y, In y l -> (y <= fold_left Z.max l x)%Z) /\
  In (fold_left Z.max l x) (x :: l).
Proof.
  revert x. induction l as [|y l IH]; intros x; cbn [fold_left].
  - repeat split; [lia|contradiction|now left].
  - destruct (IH (Z.max x y)) as [H1 [H2 H3]]. repeat split.
    + lia.
    + intros z [<-|Hz]; [lia|now apply H2].
    + destruct H3 as [H3|H3]; [|right; now right].
      destruct (Z.max_spec x y) as [[_ E]|[_ E]]; [right; left|left];
        rewrite <- H3; symmetry; exact E.
Qed.

Lemma minimum_spec (xs : list Z) :
  xs <> [] ->
  exists lo, minimum xs = Some lo /\ In lo xs /\ forall x, In x xs -> (lo <= x)%Z.
Proof.
  destruct xs as [|x l]; [congruence|]. intros _.
  destruct (fold_min_spec l x) as [H1 [H2 H3]].
  exists (fold_left Z.min l x). repeat split; [exact H3|].
  intros y [<-|Hy]; auto.
Qed.

Lemma maximum_spec (xs : list Z) :
  xs <> [] ->
  exists hi, maximum xs = Some hi /\ In hi xs /\ forall x, In x xs -> (x <= hi)%Z.
Proof.
  destruct xs as [|x l]; [congruence|]. intros _.
  destruct (fold_max_spec l x) as [H1 [H2 H3]].
  exists (fold_left Z.max l x). repeat split; [exact H3|].
  intros y [<-|Hy]; auto.
Qed.

Lemma sum_between (lo hi : Z) (l : list Z) :
  (forall x, In x l -> (lo <= x <= hi)%Z) ->
  (lo * len l <= sum l <= hi * len l)%Z.
Proof.
  induction l as [|x l IH]; intros H; [cbn; lia|].
  rewrite len_cons, sum_cons.
  assert (Hx : (lo <= x <= hi)%Z) by (apply H; now left).
  assert (Hl : (lo * len l <= sum l <= hi * len l)%Z)
    by (apply IH; intros y Hy; apply H; now right).
  lia.
Qed.

Lemma mean_between (lo hi : Z) (l : list Z) :
  l <> [] -> (forall x, In x l -> (lo <= x <= hi)%Z) ->
  exists m, mean l = Some m /\ (inject_Z lo <= m <= inject_Z hi)%Q.
Proof.
  intros Hne H. rewrite (mean_some l Hne). eexists. split; [reflexivity|].
  pose proof (sum_between lo hi l H) as [Hlo Hhi].
  pose proof (len_pos l Hne) as Hn.
  rewrite Zle_Qle, inject_Z_mult in Hlo, Hhi. rewrite Zlt_Qlt in Hn.
  change (inject_Z 0) with 0%Q in Hn. split.
  - apply Qle_shift_div_l; assumption.
  - apply Qle_shift_div_r; assumption.
Qed.

Lemma insert_int_perm (x : Z) (l : list Z) : Permutation (insert_int x l) (x :: l).
Proof.
  induction l as [|y l IH]; simpl; [reflexivity|].
  destruct (x <=? y)%Z; [reflexivity|]. rewrite IH. apply perm_swap.
Qed.

Lemma sort_ints_perm (l : list Z) : Permutation (sort_ints l) l.
Proof.
  induction l as [|x l IH]; simpl; [reflexivity|].
  rewrite insert_int_perm. now constructor.
Qed.

Lemma median_between (lo hi : Z) (l : list Z) :
  l <> [] -> (forall x, In x l -> (lo <= x <= hi)%Z) ->
  exists d, median l = Some d /\ (inject_Z lo <= d <= inject_Z hi)%Q.
Proof.
  intros Hne H. unfold median.
  assert (Hs : forall i, i < List.length (sort_ints l) ->
                 (inject_Z lo <= inject_Z (nth i (sort_ints l) 0%Z)
                  <= inject_Z hi)%Q).
  { intros i Hi. rewrite <- !Zle_Qle. apply H.
    apply (Permutation_in _ (sort_ints_perm l)). now apply nth_In. }
  destruct (List.length (sort_ints l)) as [|n] eqn:En.
  - apply length_zero_iff_nil in En.
    pose proof (Permutation_length (sort_ints_perm l)) as Hlen.
    rewrite En in Hlen. destruct l; [congruence|discriminate].
  - assert (H2 : S n / 2 < S n) by (apply Nat.div_lt; lia).
    destruct (Nat.even (S n)).
    + eexists. split; [reflexivity|].
      pose proof (Hs (S n / 2 - 1) ltac:(lia)).
      pose proof (Hs (S n / 2) H2).
      split; [apply Qle_shift_div_l|apply Qle_shift_div_r]; try reflexivity; lra.
    + eexists. split; [reflexivity|]. now apply Hs.
Qed.

(* ------------------------------------------------------------------------- *)
(** ** Counts that add up *)
(* ------------------------------------------------------------------------- *)

(** X19: the counts of the skills-count histogram add up to the number of
    postings: every posting falls into exactly one bucket.  Where no cell
    of [country_name], [experience_group] and [is_remote] is missing, as in
    the tables considered here, the counts of the country, experience and
    remote tables and the group sizes of the summary by experience add up to
    the number of postings as well. *)
Theorem counts_add_up kind (df : DataFrame) :
  sum (map dist_count (agg_skills_count_dist kind df)) = n_total df /\
  sum (map dist_count (agg_country kind df)) = n_total df /\
  sum (map dist_count (agg_experience kind df)) = n_total df /\
  sum (map dist_count (agg_remote kind df)) = n_total df /\
  sum (map cx_count (agg_skills_count_by_experience df)) = n_total df.
Proof.
  destruct (distribution_counts_total kind df) as [Hc [He [Hr Hd]]].
  repeat split; try assumption.
  unfold agg_skills_count_by_experience. rewrite map_map.
  cbn [cx_count]. rewrite <- (group_sizes_total experience_group df).
  f_equal. apply map_ext. intros g. apply len_map.
Qed.

(* ------------------------------------------------------------------------- *)
(** ** The skills-count summary by experience group *)
(* ------------------------------------------------------------------------- *)

(** X12: the summary has one row per experience label of the data and no
    row for any other label; the count of a row is the number of postings
    with that label, at least 1; the minimum and the maximum are skills
    counts of postings of the group that bound all of them, within 0 and
    the number of skill columns, and the mean and the median lie between
    them. *)
Theorem count_by_experience_table (df : DataFrame) :
  NoDup (map cx_experience_group (agg_skills_count_by_experience df)) /\
  (forall g, In g (map cx_experience_group (agg_skills_count_by_experience df))
             <-> In g (map experience_group (rows df))) /\
  (forall row, In row (agg_skills_count_by_experience df) ->
     let group := group_rows experience_group df (cx_experience_group row) in
     cx_count row = len group /\ (1 <= cx_count row)%Z /\
     exists lo hi m d,
       cx_min row = Some lo /\ cx_max row = Some hi /\
       cx_mean row = Some m /\ cx_median row = Some d /\
       (0 <= lo <= hi)%Z /\ (hi <= len (skill_cols df))%Z /\
       (inject_Z lo <= m <= inject_Z hi)%Q /\
       (inject_Z lo <= d <= inject_Z hi)%Q /\
       In lo (map (skills_count df) group) /\
       In hi (map (skills_count df) group) /\
       (forall p, In p group -> (lo <= skills_count df p <= hi)%Z)).
Proof.
  assert (Hkeys : map cx_experience_group (agg_skills_count_by_experience df) =
                  group_keys experience_group df).
  { unfold agg_skills_count_by_experience. rewrite map_map. cbn. apply map_id. }
  split; [rewrite Hkeys; apply group_keys_NoDup|].
  split; [intros g; rewrite Hkeys; apply group_keys_in|].
  - intros row Hrow. unfold agg_skills_count_by_experience in Hrow.
    apply in_map_iff in Hrow as [g [<- Hg]].
    cbn [cx_experience_group cx_count cx_min cx_max cx_mean cx_median].
    cbv zeta.
    pose proof (group_rows_nonempty _ _ _ Hg) as Hne.
    set (G := group_rows experience_group df g) in *.
    assert (Hxs : map (skills_count df) G <> [])
      by (destruct G; [congruence|discriminate]).
    destruct (minimum_spec _ Hxs) as [lo [Elo [Ilo Hlo]]].
    destruct (maximum_spec _ Hxs) as [hi [Ehi [Ihi Hhi]]].
    assert (Hall : forall x, In x (map (skills_count df) G) -> (lo <= x <= hi)%Z)
      by (intros x Hx; split; auto).
    destruct (mean_between lo hi _ Hxs Hall) as [m [Em Hm]].
    destruct (median_between lo hi _ Hxs Hall) as [d [Ed Hd]].
    split; [apply len_map|]. split.
    { rewrite len_map. pose proof (len_pos G Hne). lia. }
    exists lo, hi, m, d. repeat split; try assumption; try tauto.
    + apply in_map_iff in Ilo as [p [<- _]]. apply skills_count_bounds.
    + now apply Hlo.
    + apply in_map_iff in Ihi as [p [<- _]]. apply skills_count_bounds.
    + apply Hlo. now apply in_map.
    + apply Hhi. now apply in_map.
Qed.

(* ------------------------------------------------------------------------- *)
(** ** The skill x country table: shares and sums *)
(* ------------------------------------------------------------------------- *)

(** X13: in the skill x country table every country has at least one
    posting, so the guard against a zero total never fires: the count of a
    row is at most the country total, and the share is the count over that
    total times 100, between 0 and 100. *)
Theorem crosstab_shares (df : DataFrame) (t : list skill_country_row)
  (row : skill_country_row) :
  agg_skills_by_country df = Ok t ->
  In row t ->
  (1 <= len (group_rows country_name df (sc_country_name row)))%Z /\
  (0 <= sc_count row <= len (group_rows country_name df (sc_country_name row)))%Z /\
  sc_share row =
    Finite (inject_Z (sc_count row) /
            inject_Z (len (group_rows country_name df (sc_country_name row))) *
            100) /\
  (0 <= inject_Z (sc_count row) /
        inject_Z (len (group_rows country_name df (sc_country_name row))) * 100
     <= 100)%Q.
Proof.
  intros Ht Hrow. apply agg_skills_by_country_inv in Ht. subst t.
  apply in_map_iff in Hrow as [r [<- Hr]].
  apply skills_by_country_long_in in Hr as [c [g [Hc [Hg ->]]]].
  unfold country_row. cbn [sc_country_name sc_count sc_share long_var long_value].
  assert (Hne : group_rows country_name df g <> [])
    by (apply group_rows_nonempty; exact (proj2 (group_keys_in _ _ _) Hg)).
  pose proof (len_pos _ Hne) as Hpos.
  assert (Hb : (0 <= sum (flags c (group_rows country_name df g))
                <= len (group_rows country_name df g))%Z)
    by apply sum_b2z_bounds.
  assert (Hgt : (len (group_rows country_name df g) >? 0)%Z = true)
    by (apply Z.gtb_lt; lia).
  rewrite Hgt. repeat split; try lia; now apply share_of_count_bounds.
Qed.

Lemma crosstab_shares_example :
  exists t row,
    agg_skills_by_country example_df = Ok t /\ In row t /\
    sc_share row = Finite (inject_Z 2 / inject_Z 2 * 100).
Proof.
  assert (Ht : agg_skills_by_country example_df =
               Ok (map (country_row example_df)
                       (skills_by_country_long example_df)))
    by (apply agg_skills_by_country_ok; discriminate).
  assert (Hin : In (country_row example_df
                      {| long_skill_name := "skill_sql"; long_var := "US";
                         long_value := 2%Z |})
                   (map (country_row example_df)
                        (skills_by_country_long example_df)))
    by (apply in_map; vm_compute; tauto).
  do 2 eexists. split; [exact Ht|]. split; [exact Hin|].
  apply (crosstab_shares example_df _ _ Ht Hin).
Defined.

Lemma filter_eqb_singleton (l : list string) (c : string) :
  NoDup l -> In c l -> filter (fun s => s =? c) l = [c].
Proof.
  induction l as [|x l IH]; [contradiction|].
  intros Hnd Hin. inversion Hnd as [|? ? Hnotin Hnd']; subst. cbn [filter].
  destruct (x =? c) eqn:E.
  - apply String.eqb_eq in E. subst. f_equal. apply filter_none.
    intros y Hy. apply String.eqb_neq. intros ->. contradiction.
  - destruct Hin as [->|Hin]; [now rewrite String.eqb_refl in E|now apply IH].
Qed.

Lemma skills_by_country_long_skill (df : DataFrame) (c : string) :
  NoDup (skill_cols df) -> In c (skill_cols df) ->
  map long_value
      (filter (fun r => long_skill_name r =? c) (skills_by_country_long df)) =
  map (fun g => sum (flags c (group_rows country_name df g)))
      (group_keys country_name df).
Proof.
  intros Hnd Hc. unfold skills_by_country_long, melt. cbn.
  induction (group_keys country_name df) as [|g gs IH]; [reflexivity|].
  cbn [flat_map map]. rewrite filter_app, map_app, IH.
  rewrite filter_map_swap. cbn [long_skill_name].
  now rewrite (filter_eqb_singleton _ c Hnd Hc).
Qed.

(** X14: where every posting has its country (no cell of [country_name] is
    missing, as in the tables considered here), the skill x country table
    and the skill ranking agree: for every skill, the counts of its rows over
    the countries add up to its count in the ranking. *)
Theorem crosstab_counts_add_up kind (df : DataFrame)
  (t : list skill_country_row) (r : top_skill_row) :
  NoDup (skill_cols df) ->
  agg_skills_by_country df = Ok t ->
  In r (agg_top_skills kind df) ->
  sum (map sc_count (filter (fun row => sc_skill_name row =? top_skill_name r) t)) =
  top_count r.
Proof.
  intros Hnd Ht Hr. apply agg_skills_by_country_inv in Ht. subst t.
  apply sort_values_in in Hr. unfold top_skills_unsorted in Hr.
  apply in_map_iff in Hr as [c [<- Hc]]. cbn [top_skill_name top_count].
  rewrite filter_map_swap, map_map. cbn [sc_skill_name sc_count country_row].
  rewrite <- (map_map long_value (fun x => x)), map_id.
  rewrite (skills_by_country_long_skill df c Hnd Hc).
  apply (sum_over_groups country_name (fun p => b2z (skill_flag p c))).
Qed.

Lemma crosstab_counts_add_up_example :
  exists t,
    agg_skills_by_country example_df = Ok t /\
    forall r, In r (agg_top_skills insertion_sort example_df) ->
      sum (map sc_count
               (filter (fun row => sc_skill_name row =? top_skill_name r) t)) =
      top_count r.
Proof.
  assert (Ht : agg_skills_by_country example_df =
               Ok (map (country_row example_df)
                       (skills_by_country_long example_df)))
    by (apply agg_skills_by_country_ok; discriminate).
  eexists. split; [exact Ht|]. intros r Hr.
  apply (crosstab_counts_add_up insertion_sort example_df _ r); auto.
  vm_compute. repeat constructor; cbn; intuition discriminate.
Defined.

(* ------------------------------------------------------------------------- *)
(** ** The experience table and the summary by experience *)
(* ------------------------------------------------------------------------- *)

Lemma agg_experience_distribution kind (df : DataFrame) :
  distribution_of String.eqb (map experience_group (rows df))
                  (agg_experience kind df).
Proof.
  unfold agg_experience. rewrite (value_counts_sum _ string_eqb_eq).
  apply (with_share_distribution _ string_eqb_eq), value_counts_perm.
Qed.

Lemma group_size_count (df : DataFrame) (g : string) :
  len (filter (String.eqb g) (map experience_group (rows df))) =
  len (group_rows experience_group df g).
Proof.
  rewrite filter_map_swap, len_map. unfold group_rows. f_equal.
  apply filter_ext. intros r. apply String.eqb_sym.
Qed.

(** X15: the experience table and the summary by experience agree: they
    have the same groups, and the count of a group is the same in both. *)
Theorem experience_counts_agree kind (df : DataFrame) :
  (forall row, In row (agg_skills_count_by_experience df) ->
     exists d, In d (agg_experience kind df) /\
               dist_key d = cx_experience_group row /\
               dist_count d = cx_count row) /\
  (forall d, In d (agg_experience kind df) ->
     exists row, In row (agg_skills_count_by_experience df) /\
                 cx_experience_group row = dist_key d /\
                 cx_count row = dist_count d).
Proof.
  destruct (agg_experience_distribution kind df) as [_ [Hall Hrow]]. split.
  - intros row Hin. unfold agg_skills_count_by_experience in Hin.
    apply in_map_iff in Hin as [g [<- Hg]]. cbn [cx_experience_group cx_count].
    destruct (Hall g (proj1 (group_keys_in _ _ _) Hg)) as [d [Hd Ek]].
    exists d. split; [exact Hd|]. split; [exact Ek|].
    destruct (Hrow d Hd) as [_ [Ec _]].
    now rewrite Ec, Ek, group_size_count, len_map.
  - intros d Hd. destruct (Hrow d Hd) as [Hk [Ec _]].
    set (g := dist_key d) in *.
    exists {| cx_experience_group := g;
              cx_count := len (map (skills_count df)
                                   (group_rows experience_group df g));
              cx_mean := mean (map (skills_count df)
                                   (group_rows experience_group df g));
              cx_median := median (map (skills_count df)
                                       (group_rows experience_group df g));
              cx_min := minimum (map (skills_count df)
                                     (group_rows experience_group df g));
              cx_max := maximum (map (skills_count df)
                                     (group_rows experience_group df g)) |}.
    split; [|split; [reflexivity|]].
    + unfold agg_skills_count_by_experience. apply in_map_iff.
      exists g. split; [reflexivity|]. exact (proj2 (group_keys_in _ _ _) Hk).
    + cbn [cx_count]. now rewrite Ec, group_size_count, len_map.
Qed.

(* ------------------------------------------------------------------------- *)
(** ** A table without postings *)
(* ------------------------------------------------------------------------- *)

Lemma take_nil {A : Type} (idx : list nat) : take idx (@nil A) = [].
Proof.
  induction idx as [|i idx IH]; [reflexivity|].
  rewrite take_cons, IH. now destruct i.
Qed.

Lemma sort_values_nil {A : Type} kind (by_ : A -> float) (ascending : bool) :
  sort_values kind by_ ascending [] = [].
Proof. unfold sort_values. apply take_nil. Qed.

Lemma skills_by_country_long_no_rows (df : DataFrame) :
  rows df = [] -> skills_by_country_long df = [].
Proof.
  intros E. unfold skills_by_country_long, melt, skills_by_country.
  cbn [transpose groupby_skills ct_columns ct_index].
  unfold group_keys. rewrite E. reflexivity.
Qed.

(** X16: on a table without postings no share is computed from a zero
    total: the distribution tables, the histogram and the fact table simply
    have no rows.  The run still does not complete: the skill x country
    step raises on its empty long table (and the gap step would raise for
    the missing groups), so at most five files are written. *)
Theorem empty_input kind (df : DataFrame) :
  rows df = [] ->
  (fact_rows (fact_job_postings df) = [] /\
   agg_country kind df = [] /\ agg_experience kind df = [] /\
   agg_remote kind df = [] /\ agg_skills_count_dist kind df = []) /\
  (exists msg, agg_skills_by_country df = Raise (ValueError msg)) /\
  agg_skills_gap kind df = Raise (KeyError "mid_plus") /\
  (exists e, snd (main kind df) = Raise e) /\
  List.length (fst (main kind df)) <= 5.
Proof.
  intros E.
  assert (Hc : exists msg, agg_skills_by_country df = Raise (ValueError msg)).
  { destruct (agg_skills_by_country_cases df) as [[_ H]|[H _]]; [exact H|].
    now apply skills_by_country_long_no_rows in E. }
  split; [|split; [exact Hc|split]].
  - unfold fact_job_postings, agg_country, agg_experience, agg_remote,
      agg_skills_count_dist, sort_index, value_counts.
    cbn [fact_rows]. rewrite E. cbn [map unique].
    rewrite !sort_values_nil. repeat split; reflexivity.
  - apply agg_skills_gap_missing. now rewrite E.
  - destruct Hc as [msg Hc]. split_run; rewrite ?Hc;
      cbn [fst snd app List.length]; (split; [eauto|lia]).
Qed.

Lemma empty_input_example :
  rows empty_df = [] /\
  agg_country insertion_sort empty_df = [] /\
  List.length (fst (main insertion_sort empty_df)) <= 5.
Proof.
  split; [reflexivity|].
  destruct (empty_input insertion_sort empty_df eq_refl)
    as [[_ [H1 _]] [_ [_ [_ H2]]]].
  split; assumption.
Defined.

(* ------------------------------------------------------------------------- *)
(** ** Display names *)
(* ------------------------------------------------------------------------- *)

Lemma replace_from_skip (old new p s : string) :
  replace_from old new (String.length p) (p ++ s)%string = replace_from old new 0 s.
Proof.
  induction p as [|c p IH]; [reflexivity|]. exact IH.
Qed.

Lemma prefix_append (p s : string) : String.prefix p (p ++ s)%string = true.
Proof.
  induction p as [|c p IH]; [now destruct s|].
  cbn. destruct (Ascii.ascii_dec c c); [exact IH|congruence].
Qed.

Lemma str_replace_prefix (c : ascii) (old new s : string) :
  str_replace (String c old) new (String c old ++ s)%string =
  (new ++ str_replace (String c old) new s)%string.
Proof.
  unfold str_replace. change (String c old ++ s)%string with (String c (old ++ s)%string).
  cbn [replace_from].
  change (String c (old ++ s)%string) with (String c old ++ s)%string.
  rewrite prefix_append. f_equal.
  cbn [String.length]. rewrite Nat.sub_succ, Nat.sub_0_r.
  apply replace_from_skip.
Qed.

Lemma str_replace_none (old new s : string) :
  no_occurrence old s = true -> str_replace old new s = s.
Proof.
  unfold str_replace. induction s as [|c s IH]; [reflexivity|].
  cbn [no_occurrence replace_from]. intros H.
  apply andb_true_iff in H as [Hp Hs]. apply negb_true_iff in Hp.
  rewrite Hp. f_equal. now apply IH.
Qed.

(** Only the first characters of a string decide whether it starts with
    [p]. *)
Lemma prefix_app_long (p x z : string) :
  String.length p <= String.length x ->
  String.prefix p (x ++ z)%string = String.prefix p x.
Proof.
  revert x. induction p as [|c p IH]; intros x H;
    [destruct x, z; reflexivity|].
  destruct x as [|d x]; [cbn in H; lia|].
  cbn. destruct (Ascii.ascii_dec c d); [|reflexivity].
  apply IH. cbn in H. lia.
Qed.

Lemma append_assoc (a b c : string) :
  ((a ++ b) ++ c)%string = (a ++ (b ++ c))%string.
Proof. induction a as [|x a IH]; [reflexivity|]. cbn. now rewrite IH. Qed.

Lemma length_append (a b : string) :
  String.length (a ++ b)%string = String.length a + String.length b.
Proof. induction a as [|x a IH]; [reflexivity|]. cbn. now rewrite IH. Qed.

(** An occurrence in the middle of a label: what stands before it is kept,
    the text is dropped, and the scan goes on behind it. *)
Lemma str_replace_middle (a b : string) :
  no_occurrence "skill_" (a ++ "skill") = true ->
  str_replace "skill_" "" (a ++ "skill_" ++ b)%string =
  (a ++ str_replace "skill_" "" b)%string.
Proof.
  induction a as [|c a IH]; intros H.
  - exact (str_replace_prefix "s" "kill_" "" b).
  - change ((String c a ++ "skill")%string) with (String c (a ++ "skill")%string) in H.
    cbn [no_occurrence] in H. apply andb_true_iff in H as [Hp Hrest].
    apply negb_true_iff in Hp.
    change ((String c a ++ "skill_" ++ b)%string)
      with (String c (a ++ "skill_" ++ b)%string).
    change ((String c a ++ str_replace "skill_" "" b)%string)
      with (String c (a ++ str_replace "skill_" "" b)%string).
    unfold str_replace in *. cbn [replace_from].
    assert (Hpre : String.prefix "skill_" (String c (a ++ "skill_" ++ b)%string)
                   = false).
    { change (String c (a ++ "skill_" ++ b)%string)
        with (String c a ++ ("skill" ++ ("_" ++ b)))%string.
      rewrite <- append_assoc, prefix_app_long.
      - exact Hp.
      - rewrite length_append. cbn. lia. }
    rewrite Hpre. f_equal. now apply IH.
Qed.

(** X17: the display name of a column is its label with the text [skill_]
    removed wherever it stands, not only in front: what stands before an
    occurrence is kept, the occurrence is dropped, and the scan goes on
    behind it (one pass: text that only comes together by the removal
    stays).  A label without the text is left as it is, and for every skill
    of the taxonomy the display name of its column is the skill
    identifier. *)
Theorem display_names :
  (forall a b,
      no_occurrence "skill_" (a ++ "skill") = true ->
      str_replace "skill_" "" (a ++ "skill_" ++ b)%string =
      (a ++ str_replace "skill_" "" b)%string) /\
  (forall s, no_occurrence "skill_" s = true -> str_replace "skill_" "" s = s) /\
  (forall cat skills s,
      In (cat, skills) SKILL_CATEGORIES -> In s skills ->
      str_replace "skill_" "" ("skill_" ++ s)%string = s).
Proof.
  split; [exact str_replace_middle|]. split.
  - intros s Hs. now apply str_replace_none.
  - intros cat skills s Hin Hs.
    transitivity (str_replace "skill_" "" s);
      [exact (str_replace_middle "" s eq_refl)|].
    apply str_replace_none.
    assert (Hall : forallb (fun cs : string * list string =>
                              forallb (no_occurrence "skill_") (snd cs))
                           SKILL_CATEGORIES = true) by (vm_compute; reflexivity).
    rewrite forallb_forall in Hall. specialize (Hall _ Hin). cbn [snd] in Hall.
    rewrite forallb_forall in Hall. now apply Hall.
Qed.

(** The text is removed in front and in the middle; the second label shows
    the single pass. *)
Lemma display_names_example :
  str_replace "skill_" "" "skill_upskill_training" = "uptraining" /\
  str_replace "skill_" "" "skiskill_ll_" = "skill_" /\
  str_replace "skill_" "" "skill_power_bi" = "power_bi".
Proof.
  destruct display_names as [Hmid [Hnone Htax]].
  split; [|split].
  - change "skill_upskill_training"
      with ("" ++ "skill_" ++ ("up" ++ "skill_" ++ "training"))%string.
    rewrite (Hmid "" _ eq_refl), (Hmid "up" "training" eq_refl).
    rewrite (Hnone "training" eq_refl). reflexivity.
  - change "skiskill_ll_" with ("ski" ++ "skill_" ++ "ll_")%string.
    rewrite (Hmid "ski" "ll_" eq_refl), (Hnone "ll_" eq_refl). reflexivity.
  - apply (Htax "Visualisation & BI Tools"
             ["dashboards"; "data_visualization"; "power_bi"; "tableau"; "looker";
              "qlik"; "datalens"; "superset"]).
    + do 3 right. left. reflexivity.
    + do 2 right. left. reflexivity.
Defined.

(* ------------------------------------------------------------------------- *)
(** ** The columns of the fact table *)
(* ------------------------------------------------------------------------- *)

Lemma combine_map {A B : Type} (f : A -> B) (l : list A) :
  combine l (map f l) = map (fun x => (x, f x)) l.
Proof. induction l as [|x l IH]; [reflexivity|]. cbn. now rewrite IH. Qed.

Lemma combine_map_l {A B : Type} (f : A -> B) (l : list A) :
  combine (map f l) l = map (fun x => (f x, x)) l.
Proof. induction l as [|x l IH]; [reflexivity|]. cbn. now rewrite IH. Qed.

(** X18: the fact table keeps, in the order of the script's list, the fact
    columns that the input has, and tolerates the missing ones; the derived
    [skills_count] column is always among them, whether or not the input had
    a column of that name, and holds the skills count of each posting.  With
    all eleven input columns present the table has all twelve columns. *)
Theorem fact_table_columns (df : DataFrame) :
  (forall c, In c (fact_columns (fact_job_postings df)) <->
             In c fact_cols /\ (In c (columns df) \/ c = "skills_count")) /\
  In "skills_count" (fact_columns (fact_job_postings df)) /\
  (forall row r,
      In (row, r) (combine (fact_rows (fact_job_postings df)) (rows df)) ->
      In ("skills_count", Int (skills_count df r))
         (combine (fact_columns (fact_job_postings df)) row)) /\
  ((forall c, In c fact_cols -> c <> "skills_count" -> In c (columns df)) ->
   fact_columns (fact_job_postings df) = fact_cols).
Proof.
  assert (Hcols : forall c, In c (fact_columns (fact_job_postings df)) <->
                    In c fact_cols /\ (In c (columns df) \/ c = "skills_count")).
  { intros c. unfold fact_job_postings. cbn [fact_columns].
    now rewrite filter_In, has_label_in, df_columns_in. }
  assert (Hsc : In "skills_count" (fact_columns (fact_job_postings df))).
  { apply Hcols. split; [|now right]. unfold fact_cols. cbn. tauto. }
  split; [exact Hcols|]. split; [exact Hsc|]. split.
  - intros row r Hin. unfold fact_job_postings in Hin. cbn [fact_rows] in Hin.
    rewrite combine_map_l in Hin.
    apply in_map_iff in Hin as [r' [E Hr']]. injection E as <- <-.
    rewrite combine_map. apply in_map_iff. exists "skills_count".
    split; [reflexivity|exact Hsc].
  - intros Hall. unfold fact_job_postings. cbn [fact_columns].
    apply filter_all. intros c Hc. apply has_label_in, df_columns_in.
    destruct (string_dec c "skills_count") as [->|Hne]; [now right|left; auto].
Qed.

(* ------------------------------------------------------------------------- *)
(** ** Category counts against skill counts *)
(* ------------------------------------------------------------------------- *)

Lemma sum_map_le {A : Type} (f g : A -> Z) (l : list A) :
  (forall x, In x l -> (f x <= g x)%Z) -> (sum (map f l) <= sum (map g l))%Z.
Proof.
  induction l as [|x l IH]; intros H; [cbn; lia|].
  cbn [map]. rewrite !sum_cons.
  assert (f x <= g x)%Z by (apply H; now left).
  assert (sum (map f l) <= sum (map g l))%Z
    by (apply IH; intros y Hy; apply H; now right).
  lia.
Qed.

Lemma sum_map_add {A : Type} (f g : A -> Z) (l : list A) :
  sum (map (fun x => (f x + g x)%Z) l) = (sum (map f l) + sum (map g l))%Z.
Proof.
  induction l as [|x l IH]; [reflexivity|].
  cbn [map]. rewrite !sum_cons, IH. lia.
Qed.

Lemma sum_swap {A B : Type} (F : A -> B -> Z) (rs : list A) (cs : list B) :
  sum (map (fun r => sum (map (fun c => F r c) cs)) rs) =
  sum (map (fun c => sum (map (fun r => F r c) rs)) cs).
Proof.
  induction rs as [|r rs IH].
  - cbn. induction cs as [|c cs IHc]; [reflexivity|].
    cbn [map]. rewrite sum_cons, <- IHc. reflexivity.
  - cbn [map]. rewrite sum_cons, IH.
    rewrite <- sum_map_add. f_equal.
Qed.

Lemma b2z_existsb_le_sum {B : Type} (p : B -> bool) (cs : list B) :
  (b2z (existsb p cs) <= sum (map (fun c => b2z (p c)) cs))%Z.
Proof.
  induction cs as [|c cs IH]; [cbn; lia|].
  cbn [existsb map]. rewrite sum_cons.
  pose proof (sum_b2z_bounds p cs) as [H0 _].
  destruct (p c), (existsb p cs); cbn [orb b2z] in *; lia.
Qed.

Lemma b2z_le_existsb {B : Type} (p : B -> bool) (cs : list B) (c : B) :
  In c cs -> (b2z (p c) <= b2z (existsb p cs))%Z.
Proof.
  intros H. destruct (p c) eqn:E; [|destruct (existsb p cs); cbn; lia].
  assert (Hex : existsb p cs = true) by (apply existsb_exists; eauto).
  rewrite Hex. cbn. lia.
Qed.

(** X20: the count of a category lies between the count of each of its
    skill columns and the sum of these counts: a posting with several skills
    of the category is counted once, not once per skill. *)
Theorem category_count_between (kind : sort_kind) (df : DataFrame)
  (row : category_row) :
  In row (agg_skill_categories kind df) ->
  exists skills n,
    In (skill_category row, skills) SKILL_CATEGORIES /\
    category_row_count row = Some n /\
    (forall col, In col (category_cols df skills) ->
                 (sum (flags col (rows df)) <= n)%Z) /\
    (n <= sum (map (fun col => sum (flags col (rows df)))
                   (category_cols df skills)))%Z.
Proof.
  intros Hrow. apply agg_skill_categories_row in Hrow
    as [skills [Hin [_ [_ Hcount]]]].
  rewrite mentioned_or in Hcount.
  exists skills, (sum (map (fun r => b2z (existsb (skill_flag r)
                                         (category_cols df skills)))
                           (rows df))).
  split; [exact Hin|]. split; [exact Hcount|]. split.
  - intros col Hcol. unfold flags. apply sum_map_le.
    intros r _. now apply b2z_le_existsb.
  - unfold flags.
    rewrite <- (sum_swap (fun r col => b2z (skill_flag r col))).
    apply sum_map_le. intros r _. apply b2z_existsb_le_sum.
Qed.

Lemma category_count_between_example :
  exists row skills n,
    In row (agg_skill_categories insertion_sort example_df) /\
    In (skill_category row, skills) SKILL_CATEGORIES /\
    category_row_count row = Some n /\
    (n <= sum (map (fun col => sum (flags col (rows example_df)))
                   (category_cols example_df skills)))%Z.
Proof.
  assert (Hin : In {| skill_category := "Programming";
                      category_row_share := Some (200 # 3)%Q;
                      category_row_count := Some 2%Z |}
                   (agg_skill_categories insertion_sort example_df))
    by (vm_compute; left; reflexivity).
  destruct (category_count_between insertion_sort example_df _ Hin)
    as [skills [n [H1 [H2 [_ H3]]]]].
  eexists. exists skills, n. repeat split; eassumption.
Defined.
